(** * BEAM link-layer codec: frame parser and serializer

    Shallow embedding of the 3-byte-header BEAM parser
    (compute_crc16_per_byte, compute_frame_crc, fill_payload,
    parse_into_frame, serialize_frame, beam_parse_into_frame,
    beam_serialize_frame) and the properties of its specification.

    Conventions of the embedding:
    - [uint8_t], [uint16_t] and [size_t] values are integers of [Z]; every
      conversion to a narrower type that the C code performs is written
      out ([to_uint16], [to_uint8]).
    - A C buffer is the list of the bytes stored from its first address
      on; [p[i]] is [byte_at p i], [p + k] is [skipn k p].  The list may be
      longer than the size the caller announces, so that an access beyond
      the announced size is visible in the model.
    - A pointer argument that may be NULL is an [option].
    - Functions that write through a pointer return the new pointee.
    - The functions that reach the CRC engine run in the [Counted] monad,
      whose state is the number of calls to [compute_crc16_per_byte]
      executed so far. *)

From Stdlib Require Import ZArith List Lia Bool.
Import ListNotations.
Open Scope Z_scope.

(** ** Fixed-width integers *)

Definition uint8 (z : Z) : Prop := 0 <= z < 256.
Definition uint16 (z : Z) : Prop := 0 <= z < 65536.

(** Conversion to [uint16_t] / [uint8_t]: reduction modulo 2^16 / 2^8. *)
Definition to_uint16 (z : Z) : Z := z mod 65536.
Definition to_uint8 (z : Z) : Z := z mod 256.

(** ** Buffers *)

(** [p[i]] *)
Definition byte_at (p : list Z) (i : Z) : Z := nth (Z.to_nat i) p 0.

(** [p[i] = v]; the list is the memory from [p] on, a store past its end
    is not represented. *)
Fixpoint store_nat (p : list Z) (i : nat) (v : Z) : list Z :=
  match p, i with
  | [], _ => []
  | _ :: t, O => v :: t
  | h :: t, S i' => h :: store_nat t i' v
  end.

Definition store (p : list Z) (i : Z) (v : Z) : list Z :=
  store_nat p (Z.to_nat i) v.

(** [memcpy(dest + off, src, n)]: the [n] first bytes of [src] replace the
    bytes [off .. off + n - 1] of [dest]. *)
Definition memcpy (dest : list Z) (off : Z) (src : list Z) (n : Z) : list Z :=
  firstn (Z.to_nat off) dest
    ++ firstn (Z.to_nat n) src
    ++ skipn (Z.to_nat (off + n)) dest.

(** ** Instrumentation: the number of CRC byte updates executed *)

Definition Counted (A : Type) : Type := nat -> A * nat.

Definition ret {A} (a : A) : Counted A := fun k => (a, k).

Definition bind {A B} (m : Counted A) (f : A -> Counted B) : Counted B :=
  fun k => f (fst (m k)) (snd (m k)).

Definition tick : Counted unit := fun k => (tt, S k).

Notation "x <- m ;; f" := (bind m (fun x => f))
  (at level 61, m at next level, right associativity).
Notation "m ;;; f" := (bind m (fun _ => f))
  (at level 61, right associativity).

(** Result of a computation started with a fresh counter, and the number
    of CRC byte updates it executed. *)
Definition result {A} (m : Counted A) : A := fst (m O).
Definition crc_updates {A} (m : Counted A) : nat := snd (m O).

(** [for (i = from; i < from + n; i++) s = body(i, s);] *)
Fixpoint for_loop {S} (n : nat) (i : Z) (body : Z -> S -> Counted S) (s : S)
  : Counted S :=
  match n with
  | O => ret s
  | Datatypes.S n' => s' <- body i s ;; for_loop n' (i + 1) body s'
  end.

(** ** Constants of the parser *)

Definition FRAME_HEADER_SIZE : Z := 3.
Definition FRAME_CRC_SIZE : Z := 2.
Definition FRAME_SIZE (len : Z) : Z := FRAME_HEADER_SIZE + len + FRAME_CRC_SIZE.
Definition CRC_INIT : Z := 0xFFFF.
Definition CRC_BIT_MASK : Z := 0x8000.
Definition CRC_POLYNOM : Z := 0x1021.
(** parser.h *)
Definition BEAM_FRAME_MIN_SIZE : Z := 5.
(** payload_type.h *)
Definition MAX_PAYLOAD_SIZE : Z := 200.
Definition sizeof_beam_payload_telemetry_t : Z := 12.
Definition sizeof_beam_payload_battery_t : Z := 5.

(** Modelled from the spec: the header that defines MSG_ID_TELEMETRY and
    MSG_ID_BATTERY is not among the sources.  The concrete example of the
    specification gives the category byte 0x00 to Telemetry; Battery is the
    next enumerator, as in the enumeration beam_message_category of the
    4-byte-header profile. *)
Definition MSG_ID_TELEMETRY : Z := 0.
Definition MSG_ID_BATTERY : Z := 1.

(** ** CRC engine *)

(** Body of the bit loop of [compute_crc16_per_byte]. *)
Definition crc_bit_step (crc : Z) : Z :=
  if negb (Z.land crc CRC_BIT_MASK =? 0)
  then to_uint16 (Z.lxor (Z.shiftl crc 1) CRC_POLYNOM)
  else to_uint16 (Z.shiftl crc 1).

Definition compute_crc16_per_byte (crc data : Z) : Counted Z :=
  tick ;;;
  let crc := to_uint16 (Z.lxor crc (Z.shiftl data 8)) in
  ret (Nat.iter 8 crc_bit_step crc).

Definition compute_frame_crc (data : list Z) (payload_len : Z) : Counted Z :=
  let crc := CRC_INIT in
  crc <- compute_crc16_per_byte crc (byte_at data 0) ;;
  crc <- compute_crc16_per_byte crc (byte_at data 1) ;;
  crc <- compute_crc16_per_byte crc (byte_at data 2) ;;
  for_loop (Z.to_nat payload_len) 0
    (fun i crc => compute_crc16_per_byte crc (byte_at data (FRAME_HEADER_SIZE + i)))
    crc.

(** The register after [compute_crc16_per_byte], without the counter. *)
Definition crc_update (crc data : Z) : Z :=
  Nat.iter 8 crc_bit_step (to_uint16 (Z.lxor crc (Z.shiftl data 8))).

(** The register after the bytes of a list, from [CRC_INIT]. *)
Definition crc_of (bytes : list Z) : Z := fold_left crc_update bytes CRC_INIT.

(** *** Reference definition of CRC-16/CCITT, after the specification *)

(** Left-shift the 16-bit register by one; if the bit shifted out was 1,
    XOR the result with the polynomial 0x1021. *)
Definition crc16_ccitt_shift (reg : Z) : Z :=
  let wide := Z.shiftl reg 1 in
  let shifted := Z.land wide 0xFFFF in
  if Z.testbit wide 16 then Z.lxor shifted 0x1021 else shifted.

(** XOR the byte into the high half of the register, then shift 8 times. *)
Definition crc16_ccitt_byte (reg byte : Z) : Z :=
  let reg := Z.lxor reg (byte * 256) in
  crc16_ccitt_shift (crc16_ccitt_shift (crc16_ccitt_shift (crc16_ccitt_shift
  (crc16_ccitt_shift (crc16_ccitt_shift (crc16_ccitt_shift (crc16_ccitt_shift
    reg))))))).

(** Initial register 0xFFFF, one byte at a time. *)
Definition crc16_ccitt (bytes : list Z) : Z :=
  fold_left crc16_ccitt_byte bytes 0xFFFF.

(** ** Frame model *)

Inductive esp_err_t : Set :=
| ESP_OK
| ESP_ERR_INVALID_ARG
| ESP_ERR_INVALID_SIZE
| ESP_ERR_INVALID_CRC
| ESP_ERR_INVALID_STATE.

Record beam_frame_header_t : Set := mk_header {
  msg_id : Z;   (* uint8_t *)
  seq : Z;      (* uint8_t *)
  len : Z       (* uint8_t *)
}.

(** The payload union, as the [MAX_PAYLOAD_SIZE] bytes of its storage:
    the member [telemetry] is the bytes 0..11, [battery] the bytes 0..4,
    [raw] all of them. *)
Definition beam_payload_t : Set := list Z.

Record beam_frame_t : Set := mk_frame {
  header : beam_frame_header_t;
  payload : beam_payload_t;
  crc : Z       (* uint16_t *)
}.

Definition set_msg_id (f : beam_frame_t) (v : Z) : beam_frame_t :=
  mk_frame (mk_header v (seq (header f)) (len (header f))) (payload f) (crc f).
Definition set_seq (f : beam_frame_t) (v : Z) : beam_frame_t :=
  mk_frame (mk_header (msg_id (header f)) v (len (header f))) (payload f) (crc f).
Definition set_len (f : beam_frame_t) (v : Z) : beam_frame_t :=
  mk_frame (mk_header (msg_id (header f)) (seq (header f)) v) (payload f) (crc f).
Definition set_payload (f : beam_frame_t) (p : beam_payload_t) : beam_frame_t :=
  mk_frame (header f) p (crc f).
Definition set_crc (f : beam_frame_t) (v : Z) : beam_frame_t :=
  mk_frame (header f) (payload f) v.

(** A frame as the C type allows it. *)
Definition frame_wf (f : beam_frame_t) : Prop :=
  uint8 (msg_id (header f)) /\ uint8 (seq (header f)) /\ uint8 (len (header f))
  /\ Z.of_nat (length (payload f)) = MAX_PAYLOAD_SIZE
  /\ Forall uint8 (payload f)
  /\ uint16 (crc f).

(** ** Payload dispatcher *)

(** The 4-byte-header profile (beam_parser.c) has the same function, with
    MSG_CAT_TELEMETRY and MSG_CAT_BATTERY for the two case labels. *)
Definition fill_payload (msg_id : Z) (payload_src : list Z) (len : Z)
    (payload : beam_payload_t) : beam_payload_t :=
  if msg_id =? MSG_ID_TELEMETRY then
    if sizeof_beam_payload_telemetry_t <=? len
    then memcpy payload 0 payload_src sizeof_beam_payload_telemetry_t
    else memcpy payload 0 payload_src len
  else if msg_id =? MSG_ID_BATTERY then
    if sizeof_beam_payload_battery_t <=? len
    then memcpy payload 0 payload_src sizeof_beam_payload_battery_t
    else memcpy payload 0 payload_src len
  else memcpy payload 0 payload_src len.

(** ** Parser *)

(** [PARSER_RETURN_ON_FALSE(condition, msg, ret_val); rest] *)
Notation "'PARSER_RETURN_ON_FALSE' c 'ELSE' r ';;' k" :=
  (if c then k else ret r)
  (at level 61, c at next level, r at next level, right associativity).

Definition parse_into_frame (data : list Z) (data_len : Z) (out : beam_frame_t)
  : Counted (esp_err_t * beam_frame_t) :=
  PARSER_RETURN_ON_FALSE (FRAME_HEADER_SIZE <=? data_len)
    ELSE (ESP_ERR_INVALID_SIZE, out) ;;
  let len := byte_at data 2 in
  PARSER_RETURN_ON_FALSE (len <=? MAX_PAYLOAD_SIZE)
    ELSE (ESP_ERR_INVALID_SIZE, out) ;;
  PARSER_RETURN_ON_FALSE (FRAME_SIZE len <=? data_len)
    ELSE (ESP_ERR_INVALID_SIZE, out) ;;
  expected_crc <- compute_frame_crc data len ;;
  let received_crc :=
    to_uint16 (Z.lor (byte_at data (FRAME_HEADER_SIZE + len))
                     (Z.shiftl (byte_at data (FRAME_HEADER_SIZE + len + 1)) 8)) in
  PARSER_RETURN_ON_FALSE (expected_crc =? received_crc)
    ELSE (ESP_ERR_INVALID_CRC, out) ;;
  let out := set_msg_id out (byte_at data 0) in
  let out := set_seq out (byte_at data 1) in
  let out := set_len out len in
  let out :=
    set_payload out
      (fill_payload (msg_id (header out)) (skipn (Z.to_nat FRAME_HEADER_SIZE) data)
                    len (payload out)) in
  let out := set_crc out received_crc in
  ret (ESP_OK, out).

Definition beam_parse_into_frame (data : option (list Z)) (data_len : Z)
    (out_frame : option beam_frame_t) : Counted (esp_err_t * option beam_frame_t) :=
  match data with
  | None => ret (ESP_ERR_INVALID_ARG, out_frame)
  | Some data =>
    match out_frame with
    | None => ret (ESP_ERR_INVALID_ARG, None)
    | Some out =>
      PARSER_RETURN_ON_FALSE (BEAM_FRAME_MIN_SIZE <=? data_len)
        ELSE (ESP_ERR_INVALID_SIZE, Some out) ;;
      r <- parse_into_frame data data_len out ;;
      ret (fst r, Some (snd r))
    end
  end.

(** ** Serializer *)

Definition serialize_frame (frame : beam_frame_t) (out_buffer : list Z)
    (buffer_size : Z) (out_size : option Z)
  : Counted (esp_err_t * list Z * option Z) :=
  let required_size := FRAME_SIZE (len (header frame)) in
  PARSER_RETURN_ON_FALSE (required_size <=? buffer_size)
    ELSE (ESP_ERR_INVALID_SIZE, out_buffer, out_size) ;;
  let out_buffer := store out_buffer 0 (msg_id (header frame)) in
  let out_buffer := store out_buffer 1 (seq (header frame)) in
  let out_buffer := store out_buffer 2 (len (header frame)) in
  let out_buffer :=
    memcpy out_buffer FRAME_HEADER_SIZE (payload frame) (len (header frame)) in
  crc <- compute_frame_crc out_buffer (len (header frame)) ;;
  let crc_offset := FRAME_HEADER_SIZE + len (header frame) in
  let out_buffer := store out_buffer crc_offset (to_uint8 (Z.land crc 0xFF)) in
  let out_buffer :=
    store out_buffer (crc_offset + 1) (to_uint8 (Z.land (Z.shiftr crc 8) 0xFF)) in
  let out_size :=
    match out_size with
    | Some _ => Some required_size
    | None => None
    end in
  ret (ESP_OK, out_buffer, out_size).

Definition beam_serialize_frame (frame : option beam_frame_t)
    (out_buffer : option (list Z)) (buffer_size : Z) (out_size : option Z)
  : Counted (esp_err_t * option (list Z) * option Z) :=
  match frame with
  | None => ret (ESP_ERR_INVALID_ARG, out_buffer, out_size)
  | Some frame =>
    match out_buffer with
    | None => ret (ESP_ERR_INVALID_ARG, None, out_size)
    | Some out_buffer =>
      PARSER_RETURN_ON_FALSE (len (header frame) <=? MAX_PAYLOAD_SIZE)
        ELSE (ESP_ERR_INVALID_STATE, Some out_buffer, out_size) ;;
      r <- serialize_frame frame out_buffer buffer_size out_size ;;
      ret (fst (fst r), Some (snd (fst r)), snd r)
    end
  end.

(** ** Notions used by the properties *)

(** Number of payload bytes that [fill_payload] copies. *)
Definition stored_size (msg_id len : Z) : Z :=
  if msg_id =? MSG_ID_TELEMETRY then
    if sizeof_beam_payload_telemetry_t <=? len
    then sizeof_beam_payload_telemetry_t else len
  else if msg_id =? MSG_ID_BATTERY then
    if sizeof_beam_payload_battery_t <=? len
    then sizeof_beam_payload_battery_t else len
  else len.

(** The bytes that the CRC of a frame covers: the three header bytes and the
    first [len] payload bytes. *)
Definition frame_bytes (frame : beam_frame_t) : list Z :=
  [msg_id (header frame); seq (header frame); len (header frame)]
    ++ firstn (Z.to_nat (len (header frame))) (payload frame).

(** The two bytes that [serialize_frame] stores for a CRC. *)
Definition crc_lo (c : Z) : Z := to_uint8 (Z.land c 0xFF).
Definition crc_hi (c : Z) : Z := to_uint8 (Z.land (Z.shiftr c 8) 0xFF).

(** The wire format: header bytes, [len] payload bytes, CRC of both, least
    significant byte first. *)
Definition encode (frame : beam_frame_t) : list Z :=
  frame_bytes frame
    ++ [crc_lo (crc_of (frame_bytes frame)); crc_hi (crc_of (frame_bytes frame))].

(** The 16-bit value read from two bytes, low byte first. *)
Definition read_crc (lo hi : Z) : Z := to_uint16 (Z.lor lo (Z.shiftl hi 8)).

(** The frame that [parse_into_frame] writes to [out] when it accepts [data]. *)
Definition parsed_frame (data : list Z) (out : beam_frame_t) : beam_frame_t :=
  mk_frame
    (mk_header (byte_at data 0) (byte_at data 1) (byte_at data 2))
    (fill_payload (byte_at data 0) (skipn (Z.to_nat FRAME_HEADER_SIZE) data)
       (byte_at data 2) (payload out))
    (read_crc (byte_at data (FRAME_HEADER_SIZE + byte_at data 2))
              (byte_at data (FRAME_HEADER_SIZE + byte_at data 2 + 1))).

(** Flip bit [k] of the byte at index [i]. *)
Definition flip_bit (buf : list Z) (i k : Z) : list Z :=
  store buf i (Z.lxor (byte_at buf i) (2 ^ k)).

(** Inverse of [crc_bit_step] on 16-bit registers. *)
Definition crc_bit_unstep (z : Z) : Z :=
  if Z.testbit z 0
  then Z.lor (Z.shiftr (Z.lxor z CRC_POLYNOM) 1) CRC_BIT_MASK
  else Z.shiftr z 1.

(** Check of a predicate on all the integers [acc * 2^n + z], [0 <= z < 2^n]:
    with [acc = 0], on all [n]-bit values. *)
Fixpoint forall_bits (n : nat) (acc : Z) (p : Z -> bool) : bool :=
  match n with
  | O => p acc
  | S n' => forall_bits n' (2 * acc) p && forall_bits n' (2 * acc + 1) p
  end.

(** Decidable form of [uint8], for concrete buffers. *)
Definition is_uint8 (z : Z) : bool := (0 <=? z) && (z <? 256).

(** Serialize into [buf], then parse the [size] bytes of the buffer into
    [out]. *)
Definition roundtrip (F : beam_frame_t) (buf : list Z) (size : Z)
    (out : beam_frame_t) : esp_err_t * option beam_frame_t :=
  result (beam_parse_into_frame
            (snd (fst (result (beam_serialize_frame (Some F) (Some buf) size None))))
            size (Some out)).

(** Sample data of the examples. *)
Definition zero_frame : beam_frame_t :=
  mk_frame (mk_header 0 0 0) (repeat 0 200) 0.
Definition sample_payload : beam_payload_t :=
  map Z.of_nat (List.seq 1 200).
(** A frame of an unknown category (5) without payload, and its wire form
    as [beam_serialize_frame] writes it into a 5-byte buffer. *)
Definition empty_frame : beam_frame_t :=
  mk_frame (mk_header 5 0 0) (repeat 0 200) 0.
Definition empty_frame_wire : list Z :=
  match snd (fst (result (beam_serialize_frame (Some empty_frame)
                            (Some (repeat 0 5)) 5 None))) with
  | Some wire => wire
  | None => []
  end.
(** A frame of an unknown category with the longest payload. *)
Definition full_frame : beam_frame_t :=
  mk_frame (mk_header 9 1 MAX_PAYLOAD_SIZE) sample_payload 0.
(** A Telemetry frame that declares 13 payload bytes, 1 .. 13. *)
Definition telemetry13_frame : beam_frame_t :=
  mk_frame (mk_header MSG_ID_TELEMETRY 7 13) sample_payload 0.
(** Its serialization into a buffer of 20 bytes, all 7 before the call. *)
Definition telemetry13_buffer : list Z :=
  encode telemetry13_frame ++ skipn 18 (repeat 7 20).
(** What parsing its serialization into [zero_frame] returns. *)
Definition telemetry13_parsed : beam_frame_t :=
  mk_frame (mk_header MSG_ID_TELEMETRY 7 13)
    (map Z.of_nat (List.seq 1 12) ++ repeat 0 188)
    (crc_of [0; 7; 13; 1; 2; 3; 4; 5; 6; 7; 8; 9; 10; 11; 12; 13]).

(** * The other profiles of the parser *)

(** ** The extended profile: 4-byte header (beam_parser.c)

    Header bytes msg_category, flags, seq, len (beam_frame.h of the 4-byte
    header, with the enumeration of beam_message_common.h and
    [MAX_PAYLOAD_SIZE] of payload_type.h).  The CRC is computed by
    [esp_crc16_be], a function of the ROM of the chip that is no part of the
    repository: it is a parameter [esp_crc16_be crc buf len] of the
    embedding. *)
Module Extended.

Definition FRAME_HEADER_SIZE : Z := 4.
Definition FRAME_CRC_SIZE : Z := 2.
Definition FRAME_SIZE (len : Z) : Z := FRAME_HEADER_SIZE + len + FRAME_CRC_SIZE.
Definition FRAME_MIN_SIZE : Z := FRAME_SIZE 0.
(** UINT16_MAX *)
Definition CRC_INIT : Z := 65535.
(** enum beam_message_category *)
Definition MSG_CAT_TELEMETRY : Z := 0.
Definition MSG_CAT_BATTERY : Z := 1.

Record beam_frame_header_t : Set := mk_header {
  msg_category : Z;   (* uint8_t *)
  flags : Z;          (* beam_flags_t = uint8_t *)
  seq : Z;            (* uint8_t *)
  len : Z             (* uint8_t *)
}.

Record beam_frame_t : Set := mk_frame {
  header : beam_frame_header_t;
  payload : beam_payload_t;
  crc : Z       (* uint16_t *)
}.

Definition set_msg_category (f : beam_frame_t) (v : Z) : beam_frame_t :=
  mk_frame (mk_header v (flags (header f)) (seq (header f)) (len (header f)))
    (payload f) (crc f).
Definition set_flags (f : beam_frame_t) (v : Z) : beam_frame_t :=
  mk_frame (mk_header (msg_category (header f)) v (seq (header f)) (len (header f)))
    (payload f) (crc f).
Definition set_seq (f : beam_frame_t) (v : Z) : beam_frame_t :=
  mk_frame (mk_header (msg_category (header f)) (flags (header f)) v (len (header f)))
    (payload f) (crc f).
Definition set_len (f : beam_frame_t) (v : Z) : beam_frame_t :=
  mk_frame (mk_header (msg_category (header f)) (flags (header f)) (seq (header f)) v)
    (payload f) (crc f).
Definition set_payload (f : beam_frame_t) (p : beam_payload_t) : beam_frame_t :=
  mk_frame (header f) p (crc f).
Definition set_crc (f : beam_frame_t) (v : Z) : beam_frame_t :=
  mk_frame (header f) (payload f) v.

Definition fill_payload (msg_category : Z) (payload_src : list Z) (len : Z)
    (payload : beam_payload_t) : beam_payload_t :=
  if msg_category =? MSG_CAT_TELEMETRY then
    if sizeof_beam_payload_telemetry_t <=? len
    then memcpy payload 0 payload_src sizeof_beam_payload_telemetry_t
    else memcpy payload 0 payload_src len
  else if msg_category =? MSG_CAT_BATTERY then
    if sizeof_beam_payload_battery_t <=? len
    then memcpy payload 0 payload_src sizeof_beam_payload_battery_t
    else memcpy payload 0 payload_src len
  else memcpy payload 0 payload_src len.

Section WithCrc.
(** [esp_crc16_be crc buf len] *)
Variable esp_crc16_be : Z -> list Z -> Z -> Z.

Definition parse_into_frame (data : list Z) (data_len : Z) (out : beam_frame_t)
  : esp_err_t * beam_frame_t :=
  if negb (FRAME_HEADER_SIZE <=? data_len) then (ESP_ERR_INVALID_SIZE, out) else
  let len := byte_at data 3 in
  if negb (len <=? MAX_PAYLOAD_SIZE) then (ESP_ERR_INVALID_SIZE, out) else
  if negb (FRAME_SIZE len <=? data_len) then (ESP_ERR_INVALID_SIZE, out) else
  let expected_crc := esp_crc16_be CRC_INIT data (FRAME_HEADER_SIZE + len) in
  let received_crc :=
    to_uint16 (Z.lor (byte_at data (FRAME_HEADER_SIZE + len))
                     (Z.shiftl (byte_at data (FRAME_HEADER_SIZE + len + 1)) 8)) in
  if negb (expected_crc =? received_crc) then (ESP_ERR_INVALID_CRC, out) else
  let out := set_msg_category out (byte_at data 0) in
  let out := set_flags out (byte_at data 1) in
  let out := set_seq out (byte_at data 2) in
  let out := set_len out len in
  let out :=
    set_payload out
      (fill_payload (msg_category (header out))
         (skipn (Z.to_nat FRAME_HEADER_SIZE) data) len (payload out)) in
  let out := set_crc out received_crc in
  (ESP_OK, out).

Definition beam_parse_into_frame (data : option (list Z)) (data_len : Z)
    (out_frame : option beam_frame_t) : esp_err_t * option beam_frame_t :=
  match data with
  | None => (ESP_ERR_INVALID_ARG, out_frame)
  | Some data =>
    match out_frame with
    | None => (ESP_ERR_INVALID_ARG, None)
    | Some out =>
      if negb (FRAME_MIN_SIZE <=? data_len) then (ESP_ERR_INVALID_SIZE, Some out)
      else (fst (parse_into_frame data data_len out),
            Some (snd (parse_into_frame data data_len out)))
    end
  end.

Definition serialize_frame (frame : beam_frame_t) (out_buffer : list Z)
    (buffer_size : Z) (out_size : option Z) : esp_err_t * list Z * option Z :=
  let required_size := FRAME_SIZE (len (header frame)) in
  if negb (required_size <=? buffer_size)
  then (ESP_ERR_INVALID_SIZE, out_buffer, out_size) else
  let out_buffer := store out_buffer 0 (msg_category (header frame)) in
  let out_buffer := store out_buffer 1 (flags (header frame)) in
  let out_buffer := store out_buffer 2 (seq (header frame)) in
  let out_buffer := store out_buffer 3 (len (header frame)) in
  let out_buffer :=
    memcpy out_buffer FRAME_HEADER_SIZE (payload frame) (len (header frame)) in
  let crc :=
    esp_crc16_be CRC_INIT out_buffer (FRAME_HEADER_SIZE + len (header frame)) in
  let crc_offset := FRAME_HEADER_SIZE + len (header frame) in
  let out_buffer := store out_buffer crc_offset (to_uint8 (Z.land crc 0xFF)) in
  let out_buffer :=
    store out_buffer (crc_offset + 1) (to_uint8 (Z.land (Z.shiftr crc 8) 0xFF)) in
  let out_size :=
    match out_size with
    | Some _ => Some required_size
    | None => None
    end in
  (ESP_OK, out_buffer, out_size).

Definition beam_serialize_frame (frame : option beam_frame_t)
    (out_buffer : option (list Z)) (buffer_size : Z) (out_size : option Z)
  : esp_err_t * option (list Z) * option Z :=
  match frame with
  | None => (ESP_ERR_INVALID_ARG, out_buffer, out_size)
  | Some frame =>
    match out_buffer with
    | None => (ESP_ERR_INVALID_ARG, None, out_size)
    | Some out_buffer =>
      if negb (len (header frame) <=? MAX_PAYLOAD_SIZE)
      then (ESP_ERR_INVALID_STATE, Some out_buffer, out_size)
      else
        (fst (fst (serialize_frame frame out_buffer buffer_size out_size)),
         Some (snd (fst (serialize_frame frame out_buffer buffer_size out_size))),
         snd (serialize_frame frame out_buffer buffer_size out_size))
    end
  end.

(** The bytes that the CRC of a frame covers, and the wire format. *)
Definition frame_bytes (frame : beam_frame_t) : list Z :=
  [msg_category (header frame); flags (header frame); seq (header frame);
   len (header frame)]
    ++ firstn (Z.to_nat (len (header frame))) (payload frame).

Definition frame_crc (frame : beam_frame_t) : Z :=
  esp_crc16_be CRC_INIT (frame_bytes frame) (FRAME_HEADER_SIZE + len (header frame)).

Definition encode (frame : beam_frame_t) : list Z :=
  frame_bytes frame ++ [crc_lo (frame_crc frame); crc_hi (frame_crc frame)].

End WithCrc.

(** What the embedding assumes of [esp_crc16_be]: it returns a [uint16_t],
    and it reads the [len] first bytes of [buf] only. *)
Definition crc_function (esp_crc16_be : Z -> list Z -> Z -> Z) : Prop :=
  (forall crc buf len, uint16 (esp_crc16_be crc buf len))
  /\ (forall crc buf buf' len,
         firstn (Z.to_nat len) buf = firstn (Z.to_nat len) buf' ->
         esp_crc16_be crc buf len = esp_crc16_be crc buf' len).

End Extended.

(** ** The first parser: beam_validate_frame (beam_parser.c, parser.h)

    It has the 3-byte header, the constants and the CRC functions of the
    parser above, and a frame whose payload is a plain byte array of
    [MAX_PAYLOAD_SIZE] bytes, filled with all the declared bytes.  The
    header that declares this frame is not among the sources:
    [MAX_PAYLOAD_SIZE] is a parameter. *)
Module Legacy.

Definition beam_compute_crc16_per_byte (crc data : Z) : Counted Z :=
  tick ;;;
  let crc := to_uint16 (Z.lxor crc (Z.shiftl data 8)) in
  ret (Nat.iter 8 crc_bit_step crc).

Definition beam_compute_frame_crc (data : list Z) (payload_len : Z) : Counted Z :=
  let crc := CRC_INIT in
  crc <- beam_compute_crc16_per_byte crc (byte_at data 0) ;;
  crc <- beam_compute_crc16_per_byte crc (byte_at data 1) ;;
  crc <- beam_compute_crc16_per_byte crc (byte_at data 2) ;;
  for_loop (Z.to_nat payload_len) 0
    (fun i crc =>
       beam_compute_crc16_per_byte crc (byte_at data (FRAME_HEADER_SIZE + i)))
    crc.

Section WithMax.
Variable MAX_PAYLOAD_SIZE : Z.

Definition beam_parse_frame_into (data : list Z) (data_len : Z)
    (out : beam_frame_t) : Counted (esp_err_t * beam_frame_t) :=
  PARSER_RETURN_ON_FALSE (FRAME_HEADER_SIZE <=? data_len)
    ELSE (ESP_ERR_INVALID_SIZE, out) ;;
  let len := byte_at data 2 in
  PARSER_RETURN_ON_FALSE (len <=? MAX_PAYLOAD_SIZE)
    ELSE (ESP_ERR_INVALID_SIZE, out) ;;
  let frame_size := FRAME_HEADER_SIZE + len + FRAME_CRC_SIZE in
  PARSER_RETURN_ON_FALSE (frame_size <=? data_len)
    ELSE (ESP_ERR_INVALID_SIZE, out) ;;
  expected_crc <- beam_compute_frame_crc data len ;;
  let received_crc :=
    to_uint16 (Z.lor (byte_at data (FRAME_HEADER_SIZE + len))
                     (Z.shiftl (byte_at data (FRAME_HEADER_SIZE + len + 1)) 8)) in
  PARSER_RETURN_ON_FALSE (expected_crc =? received_crc)
    ELSE (ESP_ERR_INVALID_CRC, out) ;;
  let out := set_msg_id out (byte_at data 0) in
  let out := set_seq out (byte_at data 1) in
  let out := set_len out len in
  let out :=
    set_payload out
      (memcpy (payload out) 0 (skipn (Z.to_nat FRAME_HEADER_SIZE) data) len) in
  let out := set_crc out received_crc in
  ret (ESP_OK, out).

Definition beam_validate_frame (data : option (list Z)) (data_len : Z)
    (out_frame : option beam_frame_t) : Counted (esp_err_t * option beam_frame_t) :=
  match data with
  | None => ret (ESP_ERR_INVALID_ARG, out_frame)
  | Some data =>
    match out_frame with
    | None => ret (ESP_ERR_INVALID_ARG, None)
    | Some out =>
      PARSER_RETURN_ON_FALSE (BEAM_FRAME_MIN_SIZE <=? data_len)
        ELSE (ESP_ERR_INVALID_SIZE, Some out) ;;
      r <- beam_parse_frame_into data data_len out ;;
      ret (fst r, Some (snd r))
    end
  end.

End WithMax.
End Legacy.

(** ** Sample data of the other profiles *)

(** A CRC function for the examples of the extended profile: the register of
    the CRC engine above after [len] bytes. *)
Definition sample_crc16 (crc : Z) (buf : list Z) (len : Z) : Z :=
  to_uint16 (fold_left crc_update (firstn (Z.to_nat len) buf) crc).

(** A Battery frame of the extended profile that declares 7 payload bytes. *)
Definition battery7_frame : Extended.beam_frame_t :=
  Extended.mk_frame (Extended.mk_header Extended.MSG_CAT_BATTERY 3 9 7)
    sample_payload 0.
Definition extended_zero_frame : Extended.beam_frame_t :=
  Extended.mk_frame (Extended.mk_header 0 0 0 0) (repeat 0 200) 0.

(** Frames whose [len] field is above [MAX_PAYLOAD_SIZE]: the field is a
    [uint8_t], the payload storage has [MAX_PAYLOAD_SIZE] bytes. *)
Definition oversize_frame : beam_frame_t :=
  mk_frame (mk_header 9 1 201) sample_payload 0.
Definition extended_oversize_frame : Extended.beam_frame_t :=
  Extended.mk_frame (Extended.mk_header 9 0 1 201) sample_payload 0.

(** A Battery frame that declares 6 payload bytes, 1 .. 6, its wire form,
    an output frame with recognisable previous content, and what parsing
    the wire form into it returns. *)
Definition battery6_frame : beam_frame_t :=
  mk_frame (mk_header MSG_ID_BATTERY 3 6) sample_payload 0.
Definition battery6_wire : list Z := encode battery6_frame.
Definition stale_frame : beam_frame_t :=
  mk_frame (mk_header 9 9 9) (repeat 238 200) 4660.
Definition battery6_parsed : beam_frame_t :=
  mk_frame (mk_header MSG_ID_BATTERY 3 6)
    ([1; 2; 3; 4; 5] ++ repeat 238 195)
    (crc_of [1; 3; 6; 1; 2; 3; 4; 5; 6]).

(** * Properties *)

(** ** The counting monad *)

Lemma bind_run {A B} (m : Counted A) (f : A -> Counted B) (k : nat) :
  bind m f k = f (fst (m k)) (snd (m k)).
Proof. reflexivity. Qed.

Lemma compute_crc16_per_byte_run (c b : Z) (k : nat) :
  compute_crc16_per_byte c b k = (crc_update c b, S k).
Proof. reflexivity. Qed.

(** ** Bit-level facts *)

Lemma to_uint16_land (z : Z) : to_uint16 z = Z.land z 0xFFFF.
Proof.
  unfold to_uint16. change 0xFFFF with (Z.ones 16).
  rewrite Z.land_ones by lia. reflexivity.
Qed.

Lemma to_uint16_range (z : Z) : uint16 (to_uint16 z).
Proof. unfold uint16, to_uint16. apply Z.mod_pos_bound. lia. Qed.

Lemma to_uint16_id (z : Z) : uint16 z -> to_uint16 z = z.
Proof. unfold uint16, to_uint16. intros H. apply Z.mod_small. exact H. Qed.

Lemma land_pow2_testbit (z n : Z) :
  0 <= n -> (Z.land z (2 ^ n) =? 0) = negb (Z.testbit z n).
Proof.
  intros Hn. destruct (Z.testbit z n) eqn:Hb; simpl.
  - apply Z.eqb_neq. intros H0.
    assert (Ht : Z.testbit (Z.land z (2 ^ n)) n = true).
    { rewrite Z.land_spec, Hb, Z.pow2_bits_true by lia. reflexivity. }
    rewrite H0, Z.bits_0 in Ht. discriminate.
  - apply Z.eqb_eq. apply Z.bits_inj'. intros m Hm.
    rewrite Z.land_spec, Z.bits_0.
    destruct (Z.eq_dec n m) as [<-|Hne].
    + rewrite Hb. reflexivity.
    + rewrite Z.pow2_bits_false by lia. apply andb_false_r.
Qed.

Lemma land_mask_testbit (z : Z) :
  (Z.land z CRC_BIT_MASK =? 0) = negb (Z.testbit z 15).
Proof. apply (land_pow2_testbit z 15). lia. Qed.

Lemma land_lxor_distr_l (a b c : Z) :
  Z.land (Z.lxor a b) c = Z.lxor (Z.land a c) (Z.land b c).
Proof.
  apply Z.bits_inj'. intros n _.
  rewrite Z.lxor_spec, !Z.land_spec, Z.lxor_spec.
  destruct (Z.testbit a n), (Z.testbit b n), (Z.testbit c n); reflexivity.
Qed.

Lemma uint16_lxor (a b : Z) : uint16 a -> uint16 b -> uint16 (Z.lxor a b).
Proof.
  intros Ha Hb.
  rewrite <- (to_uint16_id a Ha), <- (to_uint16_id b Hb).
  rewrite !to_uint16_land, <- land_lxor_distr_l, <- to_uint16_land.
  apply to_uint16_range.
Qed.

Lemma uint8_shiftl8 (b : Z) : uint8 b -> uint16 (Z.shiftl b 8).
Proof. unfold uint8, uint16. rewrite Z.shiftl_mul_pow2 by lia. lia. Qed.

(** The loop body of the code and the shift of the reference definition
    are the same function, on every integer. *)
Lemma crc_bit_step_ref (c : Z) : crc_bit_step c = crc16_ccitt_shift c.
Proof.
  unfold crc_bit_step, crc16_ccitt_shift.
  rewrite land_mask_testbit, negb_involutive.
  replace (Z.testbit (Z.shiftl c 1) 16) with (Z.testbit c 15)
    by (rewrite Z.shiftl_spec by lia; reflexivity).
  rewrite !to_uint16_land.
  destruct (Z.testbit c 15); [| reflexivity].
  rewrite land_lxor_distr_l. reflexivity.
Qed.

Lemma crc_bit_step_range (c : Z) : uint16 (crc_bit_step c).
Proof. unfold crc_bit_step. destruct (negb _); apply to_uint16_range. Qed.

Lemma iter_8 {A} (f : A -> A) (x : A) :
  Nat.iter 8 f x = f (f (f (f (f (f (f (f x))))))).
Proof. reflexivity. Qed.

Lemma crc_update_range (c b : Z) : uint16 (crc_update c b).
Proof. unfold crc_update. rewrite iter_8. apply crc_bit_step_range. Qed.

Lemma crc_update_ref (c b : Z) :
  uint16 c -> uint8 b -> crc_update c b = crc16_ccitt_byte c b.
Proof.
  intros Hc Hb. unfold crc_update, crc16_ccitt_byte. rewrite iter_8.
  rewrite to_uint16_id by (apply uint16_lxor; [exact Hc | apply uint8_shiftl8, Hb]).
  rewrite Z.shiftl_mul_pow2 by lia. change (2 ^ 8) with 256.
  rewrite !crc_bit_step_ref. reflexivity.
Qed.

(** ** Lists as buffers *)

Lemma skipn_cons_nth (l : list Z) (j : nat) :
  (j < length l)%nat -> skipn j l = nth j l 0 :: skipn (S j) l.
Proof.
  revert j. induction l as [|h t IH]; intros j Hj; simpl in Hj; [lia|].
  destruct j as [|j]; [reflexivity|].
  simpl. apply IH. lia.
Qed.

Lemma Forall_is_uint8 (l : list Z) : forallb is_uint8 l = true -> Forall uint8 l.
Proof.
  intros H. apply Forall_forall. intros z Hz.
  rewrite forallb_forall in H. specialize (H z Hz).
  unfold is_uint8 in H. apply andb_prop in H. destruct H as [H0 H1].
  apply Z.leb_le in H0. apply Z.ltb_lt in H1. split; assumption.
Qed.

Lemma Forall_uint8_firstn (n : nat) (l : list Z) :
  Forall uint8 l -> Forall uint8 (firstn n l).
Proof.
  revert l. induction n as [|n IH]; intros l Hl; [constructor|].
  destruct Hl as [|h t Hh Ht]; constructor; [exact Hh | apply IH, Ht].
Qed.

Lemma Forall_uint8_skipn (n : nat) (l : list Z) :
  Forall uint8 l -> Forall uint8 (skipn n l).
Proof.
  revert l. induction n as [|n IH]; intros l Hl; [exact Hl|].
  destruct Hl as [|h t Hh Ht]; [constructor | apply IH, Ht].
Qed.

(** ** The CRC engine computes CRC-16/CCITT *)

(** The loops of [compute_frame_crc], for any byte step that counts one
    update: the register is a left fold over the header and payload bytes. *)
Section FrameCrcLoop.
Variable per_byte : Z -> Z -> Counted Z.
Variable upd : Z -> Z -> Z.
Hypothesis per_byte_run : forall c b k, per_byte c b k = (upd c b, S k).

Lemma for_loop_fold (data : list Z) (n : nat) :
  forall (i c : Z) (k : nat),
    0 <= i ->
    (Z.to_nat (FRAME_HEADER_SIZE + i) + n <= length data)%nat ->
    for_loop n i
      (fun i crc => per_byte crc (byte_at data (FRAME_HEADER_SIZE + i))) c k
    = (fold_left upd
         (firstn n (skipn (Z.to_nat (FRAME_HEADER_SIZE + i)) data)) c,
       (k + n)%nat).
Proof.
  assert (H3 : FRAME_HEADER_SIZE = 3) by reflexivity.
  induction n as [|n IH]; intros i c k Hi Hlen.
  - simpl. unfold ret. f_equal. lia.
  - cbn [for_loop]. rewrite bind_run, per_byte_run.
    cbn [fst snd].
    rewrite IH by lia.
    rewrite (skipn_cons_nth data (Z.to_nat (FRAME_HEADER_SIZE + i))) by lia.
    cbn [firstn fold_left]. unfold byte_at.
    replace (Z.to_nat (FRAME_HEADER_SIZE + (i + 1)))
      with (S (Z.to_nat (FRAME_HEADER_SIZE + i))) by lia.
    f_equal. lia.
Qed.

Lemma frame_crc_fold (data : list Z) (payload_len : Z) (k : nat) :
  0 <= payload_len ->
  FRAME_HEADER_SIZE + payload_len <= Z.of_nat (length data) ->
  (crc <- per_byte CRC_INIT (byte_at data 0) ;;
   crc <- per_byte crc (byte_at data 1) ;;
   crc <- per_byte crc (byte_at data 2) ;;
   for_loop (Z.to_nat payload_len) 0
     (fun i crc => per_byte crc (byte_at data (FRAME_HEADER_SIZE + i))) crc) k
  = (fold_left upd
       (firstn (Z.to_nat (FRAME_HEADER_SIZE + payload_len)) data) CRC_INIT,
     (k + Z.to_nat (FRAME_HEADER_SIZE + payload_len))%nat).
Proof.
  intros Hn Hlen.
  assert (H3 : FRAME_HEADER_SIZE = 3) by reflexivity.
  destruct data as [|d0 [|d1 [|d2 rest]]];
    try (cbn [length] in Hlen; lia).
  rewrite !bind_run, !per_byte_run.
  rewrite for_loop_fold; [| lia | cbn [length] in *; lia].
  replace (Z.to_nat (FRAME_HEADER_SIZE + 0)) with 3%nat by lia.
  replace (Z.to_nat (FRAME_HEADER_SIZE + payload_len))
    with (S (S (S (Z.to_nat payload_len)))) by lia.
  unfold byte_at.
  cbn [fst snd skipn firstn fold_left nth].
  replace (Z.to_nat 0) with 0%nat by reflexivity.
  replace (Z.to_nat 1) with 1%nat by reflexivity.
  replace (Z.to_nat 2) with 2%nat by reflexivity.
  cbn [nth].
  f_equal. lia.
Qed.
End FrameCrcLoop.

Lemma compute_frame_crc_run (data : list Z) (payload_len : Z) (k : nat) :
  0 <= payload_len ->
  FRAME_HEADER_SIZE + payload_len <= Z.of_nat (length data) ->
  compute_frame_crc data payload_len k
  = (crc_of (firstn (Z.to_nat (FRAME_HEADER_SIZE + payload_len)) data),
     (k + Z.to_nat (FRAME_HEADER_SIZE + payload_len))%nat).
Proof.
  exact (frame_crc_fold compute_crc16_per_byte crc_update
           compute_crc16_per_byte_run data payload_len k).
Qed.

Lemma fold_crc_update_range (l : list Z) (c : Z) :
  uint16 c -> uint16 (fold_left crc_update l c).
Proof.
  revert c. induction l as [|b l IH]; intros c Hc; simpl; [exact Hc|].
  apply IH, crc_update_range.
Qed.

Lemma fold_crc_update_ref (l : list Z) :
  Forall uint8 l ->
  forall c, uint16 c -> fold_left crc_update l c = fold_left crc16_ccitt_byte l c.
Proof.
  induction 1 as [|b l Hb Hl IH]; intros c Hc; simpl; [reflexivity|].
  rewrite <- crc_update_ref by assumption.
  apply IH, crc_update_range.
Qed.

Lemma crc_init_range : uint16 CRC_INIT.
Proof. unfold uint16, CRC_INIT. lia. Qed.

Lemma crc_of_range (l : list Z) : uint16 (crc_of l).
Proof. apply fold_crc_update_range, crc_init_range. Qed.

Lemma crc_of_ref (l : list Z) : Forall uint8 l -> crc_of l = crc16_ccitt l.
Proof.
  intros Hl. unfold crc_of, crc16_ccitt.
  apply fold_crc_update_ref; [exact Hl | apply crc_init_range].
Qed.

Lemma fold_per_byte (l : list Z) :
  forall c,
    fold_left (fun c b => fst (compute_crc16_per_byte c b O)) l c
    = fold_left crc_update l c.
Proof.
  induction l as [|b l IH]; intros c; [reflexivity|].
  cbn [fold_left]. rewrite compute_crc16_per_byte_run. apply IH.
Qed.

(** C2: on 16-bit registers and bytes, [compute_crc16_per_byte] is the byte
    step of the CRC-16/CCITT reference definition (XOR into the high half,
    eight shifts with polynomial 0x1021), so that feeding any byte sequence
    to it from [CRC_INIT] gives the reference CRC (register initialised to
    0xFFFF); [compute_frame_crc] returns the reference CRC of the header and
    payload bytes it is given, hence of any byte sequence of at least three
    bytes taken as header and payload; the value depends on these bytes
    only, whatever the state it is called in. *)
Theorem compute_frame_crc_is_crc16_ccitt :
  (forall (reg b : Z) (k : nat),
      uint16 reg -> uint8 b ->
      fst (compute_crc16_per_byte reg b k) = crc16_ccitt_byte reg b)
  /\
  (forall (bytes : list Z),
      Forall uint8 bytes ->
      fold_left (fun c b => fst (compute_crc16_per_byte c b O)) bytes CRC_INIT
      = crc16_ccitt bytes)
  /\
  (forall (data : list Z) (payload_len : Z) (k : nat),
      Forall uint8 data ->
      0 <= payload_len ->
      FRAME_HEADER_SIZE + payload_len <= Z.of_nat (length data) ->
      fst (compute_frame_crc data payload_len k)
      = crc16_ccitt (firstn (Z.to_nat (FRAME_HEADER_SIZE + payload_len)) data))
  /\
  (forall (bytes : list Z) (k : nat),
      Forall uint8 bytes ->
      FRAME_HEADER_SIZE <= Z.of_nat (length bytes) ->
      fst (compute_frame_crc bytes (Z.of_nat (length bytes) - FRAME_HEADER_SIZE) k)
      = crc16_ccitt bytes).
Proof.
  split; [| split; [| split]].
  - intros reg b k Hreg Hb.
    rewrite compute_crc16_per_byte_run. cbn [fst].
    apply crc_update_ref; assumption.
  - intros bytes Hbytes. rewrite fold_per_byte.
    apply (crc_of_ref bytes Hbytes).
  - intros data payload_len k Hdata Hn Hlen.
    rewrite compute_frame_crc_run by assumption. cbn [fst].
    apply crc_of_ref. apply Forall_uint8_firstn. exact Hdata.
  - intros bytes k Hbytes Hlen.
    rewrite compute_frame_crc_run by lia. cbn [fst].
    replace (FRAME_HEADER_SIZE + (Z.of_nat (length bytes) - FRAME_HEADER_SIZE))
      with (Z.of_nat (length bytes)) by lia.
    rewrite Nat2Z.id, firstn_all.
    apply crc_of_ref. exact Hbytes.
Qed.

Lemma compute_frame_crc_is_crc16_ccitt_witness :
  fst (compute_crc16_per_byte 0xFFFF 0x31 O) = crc16_ccitt_byte 0xFFFF 0x31
  /\ fst (compute_frame_crc [49; 50; 51; 52; 53; 54; 55; 56; 57] 6 O) = 0x29B1.
Proof.
  split.
  - apply (proj1 compute_frame_crc_is_crc16_ccitt 0xFFFF 0x31 O);
      unfold uint16, uint8; lia.
  - rewrite (proj1 (proj2 (proj2 compute_frame_crc_is_crc16_ccitt))
               [49; 50; 51; 52; 53; 54; 55; 56; 57] 6 O).
    + reflexivity.
    + apply Forall_is_uint8. reflexivity.
    + lia.
    + simpl. unfold FRAME_HEADER_SIZE. lia.
Defined.

(** ** Stores and copies *)

Lemma store_nat_length (p : list Z) (i : nat) (v : Z) :
  length (store_nat p i v) = length p.
Proof.
  revert i. induction p as [|h t IH]; intros [|i]; simpl; auto.
Qed.

Lemma store_nat_app (a b : list Z) (i : nat) (v : Z) :
  store_nat (a ++ b) (length a + i) v = a ++ store_nat b i v.
Proof. induction a as [|h t IH]; simpl; [reflexivity | rewrite IH; reflexivity]. Qed.

Lemma store_app (a b : list Z) (i v : Z) :
  Z.of_nat (length a) <= i ->
  store (a ++ b) i v = a ++ store b (i - Z.of_nat (length a)) v.
Proof.
  intros Hi. unfold store.
  replace (Z.to_nat i) with (length a + Z.to_nat (i - Z.of_nat (length a)))%nat by lia.
  apply store_nat_app.
Qed.

Lemma store_head (h : Z) (t : list Z) (v : Z) : store (h :: t) 0 v = v :: t.
Proof. reflexivity. Qed.

Lemma byte_at_app_l (a b : list Z) (i : Z) :
  0 <= i < Z.of_nat (length a) -> byte_at (a ++ b) i = byte_at a i.
Proof. intros Hi. unfold byte_at. apply app_nth1. lia. Qed.

Lemma byte_at_app_r (a b : list Z) (i : Z) :
  Z.of_nat (length a) <= i ->
  byte_at (a ++ b) i = byte_at b (i - Z.of_nat (length a)).
Proof.
  intros Hi. unfold byte_at. rewrite app_nth2 by lia. f_equal. lia.
Qed.

Lemma byte_at_firstn (n : nat) (l : list Z) (i : Z) :
  0 <= i < Z.of_nat n -> byte_at (firstn n l) i = byte_at l i.
Proof.
  intros Hi. unfold byte_at.
  rewrite <- (firstn_skipn n l) at 2.
  destruct (Nat.lt_ge_cases (Z.to_nat i) (length (firstn n l))) as [Hlt|Hge].
  - rewrite app_nth1 by exact Hlt. reflexivity.
  - rewrite length_firstn in Hge.
    assert (Hn : (length l <= Z.to_nat i)%nat) by lia.
    rewrite (nth_overflow (firstn n l)) by (rewrite length_firstn; lia).
    rewrite nth_overflow; [reflexivity|].
    rewrite length_app, length_firstn, length_skipn. lia.
Qed.

Lemma firstn_firstn_le (n m : nat) (l : list Z) :
  (n <= m)%nat -> firstn n (firstn m l) = firstn n l.
Proof. intros H. rewrite firstn_firstn. f_equal. lia. Qed.

Lemma firstn_app_exact (a b : list Z) (n : nat) :
  n = length a -> firstn n (a ++ b) = a.
Proof.
  intros ->. rewrite firstn_app, Nat.sub_diag, firstn_all. simpl.
  apply app_nil_r.
Qed.

Lemma skipn_app_exact (a b : list Z) (n : nat) :
  n = length a -> skipn n (a ++ b) = b.
Proof.
  intros ->. rewrite skipn_app, Nat.sub_diag, skipn_all. reflexivity.
Qed.

Lemma firstn_app_le (a b : list Z) (n : nat) :
  (n <= length a)%nat -> firstn n (a ++ b) = firstn n a.
Proof.
  intros H. rewrite firstn_app.
  replace (n - length a)%nat with 0%nat by lia.
  simpl. apply app_nil_r.
Qed.

Lemma memcpy_0 (dest src : list Z) (n : Z) :
  memcpy dest 0 src n = firstn (Z.to_nat n) src ++ skipn (Z.to_nat n) dest.
Proof. unfold memcpy. rewrite Z.add_0_l. reflexivity. Qed.

Lemma memcpy_length (dest src : list Z) (off n : Z) :
  0 <= off -> 0 <= n ->
  n <= Z.of_nat (length src) ->
  off + n <= Z.of_nat (length dest) ->
  length (memcpy dest off src n) = length dest.
Proof.
  intros Hoff Hn Hsrc Hdest. unfold memcpy.
  rewrite !length_app, !length_firstn, length_skipn. lia.
Qed.

(** ** The paths of the parser *)

Lemma parse_into_frame_len_over (data : list Z) (data_len : Z)
    (out : beam_frame_t) (k : nat) :
  MAX_PAYLOAD_SIZE < byte_at data 2 ->
  parse_into_frame data data_len out k = ((ESP_ERR_INVALID_SIZE, out), k).
Proof.
  intros H. unfold parse_into_frame.
  destruct (FRAME_HEADER_SIZE <=? data_len); [| reflexivity].
  destruct (Z.leb_spec (byte_at data 2) MAX_PAYLOAD_SIZE); [lia | reflexivity].
Qed.

Lemma parse_into_frame_truncated (data : list Z) (data_len : Z)
    (out : beam_frame_t) (k : nat) :
  data_len < FRAME_SIZE (byte_at data 2) ->
  parse_into_frame data data_len out k = ((ESP_ERR_INVALID_SIZE, out), k).
Proof.
  intros H. unfold parse_into_frame.
  destruct (FRAME_HEADER_SIZE <=? data_len); [| reflexivity].
  destruct (byte_at data 2 <=? MAX_PAYLOAD_SIZE); [| reflexivity].
  destruct (Z.leb_spec (FRAME_SIZE (byte_at data 2)) data_len);
    [lia | reflexivity].
Qed.

Lemma parse_into_frame_checked (data : list Z) (data_len : Z)
    (out : beam_frame_t) (k : nat) :
  0 <= byte_at data 2 <= MAX_PAYLOAD_SIZE ->
  FRAME_SIZE (byte_at data 2) <= data_len ->
  data_len <= Z.of_nat (length data) ->
  parse_into_frame data data_len out k
  = (if crc_of (firstn (Z.to_nat (FRAME_HEADER_SIZE + byte_at data 2)) data)
        =? read_crc (byte_at data (FRAME_HEADER_SIZE + byte_at data 2))
                    (byte_at data (FRAME_HEADER_SIZE + byte_at data 2 + 1))
     then (ESP_OK, parsed_frame data out)
     else (ESP_ERR_INVALID_CRC, out),
     (k + Z.to_nat (FRAME_HEADER_SIZE + byte_at data 2))%nat).
Proof.
  intros HL Hsize Hlen.
  assert (Hfs : FRAME_SIZE (byte_at data 2) = FRAME_HEADER_SIZE + byte_at data 2 + 2)
    by reflexivity.
  assert (H3 : FRAME_HEADER_SIZE = 3) by reflexivity.
  unfold parse_into_frame.
  destruct (Z.leb_spec FRAME_HEADER_SIZE data_len); [| lia].
  destruct (Z.leb_spec (byte_at data 2) MAX_PAYLOAD_SIZE); [| lia].
  destruct (Z.leb_spec (FRAME_SIZE (byte_at data 2)) data_len); [| lia].
  rewrite bind_run, compute_frame_crc_run by lia.
  cbn [fst snd]. fold (read_crc (byte_at data (FRAME_HEADER_SIZE + byte_at data 2))
                                (byte_at data (FRAME_HEADER_SIZE + byte_at data 2 + 1))).
  destruct (_ =? _); reflexivity.
Qed.

Lemma beam_parse_into_frame_run (data : list Z) (data_len : Z)
    (out : beam_frame_t) (k : nat) :
  BEAM_FRAME_MIN_SIZE <= data_len ->
  beam_parse_into_frame (Some data) data_len (Some out) k
  = ((fst (fst (parse_into_frame data data_len out k)),
      Some (snd (fst (parse_into_frame data data_len out k)))),
     snd (parse_into_frame data data_len out k)).
Proof.
  intros H. unfold beam_parse_into_frame.
  destruct (Z.leb_spec BEAM_FRAME_MIN_SIZE data_len); [| lia].
  reflexivity.
Qed.

Lemma beam_parse_into_frame_below_min (data : list Z) (data_len : Z)
    (out : beam_frame_t) (k : nat) :
  data_len < BEAM_FRAME_MIN_SIZE ->
  beam_parse_into_frame (Some data) data_len (Some out) k
  = ((ESP_ERR_INVALID_SIZE, Some out), k).
Proof.
  intros H. unfold beam_parse_into_frame.
  destruct (Z.leb_spec BEAM_FRAME_MIN_SIZE data_len); [lia | reflexivity].
Qed.

(** ** The payload dispatcher *)

Lemma fill_payload_stored_size (m : Z) (src : list Z) (L : Z) (p : beam_payload_t) :
  fill_payload m src L p = memcpy p 0 src (stored_size m L).
Proof.
  unfold fill_payload, stored_size.
  destruct (m =? MSG_ID_TELEMETRY).
  - destruct (sizeof_beam_payload_telemetry_t <=? L); reflexivity.
  - destruct (m =? MSG_ID_BATTERY); [| reflexivity].
    destruct (sizeof_beam_payload_battery_t <=? L); reflexivity.
Qed.

Lemma stored_size_bounds (m L : Z) : 0 <= L -> 0 <= stored_size m L <= L.
Proof.
  intros HL. unfold stored_size,
    sizeof_beam_payload_telemetry_t, sizeof_beam_payload_battery_t.
  destruct (m =? MSG_ID_TELEMETRY).
  - destruct (Z.leb_spec 12 L); lia.
  - destruct (m =? MSG_ID_BATTERY); [| lia].
    destruct (Z.leb_spec 5 L); lia.
Qed.

(** C3: [fill_payload] is total and keeps the size of the payload storage.
    For Telemetry with at least 12 payload bytes it fills the 12 bytes of the
    telemetry member from the first 12 source bytes; for Battery with at
    least 5 payload bytes it fills the 5 bytes of the battery member from
    the first 5 source bytes; for a known category with fewer bytes, and for
    any other category, it stores all [len] bytes as raw bytes and leaves
    the rest of the storage as it was.  Telemetry with length 4 is the raw
    case: 4 bytes stored, the bytes 4..11 of the telemetry member untouched. *)
Theorem fill_payload_dispatch :
  forall (m : Z) (src : list Z) (L : Z) (p : beam_payload_t),
    0 <= L <= MAX_PAYLOAD_SIZE ->
    L <= Z.of_nat (length src) ->
    Z.of_nat (length p) = MAX_PAYLOAD_SIZE ->
    length (fill_payload m src L p) = length p
    /\ (m = MSG_ID_TELEMETRY -> 12 <= L ->
        fill_payload m src L p = firstn 12 src ++ skipn 12 p)
    /\ (m = MSG_ID_BATTERY -> 5 <= L ->
        fill_payload m src L p = firstn 5 src ++ skipn 5 p)
    /\ ((m = MSG_ID_TELEMETRY /\ L < 12) \/ (m = MSG_ID_BATTERY /\ L < 5)
        \/ (m <> MSG_ID_TELEMETRY /\ m <> MSG_ID_BATTERY) ->
        fill_payload m src L p
        = firstn (Z.to_nat L) src ++ skipn (Z.to_nat L) p)
    /\ (m = MSG_ID_TELEMETRY -> L = 4 ->
        fill_payload m src L p = firstn 4 src ++ skipn 4 p).
Proof.
  intros m src L p HL Hsrc Hp.
  unfold MAX_PAYLOAD_SIZE in *.
  split; [| split; [| split; [| split]]].
  - rewrite fill_payload_stored_size.
    pose proof (stored_size_bounds m L (proj1 HL)).
    apply memcpy_length; lia.
  - intros -> H12. unfold fill_payload.
    rewrite Z.eqb_refl. unfold sizeof_beam_payload_telemetry_t.
    destruct (Z.leb_spec 12 L); [| lia]. apply memcpy_0.
  - intros -> H5. unfold fill_payload.
    change (MSG_ID_BATTERY =? MSG_ID_TELEMETRY) with false.
    rewrite Z.eqb_refl. unfold sizeof_beam_payload_battery_t.
    destruct (Z.leb_spec 5 L); [| lia]. apply memcpy_0.
  - intros Hcase. unfold fill_payload,
      sizeof_beam_payload_telemetry_t, sizeof_beam_payload_battery_t.
    destruct Hcase as [[-> Hlt] | [[-> Hlt] | [HnT HnB]]].
    + rewrite Z.eqb_refl. destruct (Z.leb_spec 12 L); [lia |]. apply memcpy_0.
    + change (MSG_ID_BATTERY =? MSG_ID_TELEMETRY) with false.
      rewrite Z.eqb_refl. destruct (Z.leb_spec 5 L); [lia |]. apply memcpy_0.
    + apply Z.eqb_neq in HnT, HnB. rewrite HnT, HnB. apply memcpy_0.
  - intros -> ->. reflexivity.
Qed.

Lemma fill_payload_dispatch_witness :
  fill_payload MSG_ID_TELEMETRY [1; 2; 3; 4] 4 (repeat 9 200)
  = [1; 2; 3; 4] ++ repeat 9 196
  /\ fill_payload MSG_ID_TELEMETRY (map Z.of_nat (List.seq 1 13)) 13 (repeat 9 200)
     = map Z.of_nat (List.seq 1 12) ++ repeat 9 188.
Proof.
  split.
  - assert (H4 : 0 <= 4 <= MAX_PAYLOAD_SIZE) by (unfold MAX_PAYLOAD_SIZE; lia).
    assert (Hs : 4 <= Z.of_nat (length [1; 2; 3; 4])) by (simpl; lia).
    assert (Hp : Z.of_nat (length (repeat 9 200)) = MAX_PAYLOAD_SIZE)
      by reflexivity.
    exact (proj2 (proj2 (proj2 (proj2
             (fill_payload_dispatch MSG_ID_TELEMETRY [1; 2; 3; 4] 4
                (repeat 9 200) H4 Hs Hp)))) eq_refl eq_refl).
  - assert (H13 : 0 <= 13 <= MAX_PAYLOAD_SIZE) by (unfold MAX_PAYLOAD_SIZE; lia).
    assert (Hs : 13 <= Z.of_nat (length (map Z.of_nat (List.seq 1 13))))
      by (simpl; lia).
    assert (Hp : Z.of_nat (length (repeat 9 200)) = MAX_PAYLOAD_SIZE)
      by reflexivity.
    assert (H12 : 12 <= 13) by lia.
    exact (proj1 (proj2
             (fill_payload_dispatch MSG_ID_TELEMETRY
                (map Z.of_nat (List.seq 1 13)) 13 (repeat 9 200) H13 Hs Hp))
             eq_refl H12).
Defined.

(** ** The serializer writes the wire format *)

Lemma store_cons (h : Z) (t : list Z) (i v : Z) :
  1 <= i -> store (h :: t) i v = h :: store t (i - 1) v.
Proof.
  intros Hi. unfold store.
  replace (Z.to_nat i) with (S (Z.to_nat (i - 1))) by lia.
  reflexivity.
Qed.

Lemma frame_bytes_length (F : beam_frame_t) :
  0 <= len (header F) <= Z.of_nat (length (payload F)) ->
  Z.of_nat (length (frame_bytes F)) = FRAME_HEADER_SIZE + len (header F).
Proof.
  intros H. unfold frame_bytes, FRAME_HEADER_SIZE.
  rewrite length_app, length_firstn. cbn [length]. lia.
Qed.

Lemma encode_length (F : beam_frame_t) :
  0 <= len (header F) <= Z.of_nat (length (payload F)) ->
  Z.of_nat (length (encode F)) = FRAME_SIZE (len (header F)).
Proof.
  intros H. unfold encode, FRAME_SIZE, FRAME_CRC_SIZE.
  rewrite length_app, Nat2Z.inj_add, frame_bytes_length by exact H.
  cbn [length]. lia.
Qed.

Lemma serialize_frame_run (F : beam_frame_t) (buf : list Z) (size : Z)
    (osz : option Z) (k : nat) :
  0 <= len (header F) <= Z.of_nat (length (payload F)) ->
  FRAME_SIZE (len (header F)) <= size ->
  size <= Z.of_nat (length buf) ->
  serialize_frame F buf size osz k
  = ((ESP_OK,
      encode F ++ skipn (Z.to_nat (FRAME_SIZE (len (header F)))) buf,
      match osz with
      | Some _ => Some (FRAME_SIZE (len (header F)))
      | None => None
      end),
     (k + Z.to_nat (FRAME_HEADER_SIZE + len (header F)))%nat).
Proof.
  intros HL Hsize Hbuf.
  pose proof (frame_bytes_length F HL) as Hfb.
  assert (H3 : FRAME_HEADER_SIZE = 3) by reflexivity.
  assert (Hfs : FRAME_SIZE (len (header F)) = len (header F) + 5) by
    (unfold FRAME_SIZE, FRAME_HEADER_SIZE, FRAME_CRC_SIZE; lia).
  destruct buf as [|b0 [|b1 [|b2 rest]]]; try (cbn [length] in Hbuf; lia).
  assert (Hrest : len (header F) + 2 <= Z.of_nat (length rest))
    by (cbn [length] in Hbuf; lia).
  unfold serialize_frame.
  destruct (Z.leb_spec (FRAME_SIZE (len (header F))) size); [| lia].
  rewrite store_head, (store_cons _ _ 1), store_head by lia.
  rewrite (store_cons _ _ 2), (store_cons _ _ (2 - 1)), store_head by lia.
  assert (Hcpy :
    memcpy (msg_id (header F) :: seq (header F) :: len (header F) :: rest)
      FRAME_HEADER_SIZE (payload F) (len (header F))
    = frame_bytes F ++ skipn (Z.to_nat (len (header F))) rest).
  { unfold memcpy, frame_bytes. rewrite H3.
    replace (Z.to_nat (3 + len (header F)))
      with (S (S (S (Z.to_nat (len (header F)))))) by lia.
    replace (Z.to_nat 3) with 3%nat by reflexivity.
    cbn [firstn skipn app].
    reflexivity. }
  rewrite Hcpy. clear Hcpy.
  rewrite bind_run.
  rewrite compute_frame_crc_run;
    [| lia | rewrite length_app, length_skipn; lia].
  cbn [fst snd].
  rewrite (firstn_app_exact (frame_bytes F)) by lia.
  rewrite (skipn_cons_nth rest (Z.to_nat (len (header F)))) by lia.
  rewrite (skipn_cons_nth rest (S (Z.to_nat (len (header F))))) by lia.
  rewrite (store_app (frame_bytes F)) by lia.
  replace (FRAME_HEADER_SIZE + len (header F) - Z.of_nat (length (frame_bytes F)))
    with 0 by lia.
  rewrite store_head.
  rewrite (store_app (frame_bytes F)) by lia.
  replace (FRAME_HEADER_SIZE + len (header F) + 1
           - Z.of_nat (length (frame_bytes F))) with 1 by lia.
  rewrite (store_cons _ _ 1), store_head by lia.
  unfold ret, encode. rewrite <- app_assoc.
  replace (Z.to_nat (FRAME_SIZE (len (header F))))
    with (S (S (S (S (S (Z.to_nat (len (header F)))))))) by lia.
  cbn [skipn app].
  reflexivity.
Qed.

Lemma beam_serialize_frame_run (F : beam_frame_t) (buf : list Z) (size : Z)
    (osz : option Z) (k : nat) :
  0 <= len (header F) <= Z.of_nat (length (payload F)) ->
  size <= Z.of_nat (length buf) ->
  beam_serialize_frame (Some F) (Some buf) size osz k
  = if len (header F) <=? MAX_PAYLOAD_SIZE then
      if FRAME_SIZE (len (header F)) <=? size then
        ((ESP_OK,
          Some (encode F ++ skipn (Z.to_nat (FRAME_SIZE (len (header F)))) buf),
          match osz with
          | Some _ => Some (FRAME_SIZE (len (header F)))
          | None => None
          end),
         (k + Z.to_nat (FRAME_HEADER_SIZE + len (header F)))%nat)
      else ((ESP_ERR_INVALID_SIZE, Some buf, osz), k)
    else ((ESP_ERR_INVALID_STATE, Some buf, osz), k).
Proof.
  intros HL Hbuf. unfold beam_serialize_frame.
  destruct (len (header F) <=? MAX_PAYLOAD_SIZE); [| reflexivity].
  rewrite bind_run.
  destruct (Z.leb_spec (FRAME_SIZE (len (header F))) size) as [Hs|Hs].
  - rewrite serialize_frame_run by assumption. reflexivity.
  - unfold serialize_frame.
    destruct (Z.leb_spec (FRAME_SIZE (len (header F))) size); [lia|].
    reflexivity.
Qed.

(** ** Exhaustive checks on 16-bit values *)

Lemma forall_bits_spec (n : nat) (p : Z -> bool) :
  forall acc,
    forall_bits n acc p = true ->
    forall z, 0 <= z < 2 ^ Z.of_nat n -> p (acc * 2 ^ Z.of_nat n + z) = true.
Proof.
  induction n as [|n IH]; intros acc Hall z Hz.
  - cbn [forall_bits] in Hall. change (2 ^ Z.of_nat 0) with 1 in *.
    replace (acc * 1 + z) with acc by lia. exact Hall.
  - cbn [forall_bits] in Hall. apply andb_prop in Hall.
    destruct Hall as [H0 H1].
    rewrite Nat2Z.inj_succ, Z.pow_succ_r in * by lia.
    destruct (Z_lt_le_dec z (2 ^ Z.of_nat n)) as [Hlo|Hhi].
    + replace (acc * (2 * 2 ^ Z.of_nat n) + z)
        with (2 * acc * 2 ^ Z.of_nat n + z) by lia.
      apply IH; [exact H0 | lia].
    + replace (acc * (2 * 2 ^ Z.of_nat n) + z)
        with ((2 * acc + 1) * 2 ^ Z.of_nat n + (z - 2 ^ Z.of_nat n)) by lia.
      apply IH; [exact H1 | lia].
Qed.

Lemma forall_uint16 (p : Z -> bool) :
  forall_bits 16 0 p = true -> forall z, uint16 z -> p z = true.
Proof.
  intros Hall z Hz.
  pose proof (forall_bits_spec 16 p 0 Hall z) as H.
  change (2 ^ Z.of_nat 16) with 65536 in H.
  rewrite Z.mul_0_l, Z.add_0_l in H. apply H. exact Hz.
Qed.

Lemma read_crc_split (c : Z) : uint16 c -> read_crc (crc_lo c) (crc_hi c) = c.
Proof.
  intros Hc.
  assert (Hall : forall_bits 16 0
                   (fun c => read_crc (crc_lo c) (crc_hi c) =? c) = true)
    by (vm_compute; reflexivity).
  apply Z.eqb_eq.
  apply (forall_uint16 _ Hall). exact Hc.
Qed.

Lemma crc_bit_step_inverse (c : Z) :
  uint16 c -> crc_bit_unstep (crc_bit_step c) = c.
Proof.
  intros Hc.
  assert (Hall : forall_bits 16 0
                   (fun c => crc_bit_unstep (crc_bit_step c) =? c) = true)
    by (vm_compute; reflexivity).
  apply Z.eqb_eq.
  apply (forall_uint16 _ Hall). exact Hc.
Qed.

Lemma forall_uint8 (p : Z -> bool) :
  forall_bits 8 0 p = true -> forall z, uint8 z -> p z = true.
Proof.
  intros Hall z Hz.
  pose proof (forall_bits_spec 8 p 0 Hall z) as H.
  change (2 ^ Z.of_nat 8) with 256 in H.
  rewrite Z.mul_0_l, Z.add_0_l in H. apply H. exact Hz.
Qed.

Lemma split_read_crc (lo hi : Z) :
  uint8 lo -> uint8 hi ->
  crc_lo (read_crc lo hi) = lo /\ crc_hi (read_crc lo hi) = hi.
Proof.
  intros Hlo Hhi.
  assert (Hall : forall_bits 8 0 (fun lo => forall_bits 8 0 (fun hi =>
            (crc_lo (read_crc lo hi) =? lo) && (crc_hi (read_crc lo hi) =? hi)))
            = true)
    by (vm_compute; reflexivity).
  pose proof (forall_uint8 _ (forall_uint8 _ Hall lo Hlo) hi Hhi) as H.
  cbv beta in H. apply andb_prop in H. destruct H as [H1 H2].
  split; apply Z.eqb_eq; assumption.
Qed.

(** ** Accepted and rejected buffers *)

Lemma parse_into_frame_accepts (data : list Z) (data_len : Z)
    (out : beam_frame_t) (k : nat) (m s L : Z) :
  byte_at data 0 = m -> byte_at data 1 = s -> byte_at data 2 = L ->
  0 <= L <= MAX_PAYLOAD_SIZE ->
  FRAME_SIZE L <= data_len ->
  data_len <= Z.of_nat (length data) ->
  crc_of (firstn (Z.to_nat (FRAME_HEADER_SIZE + L)) data)
  = read_crc (byte_at data (FRAME_HEADER_SIZE + L))
             (byte_at data (FRAME_HEADER_SIZE + L + 1)) ->
  parse_into_frame data data_len out k
  = ((ESP_OK,
      mk_frame (mk_header m s L)
        (fill_payload m (skipn (Z.to_nat FRAME_HEADER_SIZE) data) L (payload out))
        (crc_of (firstn (Z.to_nat (FRAME_HEADER_SIZE + L)) data))),
     (k + Z.to_nat (FRAME_HEADER_SIZE + L))%nat).
Proof.
  intros <- <- <- HL Hsize Hlen Hcrc.
  rewrite parse_into_frame_checked by assumption.
  unfold parsed_frame. rewrite <- Hcrc, Z.eqb_refl. reflexivity.
Qed.

Lemma parse_into_frame_rejects (data : list Z) (data_len : Z)
    (out : beam_frame_t) (k : nat) (L : Z) :
  byte_at data 2 = L ->
  0 <= L <= MAX_PAYLOAD_SIZE ->
  FRAME_SIZE L <= data_len ->
  data_len <= Z.of_nat (length data) ->
  crc_of (firstn (Z.to_nat (FRAME_HEADER_SIZE + L)) data)
  <> read_crc (byte_at data (FRAME_HEADER_SIZE + L))
              (byte_at data (FRAME_HEADER_SIZE + L + 1)) ->
  parse_into_frame data data_len out k
  = ((ESP_ERR_INVALID_CRC, out), (k + Z.to_nat (FRAME_HEADER_SIZE + L))%nat).
Proof.
  intros <- HL Hsize Hlen Hcrc.
  rewrite parse_into_frame_checked by assumption.
  apply Z.eqb_neq in Hcrc. rewrite Hcrc. reflexivity.
Qed.

(** The parts of a buffer that starts with an encoded frame. *)
Section EncodedBuffer.
Variable F : beam_frame_t.
Variable tail : list Z.
Hypothesis HL : 0 <= len (header F) <= Z.of_nat (length (payload F)).

Lemma encode_app_cons :
  encode F ++ tail
  = msg_id (header F) :: seq (header F) :: len (header F)
      :: (firstn (Z.to_nat (len (header F))) (payload F)
          ++ [crc_lo (crc_of (frame_bytes F)); crc_hi (crc_of (frame_bytes F))]
          ++ tail).
Proof.
  unfold encode, frame_bytes. rewrite <- !app_assoc. reflexivity.
Qed.

Lemma encode_app_split :
  encode F ++ tail
  = frame_bytes F
    ++ crc_lo (crc_of (frame_bytes F)) :: crc_hi (crc_of (frame_bytes F)) :: tail.
Proof. unfold encode. rewrite <- app_assoc. reflexivity. Qed.

Lemma encode_byte_0 : byte_at (encode F ++ tail) 0 = msg_id (header F).
Proof. rewrite encode_app_cons. reflexivity. Qed.

Lemma encode_byte_1 : byte_at (encode F ++ tail) 1 = seq (header F).
Proof. rewrite encode_app_cons. reflexivity. Qed.

Lemma encode_byte_2 : byte_at (encode F ++ tail) 2 = len (header F).
Proof. rewrite encode_app_cons. reflexivity. Qed.

Lemma encode_covered :
  firstn (Z.to_nat (FRAME_HEADER_SIZE + len (header F))) (encode F ++ tail)
  = frame_bytes F.
Proof.
  rewrite encode_app_split. apply firstn_app_exact.
  pose proof (frame_bytes_length F HL). lia.
Qed.

Lemma encode_crc_lo :
  byte_at (encode F ++ tail) (FRAME_HEADER_SIZE + len (header F))
  = crc_lo (crc_of (frame_bytes F)).
Proof.
  pose proof (frame_bytes_length F HL) as Hfb.
  rewrite encode_app_split, byte_at_app_r by lia.
  replace (FRAME_HEADER_SIZE + len (header F) - Z.of_nat (length (frame_bytes F)))
    with 0 by lia.
  reflexivity.
Qed.

Lemma encode_crc_hi :
  byte_at (encode F ++ tail) (FRAME_HEADER_SIZE + len (header F) + 1)
  = crc_hi (crc_of (frame_bytes F)).
Proof.
  pose proof (frame_bytes_length F HL) as Hfb.
  rewrite encode_app_split, byte_at_app_r by lia.
  replace (FRAME_HEADER_SIZE + len (header F) + 1
           - Z.of_nat (length (frame_bytes F))) with 1 by lia.
  reflexivity.
Qed.

Lemma encode_payload_src (n : nat) :
  (n <= Z.to_nat (len (header F)))%nat ->
  firstn n (skipn (Z.to_nat FRAME_HEADER_SIZE) (encode F ++ tail))
  = firstn n (payload F).
Proof.
  intros Hn. rewrite encode_app_cons.
  change (Z.to_nat FRAME_HEADER_SIZE) with 3%nat. cbn [skipn].
  rewrite firstn_app_le by (rewrite length_firstn; lia).
  apply firstn_firstn_le. exact Hn.
Qed.
End EncodedBuffer.

Lemma header_eta (h : beam_frame_header_t) :
  mk_header (msg_id h) (seq h) (len h) = h.
Proof. destruct h. reflexivity. Qed.

(** ** Parsing an encoded frame *)

Lemma parse_into_frame_encode (F : beam_frame_t) (tail : list Z) (data_len : Z)
    (out : beam_frame_t) (k : nat) :
  0 <= len (header F) <= MAX_PAYLOAD_SIZE ->
  len (header F) <= Z.of_nat (length (payload F)) ->
  FRAME_SIZE (len (header F)) <= data_len ->
  data_len <= Z.of_nat (length (encode F ++ tail)) ->
  parse_into_frame (encode F ++ tail) data_len out k
  = ((ESP_OK,
      mk_frame (header F)
        (firstn (Z.to_nat (stored_size (msg_id (header F)) (len (header F))))
                (payload F)
         ++ skipn (Z.to_nat (stored_size (msg_id (header F)) (len (header F))))
                  (payload out))
        (crc_of (frame_bytes F))),
     (k + Z.to_nat (FRAME_HEADER_SIZE + len (header F)))%nat).
Proof.
  intros HL Hpay Hsize Hlen.
  assert (HL' : 0 <= len (header F) <= Z.of_nat (length (payload F))) by lia.
  pose proof (stored_size_bounds (msg_id (header F)) (len (header F)) (proj1 HL))
    as Hn.
  rewrite (parse_into_frame_accepts _ _ _ _
             (msg_id (header F)) (seq (header F)) (len (header F)));
    try assumption.
  - rewrite encode_covered by exact HL'.
    rewrite fill_payload_stored_size, memcpy_0.
    rewrite encode_payload_src by (try exact HL'; lia).
    rewrite header_eta. reflexivity.
  - apply encode_byte_0.
  - apply encode_byte_1.
  - apply encode_byte_2.
  - rewrite encode_covered, encode_crc_lo, encode_crc_hi by exact HL'.
    symmetry. apply read_crc_split, crc_of_range.
Qed.

Lemma telemetry13_frame_wf : frame_wf telemetry13_frame.
Proof.
  unfold frame_wf, uint8, uint16. cbn [telemetry13_frame header payload crc
    msg_id seq len]. unfold MSG_ID_TELEMETRY, MAX_PAYLOAD_SIZE.
  repeat split; try lia; try reflexivity.
  apply Forall_is_uint8. vm_compute. reflexivity.
Qed.

(** ** Round trip *)

(** C1, as the code has it: a well-formed frame with [len <= MAX_PAYLOAD_SIZE]
    serializes into any buffer with room for it, and parsing the buffer
    succeeds with the header of the frame and the CRC that was serialized.
    Of the payload, the first [stored_size] bytes are those of the frame (12
    for Telemetry with [len >= 12], 5 for Battery with [len >= 5], [len]
    otherwise) and the rest of the output payload keeps its previous
    content; when [stored_size] is [len], all [len] payload bytes come
    back. *)
Theorem serialize_parse_roundtrip :
  forall (F : beam_frame_t) (buf : list Z) (size : Z) (osz : option Z)
         (out : beam_frame_t) (data_len : Z) (k k' : nat),
    frame_wf F ->
    len (header F) <= MAX_PAYLOAD_SIZE ->
    FRAME_SIZE (len (header F)) <= size ->
    size <= Z.of_nat (length buf) ->
    FRAME_SIZE (len (header F)) <= data_len <= size ->
    exists (buf' : list Z) (osz' : option Z) (out' : beam_frame_t),
      fst (beam_serialize_frame (Some F) (Some buf) size osz k)
      = (ESP_OK, Some buf', osz')
      /\ fst (beam_parse_into_frame (Some buf') data_len (Some out) k')
         = (ESP_OK, Some out')
      /\ header out' = header F
      /\ crc out'
         = read_crc (byte_at buf' (FRAME_HEADER_SIZE + len (header F)))
                    (byte_at buf' (FRAME_HEADER_SIZE + len (header F) + 1))
      /\ payload out'
         = firstn (Z.to_nat (stored_size (msg_id (header F)) (len (header F))))
                  (payload F)
           ++ skipn (Z.to_nat (stored_size (msg_id (header F)) (len (header F))))
                    (payload out)
      /\ (stored_size (msg_id (header F)) (len (header F)) = len (header F) ->
          firstn (Z.to_nat (len (header F))) (payload out')
          = firstn (Z.to_nat (len (header F))) (payload F)).
Proof.
  intros F buf size osz out data_len k k' Hwf Hmax Hsize Hbuf Hdata.
  destruct Hwf as (Hm & Hs & HLb & Hplen & Hpay & Hcrc).
  unfold uint8 in *.
  assert (HM : MAX_PAYLOAD_SIZE = 200) by reflexivity.
  assert (HL : 0 <= len (header F) <= Z.of_nat (length (payload F))) by lia.
  assert (Hfs : FRAME_SIZE (len (header F)) = len (header F) + 5) by
    (unfold FRAME_SIZE, FRAME_HEADER_SIZE, FRAME_CRC_SIZE; lia).
  pose proof (encode_length F HL) as Henc.
  rewrite beam_serialize_frame_run by assumption.
  destruct (Z.leb_spec (len (header F)) MAX_PAYLOAD_SIZE) as [_|]; [| lia].
  destruct (Z.leb_spec (FRAME_SIZE (len (header F))) size) as [_|]; [| lia].
  eexists. eexists. eexists.
  split; [reflexivity|].
  rewrite beam_parse_into_frame_run by (unfold BEAM_FRAME_MIN_SIZE; lia).
  rewrite parse_into_frame_encode;
    [| lia | lia | lia | rewrite length_app, length_skipn; lia].
  cbn [fst snd].
  split; [reflexivity|].
  cbn [header payload crc].
  split; [reflexivity|].
  split.
  { rewrite encode_crc_lo, encode_crc_hi by exact HL.
    symmetry. apply read_crc_split, crc_of_range. }
  split; [reflexivity|].
  intros Hst. rewrite Hst.
  apply firstn_app_exact. rewrite length_firstn. lia.
Qed.

Lemma serialize_parse_roundtrip_witness :
  exists (buf' : list Z) (osz' : option Z) (out' : beam_frame_t),
    fst (beam_serialize_frame (Some telemetry13_frame) (Some (repeat 0 20)) 20
           (Some 0) O)
    = (ESP_OK, Some buf', osz')
    /\ fst (beam_parse_into_frame (Some buf') 18 (Some zero_frame) O)
       = (ESP_OK, Some out')
    /\ header out' = header telemetry13_frame
    /\ crc out' = read_crc (byte_at buf' (FRAME_HEADER_SIZE + 13))
                           (byte_at buf' (FRAME_HEADER_SIZE + 13 + 1))
    /\ payload out'
       = firstn (Z.to_nat (stored_size MSG_ID_TELEMETRY 13))
                (payload telemetry13_frame)
         ++ skipn (Z.to_nat (stored_size MSG_ID_TELEMETRY 13)) (payload zero_frame)
    /\ (stored_size MSG_ID_TELEMETRY 13 = 13 ->
        firstn (Z.to_nat 13) (payload out')
        = firstn (Z.to_nat 13) (payload telemetry13_frame)).
Proof.
  apply (serialize_parse_roundtrip telemetry13_frame (repeat 0 20) 20 (Some 0)
           zero_frame 18 O O).
  - exact telemetry13_frame_wf.
  - vm_compute. discriminate.
  - vm_compute. discriminate.
  - vm_compute. discriminate.
  - split; vm_compute; discriminate.
Defined.

(** C1 as it is stated fails: for the Telemetry frame that declares 13
    payload bytes, serialization and parsing both succeed, but the 13th
    payload byte does not come back. *)
Lemma roundtrip_loses_bytes_beyond_typed_size :
  frame_wf telemetry13_frame
  /\ len (header telemetry13_frame) <= MAX_PAYLOAD_SIZE
  /\ roundtrip telemetry13_frame (repeat 0 18) 18 zero_frame
     = (ESP_OK, Some telemetry13_parsed)
  /\ firstn 13 (payload telemetry13_parsed)
     <> firstn 13 (payload telemetry13_frame).
Proof.
  split; [exact telemetry13_frame_wf|].
  split; [vm_compute; discriminate|].
  split; [vm_compute; reflexivity|].
  vm_compute. discriminate.
Qed.

(** ** Valid serialized frames *)

Lemma beam_serialize_frame_ok_inv (F : beam_frame_t) (buf : list Z) (size : Z)
    (osz : option Z) (k : nat) (buf' : list Z) (osz' : option Z) :
  0 <= len (header F) <= Z.of_nat (length (payload F)) ->
  size <= Z.of_nat (length buf) ->
  fst (beam_serialize_frame (Some F) (Some buf) size osz k)
  = (ESP_OK, Some buf', osz') ->
  len (header F) <= MAX_PAYLOAD_SIZE
  /\ FRAME_SIZE (len (header F)) <= size
  /\ buf' = encode F ++ skipn (Z.to_nat (FRAME_SIZE (len (header F)))) buf
  /\ osz' = match osz with
            | Some _ => Some (FRAME_SIZE (len (header F)))
            | None => None
            end.
Proof.
  intros HL Hbuf Hser.
  rewrite beam_serialize_frame_run in Hser by assumption.
  destruct (Z.leb_spec (len (header F)) MAX_PAYLOAD_SIZE) as [Hmax|];
    [| discriminate Hser].
  destruct (Z.leb_spec (FRAME_SIZE (len (header F))) size) as [Hsz|];
    [| discriminate Hser].
  cbn [fst] in Hser. injection Hser as Hb Ho.
  repeat split; auto.
Qed.

Lemma frame_wf_len (F : beam_frame_t) :
  frame_wf F -> 0 <= len (header F) <= Z.of_nat (length (payload F)) \/
                MAX_PAYLOAD_SIZE < len (header F).
Proof.
  intros (_ & _ & HL & Hp & _). unfold uint8 in HL.
  destruct (Z_le_gt_dec (len (header F)) MAX_PAYLOAD_SIZE); [left | right]; lia.
Qed.

Lemma beam_serialize_frame_wf_inv (F : beam_frame_t) (buf : list Z) (size : Z)
    (osz : option Z) (k : nat) (buf' : list Z) (osz' : option Z) :
  frame_wf F ->
  size <= Z.of_nat (length buf) ->
  fst (beam_serialize_frame (Some F) (Some buf) size osz k)
  = (ESP_OK, Some buf', osz') ->
  0 <= len (header F) <= MAX_PAYLOAD_SIZE
  /\ len (header F) <= Z.of_nat (length (payload F))
  /\ FRAME_SIZE (len (header F)) <= size
  /\ buf' = encode F ++ skipn (Z.to_nat (FRAME_SIZE (len (header F)))) buf.
Proof.
  intros Hwf Hbuf Hser.
  destruct (frame_wf_len F Hwf) as [HL | Hover].
  - destruct (beam_serialize_frame_ok_inv _ _ _ _ _ _ _ HL Hbuf Hser)
      as (Hmax & Hsz & Hb & _).
    repeat split; try lia; assumption.
  - exfalso. unfold beam_serialize_frame in Hser.
    destruct (Z.leb_spec (len (header F)) MAX_PAYLOAD_SIZE); [lia|].
    discriminate Hser.
Qed.

(** ** Truncation *)

(** C4: a buffer obtained by cutting a valid serialized frame to fewer than
    [FRAME_SIZE len] bytes is rejected with ESP_ERR_INVALID_SIZE (hence never
    with ESP_ERR_INVALID_CRC), with no CRC update executed and the output
    frame unchanged. *)
Theorem truncated_frame_invalid_size :
  forall (F : beam_frame_t) (buf : list Z) (size : Z) (osz : option Z) (k : nat)
         (buf' : list Z) (osz' : option Z) (n : Z) (out : beam_frame_t) (k' : nat),
    frame_wf F ->
    size <= Z.of_nat (length buf) ->
    fst (beam_serialize_frame (Some F) (Some buf) size osz k)
    = (ESP_OK, Some buf', osz') ->
    0 <= n < FRAME_SIZE (len (header F)) ->
    beam_parse_into_frame (Some (firstn (Z.to_nat n) buf')) n (Some out) k'
    = ((ESP_ERR_INVALID_SIZE, Some out), k').
Proof.
  intros F buf size osz k buf' osz' n out k' Hwf Hbuf Hser Hn.
  destruct (beam_serialize_frame_wf_inv _ _ _ _ _ _ _ Hwf Hbuf Hser)
    as (HL & Hpay & Hsz & ->).
  destruct (Z_lt_le_dec n BEAM_FRAME_MIN_SIZE) as [Hmin|Hmin].
  - apply beam_parse_into_frame_below_min. exact Hmin.
  - rewrite beam_parse_into_frame_run by exact Hmin.
    assert (Hb2 : byte_at (firstn (Z.to_nat n)
                    (encode F ++ skipn (Z.to_nat (FRAME_SIZE (len (header F)))) buf)) 2
                  = len (header F)).
    { rewrite byte_at_firstn by (unfold BEAM_FRAME_MIN_SIZE in Hmin; lia).
      apply encode_byte_2. }
    rewrite parse_into_frame_truncated by (rewrite Hb2; lia).
    reflexivity.
Qed.

Lemma truncated_frame_invalid_size_witness :
  beam_parse_into_frame
    (Some (firstn (Z.to_nat 10)
             (encode telemetry13_frame ++ skipn 18 (repeat 0 18))))
    10 (Some zero_frame) O
  = ((ESP_ERR_INVALID_SIZE, Some zero_frame), O).
Proof.
  apply (truncated_frame_invalid_size telemetry13_frame (repeat 0 18) 18 None O
           (encode telemetry13_frame ++ skipn 18 (repeat 0 18)) None 10
           zero_frame O).
  - exact telemetry13_frame_wf.
  - vm_compute. discriminate.
  - vm_compute. reflexivity.
  - split; vm_compute; [discriminate | reflexivity].
Defined.

(** ** The CRC separates buffers that differ in one byte *)

Lemma lxor_cancel_l (a x y : Z) : Z.lxor a x = Z.lxor a y -> x = y.
Proof.
  intros H.
  rewrite <- (Z.lxor_0_l x), <- (Z.lxor_0_l y), <- (Z.lxor_nilpotent a).
  rewrite !Z.lxor_assoc, H. reflexivity.
Qed.

Lemma lxor_cancel_r (a x y : Z) : Z.lxor x a = Z.lxor y a -> x = y.
Proof. rewrite !(Z.lxor_comm _ a). apply lxor_cancel_l. Qed.

Lemma crc_bit_step_inj (x y : Z) :
  uint16 x -> uint16 y -> crc_bit_step x = crc_bit_step y -> x = y.
Proof.
  intros Hx Hy H.
  rewrite <- (crc_bit_step_inverse x Hx), <- (crc_bit_step_inverse y Hy), H.
  reflexivity.
Qed.

Lemma iter_crc_bit_step_range (n : nat) (x : Z) :
  uint16 x -> uint16 (Nat.iter n crc_bit_step x).
Proof.
  intros Hx. destruct n as [|n]; [exact Hx|].
  cbn [Nat.iter nat_rect]. apply crc_bit_step_range.
Qed.

Lemma iter_crc_bit_step_inj (n : nat) (x y : Z) :
  uint16 x -> uint16 y ->
  Nat.iter n crc_bit_step x = Nat.iter n crc_bit_step y -> x = y.
Proof.
  intros Hx Hy. induction n as [|n IH]; intros H; [exact H|].
  apply IH. apply crc_bit_step_inj; [| | exact H];
    apply iter_crc_bit_step_range; assumption.
Qed.

Lemma crc_update_arg_range (c b : Z) :
  uint16 c -> uint8 b -> uint16 (Z.lxor c (Z.shiftl b 8)).
Proof. intros Hc Hb. apply uint16_lxor; [exact Hc | apply uint8_shiftl8, Hb]. Qed.

Lemma crc_update_inj (c c' b b' : Z) :
  uint16 c -> uint16 c' -> uint8 b -> uint8 b' ->
  crc_update c b = crc_update c' b' ->
  Z.lxor c (Z.shiftl b 8) = Z.lxor c' (Z.shiftl b' 8).
Proof.
  intros Hc Hc' Hb Hb' H. unfold crc_update in H.
  rewrite !to_uint16_id in H by (apply crc_update_arg_range; assumption).
  apply iter_crc_bit_step_inj in H;
    [exact H | apply crc_update_arg_range; assumption ..].
Qed.

Lemma crc_update_inj_byte (c b b' : Z) :
  uint16 c -> uint8 b -> uint8 b' ->
  crc_update c b = crc_update c b' -> b = b'.
Proof.
  intros Hc Hb Hb' H.
  apply crc_update_inj in H; try assumption.
  apply lxor_cancel_l in H.
  rewrite !Z.shiftl_mul_pow2 in H by lia. lia.
Qed.

Lemma crc_update_inj_reg (c c' b : Z) :
  uint16 c -> uint16 c' -> uint8 b ->
  crc_update c b = crc_update c' b -> c = c'.
Proof.
  intros Hc Hc' Hb H.
  apply crc_update_inj in H; try assumption.
  apply lxor_cancel_r in H. exact H.
Qed.

Lemma fold_crc_update_inj (s : list Z) :
  Forall uint8 s ->
  forall c c', uint16 c -> uint16 c' ->
    fold_left crc_update s c = fold_left crc_update s c' -> c = c'.
Proof.
  induction 1 as [|b s Hb Hs IH]; intros c c' Hc Hc' H; [exact H|].
  cbn [fold_left] in H.
  apply IH in H; try apply crc_update_range.
  apply crc_update_inj_reg in H; assumption.
Qed.

(** Two buffers that differ in exactly one byte have different CRCs. *)
Lemma crc_of_one_byte (p s : list Z) (b b' : Z) :
  uint8 b -> uint8 b' -> Forall uint8 s -> b <> b' ->
  crc_of (p ++ b :: s) <> crc_of (p ++ b' :: s).
Proof.
  intros Hb Hb' Hs Hne H. apply Hne.
  unfold crc_of in H. rewrite !fold_left_app in H. cbn [fold_left] in H.
  apply fold_crc_update_inj in H; try assumption; try apply crc_update_range.
  apply crc_update_inj_byte in H; try assumption.
  apply fold_crc_update_range, crc_init_range.
Qed.

(** ** Bit flips *)

Lemma to_uint8_land (z : Z) : to_uint8 z = Z.land z 0xFF.
Proof.
  unfold to_uint8. change 0xFF with (Z.ones 8).
  rewrite Z.land_ones by lia. reflexivity.
Qed.

Lemma to_uint8_range (z : Z) : uint8 (to_uint8 z).
Proof. unfold uint8, to_uint8. apply Z.mod_pos_bound. lia. Qed.

Lemma uint8_lxor (a b : Z) : uint8 a -> uint8 b -> uint8 (Z.lxor a b).
Proof.
  intros Ha Hb.
  assert (Hid : forall z, uint8 z -> to_uint8 z = z)
    by (intros z Hz; apply Z.mod_small; exact Hz).
  rewrite <- (Hid a Ha), <- (Hid b Hb).
  rewrite !to_uint8_land, <- land_lxor_distr_l, <- to_uint8_land.
  apply to_uint8_range.
Qed.

Lemma uint8_pow2 (k : Z) : 0 <= k < 8 -> uint8 (2 ^ k).
Proof.
  intros Hk. unfold uint8. split; [apply Z.pow_nonneg; lia|].
  change 256 with (2 ^ 8). apply Z.pow_lt_mono_r; lia.
Qed.

Lemma flipped_byte_range (b k : Z) :
  uint8 b -> 0 <= k < 8 -> uint8 (Z.lxor b (2 ^ k)).
Proof. intros Hb Hk. apply uint8_lxor; [exact Hb | apply uint8_pow2, Hk]. Qed.

Lemma flipped_byte_differs (b k : Z) : 0 <= k -> Z.lxor b (2 ^ k) <> b.
Proof.
  intros Hk H. rewrite <- (Z.lxor_0_r b) in H at 2.
  apply lxor_cancel_l in H.
  pose proof (Z.pow_pos_nonneg 2 k). lia.
Qed.

Lemma crc_lo_range (c : Z) : uint8 (crc_lo c).
Proof. apply to_uint8_range. Qed.

Lemma crc_hi_range (c : Z) : uint8 (crc_hi c).
Proof. apply to_uint8_range. Qed.

(** ** One store in a buffer *)

Lemma store_nat_split (p : list Z) (i : nat) (v : Z) :
  (i < length p)%nat -> store_nat p i v = firstn i p ++ v :: skipn (S i) p.
Proof.
  revert i. induction p as [|h t IH]; intros i Hi; cbn [length] in Hi; [lia|].
  destruct i as [|i]; [reflexivity|].
  cbn [store_nat firstn skipn app]. f_equal. apply IH. lia.
Qed.

Lemma list_split_nth (p : list Z) (i : nat) :
  (i < length p)%nat -> p = firstn i p ++ nth i p 0 :: skipn (S i) p.
Proof.
  intros Hi. rewrite <- skipn_cons_nth by exact Hi.
  symmetry. apply firstn_skipn.
Qed.

Lemma store_nat_app_l (a b : list Z) (i : nat) (v : Z) :
  (i < length a)%nat -> store_nat (a ++ b) i v = store_nat a i v ++ b.
Proof.
  revert i. induction a as [|h t IH]; intros i Hi; cbn [length] in Hi; [lia|].
  destruct i as [|i]; [reflexivity|].
  cbn [store_nat app]. f_equal. apply IH. lia.
Qed.

Lemma nth_store_nat_neq (p : list Z) (i j : nat) (v : Z) :
  i <> j -> nth j (store_nat p i v) 0 = nth j p 0.
Proof.
  revert i j. induction p as [|h t IH]; intros i j Hne.
  - destruct i; reflexivity.
  - destruct i as [|i], j as [|j]; try reflexivity; try lia.
    cbn [store_nat nth]. apply IH. lia.
Qed.

Lemma Forall_uint8_nth (l : list Z) (i : nat) :
  Forall uint8 l -> (i < length l)%nat -> uint8 (nth i l 0).
Proof.
  intros Hl Hi. rewrite Forall_forall in Hl. apply Hl, nth_In, Hi.
Qed.

Lemma frame_bytes_uint8 (F : beam_frame_t) :
  frame_wf F -> Forall uint8 (frame_bytes F).
Proof.
  intros (Hm & Hs & HL & _ & Hp & _). unfold frame_bytes.
  cbn [app].
  apply Forall_cons; [exact Hm|].
  apply Forall_cons; [exact Hs|].
  apply Forall_cons; [exact HL|].
  apply Forall_uint8_firstn, Hp.
Qed.

(** Flipping one bit of a byte covered by the CRC changes the CRC. *)
Lemma crc_of_flipped (l : list Z) (i : nat) (k : Z) :
  Forall uint8 l -> (i < length l)%nat -> 0 <= k < 8 ->
  crc_of (store_nat l i (Z.lxor (nth i l 0) (2 ^ k))) <> crc_of l.
Proof.
  intros Hl Hi Hk.
  rewrite store_nat_split by exact Hi.
  rewrite (list_split_nth l i Hi) at 4.
  pose proof (Forall_uint8_nth l i Hl Hi) as Hb.
  apply crc_of_one_byte.
  - apply flipped_byte_range; assumption.
  - exact Hb.
  - apply Forall_uint8_skipn, Hl.
  - apply flipped_byte_differs. lia.
Qed.

(** ** Corruption *)

Lemma parse_into_frame_wire_mismatch (fb : list Z) (lo hi : Z) (tail : list Z)
    (data_len : Z) (out : beam_frame_t) (k : nat) (L : Z) :
  Z.of_nat (length fb) = FRAME_HEADER_SIZE + L ->
  byte_at fb 2 = L ->
  0 <= L <= MAX_PAYLOAD_SIZE ->
  FRAME_SIZE L <= data_len ->
  data_len <= Z.of_nat (length (fb ++ lo :: hi :: tail)) ->
  crc_of fb <> read_crc lo hi ->
  parse_into_frame (fb ++ lo :: hi :: tail) data_len out k
  = ((ESP_ERR_INVALID_CRC, out), (k + Z.to_nat (FRAME_HEADER_SIZE + L))%nat).
Proof.
  intros Hfb Hb2 HL Hsize Hlen Hcrc.
  assert (H3 : FRAME_HEADER_SIZE = 3) by reflexivity.
  apply parse_into_frame_rejects; try assumption.
  - rewrite byte_at_app_l by lia. exact Hb2.
  - rewrite firstn_app_exact by lia.
    rewrite !byte_at_app_r by lia.
    replace (FRAME_HEADER_SIZE + L - Z.of_nat (length fb)) with 0 by lia.
    replace (FRAME_HEADER_SIZE + L + 1 - Z.of_nat (length fb)) with 1 by lia.
    exact Hcrc.
Qed.

Lemma frame_bytes_byte_2 (F : beam_frame_t) :
  nth 2 (frame_bytes F) 0 = len (header F).
Proof. reflexivity. Qed.

Lemma read_crc_inj (lo hi lo' hi' : Z) :
  uint8 lo -> uint8 hi -> uint8 lo' -> uint8 hi' ->
  read_crc lo hi = read_crc lo' hi' -> lo = lo' /\ hi = hi'.
Proof.
  intros Hlo Hhi Hlo' Hhi' H.
  destruct (split_read_crc lo hi Hlo Hhi) as [H1 H2].
  destruct (split_read_crc lo' hi' Hlo' Hhi') as [H1' H2'].
  rewrite H in H1, H2. split; congruence.
Qed.

(** C5, as the code has it: in a buffer that holds a valid serialized frame,
    flipping one bit of the message identifier, of the sequence number, of a
    payload byte or of a CRC byte (any byte of the frame but the length byte
    at offset 2) makes [beam_parse_into_frame] return ESP_ERR_INVALID_CRC
    and leave the output frame unchanged. *)
Theorem single_bit_flip_invalid_crc :
  forall (F : beam_frame_t) (buf : list Z) (size : Z) (osz : option Z) (k : nat)
         (buf' : list Z) (osz' : option Z) (data_len i bit : Z)
         (out : beam_frame_t) (k' : nat),
    frame_wf F ->
    size <= Z.of_nat (length buf) ->
    fst (beam_serialize_frame (Some F) (Some buf) size osz k)
    = (ESP_OK, Some buf', osz') ->
    FRAME_SIZE (len (header F)) <= data_len <= size ->
    0 <= i < FRAME_SIZE (len (header F)) ->
    i <> 2 ->
    0 <= bit < 8 ->
    fst (beam_parse_into_frame (Some (flip_bit buf' i bit)) data_len (Some out) k')
    = (ESP_ERR_INVALID_CRC, Some out).
Proof.
  intros F buf size osz k buf' osz' data_len i bit out k'
         Hwf Hbuf Hser Hdata Hi Hi2 Hbit.
  destruct (beam_serialize_frame_wf_inv _ _ _ _ _ _ _ Hwf Hbuf Hser)
    as (HL & Hpay & Hsz & ->).
  assert (HL' : 0 <= len (header F) <= Z.of_nat (length (payload F))) by lia.
  pose proof (frame_bytes_length F HL') as Hfb.
  pose proof (frame_bytes_uint8 F Hwf) as Hbytes.
  assert (H3 : FRAME_HEADER_SIZE = 3) by reflexivity.
  assert (Hfs : FRAME_SIZE (len (header F)) = len (header F) + 5) by
    (unfold FRAME_SIZE, FRAME_HEADER_SIZE, FRAME_CRC_SIZE; lia).
  set (tail := skipn (Z.to_nat (FRAME_SIZE (len (header F)))) buf).
  assert (Htail : Z.of_nat (length tail)
                  = Z.of_nat (length buf) - FRAME_SIZE (len (header F)))
    by (subst tail; rewrite length_skipn; lia).
  rewrite beam_parse_into_frame_run by (unfold BEAM_FRAME_MIN_SIZE; lia).
  rewrite encode_app_split.
  set (c := crc_of (frame_bytes F)).
  pose proof (read_crc_split c (crc_of_range _)) as Hc.
  unfold flip_bit, store, byte_at.
  destruct (Z_lt_le_dec i (FRAME_HEADER_SIZE + len (header F))) as [Hin|Hout].
  - (* a byte covered by the CRC *)
    rewrite app_nth1 by lia.
    rewrite store_nat_app_l by lia.
    rewrite (parse_into_frame_wire_mismatch _ _ _ _ _ _ _ (len (header F)));
      try assumption; try lia.
    + reflexivity.
    + rewrite store_nat_length. exact Hfb.
    + unfold byte_at. change (Z.to_nat 2) with 2%nat.
      rewrite nth_store_nat_neq by lia. apply frame_bytes_byte_2.
    + rewrite length_app, store_nat_length. cbn [length]. lia.
    + fold c in Hc. rewrite Hc. apply crc_of_flipped; [exact Hbytes | lia | exact Hbit].
  - (* one of the two CRC bytes *)
    replace (Z.to_nat i)
      with (length (frame_bytes F) + Z.to_nat (i - Z.of_nat (length (frame_bytes F))))%nat
      by lia.
    rewrite app_nth2_plus, store_nat_app.
    assert (Hcases : Z.to_nat (i - Z.of_nat (length (frame_bytes F))) = 0%nat
                     \/ Z.to_nat (i - Z.of_nat (length (frame_bytes F))) = 1%nat)
      by lia.
    destruct Hcases as [-> | ->]; cbn [nth store_nat].
    + rewrite (parse_into_frame_wire_mismatch _ _ _ _ _ _ _ (len (header F)));
        try assumption; try lia.
      * reflexivity.
      * apply frame_bytes_byte_2.
      * rewrite length_app. cbn [length]. lia.
      * fold c. intros Heq0. pose proof (eq_trans Hc Heq0) as Heq.
        apply read_crc_inj in Heq;
          [| apply crc_lo_range | apply crc_hi_range
           | apply flipped_byte_range; [apply crc_lo_range | exact Hbit]
           | apply crc_hi_range].
        destruct Heq as [Heq _]. symmetry in Heq.
        apply flipped_byte_differs in Heq; [exact Heq | lia].
    + rewrite (parse_into_frame_wire_mismatch _ _ _ _ _ _ _ (len (header F)));
        try assumption; try lia.
      * reflexivity.
      * apply frame_bytes_byte_2.
      * rewrite length_app. cbn [length]. lia.
      * fold c. intros Heq0. pose proof (eq_trans Hc Heq0) as Heq.
        apply read_crc_inj in Heq;
          [| apply crc_lo_range | apply crc_hi_range
           | apply crc_lo_range
           | apply flipped_byte_range; [apply crc_hi_range | exact Hbit]].
        destruct Heq as [_ Heq]. symmetry in Heq.
        apply flipped_byte_differs in Heq; [exact Heq | lia].
Qed.

Lemma single_bit_flip_invalid_crc_witness :
  fst (beam_parse_into_frame
         (Some (flip_bit (encode telemetry13_frame ++ skipn 18 (repeat 0 18)) 7 3))
         18 (Some zero_frame) O)
  = (ESP_ERR_INVALID_CRC, Some zero_frame).
Proof.
  apply (single_bit_flip_invalid_crc telemetry13_frame (repeat 0 18) 18 None O
           (encode telemetry13_frame ++ skipn 18 (repeat 0 18)) None 18 7 3
           zero_frame O).
  - exact telemetry13_frame_wf.
  - vm_compute. discriminate.
  - vm_compute. reflexivity.
  - split; vm_compute; discriminate.
  - split; vm_compute; [discriminate | reflexivity].
  - discriminate.
  - split; vm_compute; [discriminate | reflexivity].
Defined.

Lemma empty_frame_wf : frame_wf empty_frame.
Proof.
  unfold frame_wf, uint8, uint16. cbn [empty_frame header payload crc
    msg_id seq len]. unfold MAX_PAYLOAD_SIZE.
  repeat split; try lia; try reflexivity.
  apply Forall_is_uint8. vm_compute. reflexivity.
Qed.

(** C5 as it is stated fails: flipping the lowest bit of the length byte of
    the valid 5-byte frame without payload makes it declare one payload
    byte, and the parser returns ESP_ERR_INVALID_SIZE, not
    ESP_ERR_INVALID_CRC; the same holds for each of the eight bits of the
    length byte. *)
Lemma length_bit_flip_invalid_size :
  frame_wf empty_frame
  /\ fst (beam_serialize_frame (Some empty_frame) (Some (repeat 0 5)) 5 None O)
     = (ESP_OK, Some empty_frame_wire, None)
  /\ fst (beam_parse_into_frame (Some (flip_bit empty_frame_wire 2 0)) 5
            (Some zero_frame) O)
     = (ESP_ERR_INVALID_SIZE, Some zero_frame)
  /\ fst (fst (beam_parse_into_frame (Some (flip_bit empty_frame_wire 2 0)) 5
                 (Some zero_frame) O))
     <> ESP_ERR_INVALID_CRC
  /\ Forall
       (fun bit =>
          fst (beam_parse_into_frame (Some (flip_bit empty_frame_wire 2 bit)) 5
                 (Some zero_frame) O)
          = (ESP_ERR_INVALID_SIZE, Some zero_frame))
       [0; 1; 2; 3; 4; 5; 6; 7].
Proof.
  split; [exact empty_frame_wf|].
  split; [vm_compute; reflexivity|].
  split; [vm_compute; reflexivity|].
  split; [vm_compute; discriminate|].
  repeat (apply Forall_cons; [vm_compute; reflexivity|]).
  apply Forall_nil.
Qed.

(** ** The boundary of the payload length *)

(** C6: a buffer that declares [MAX_PAYLOAD_SIZE] payload bytes, is long
    enough and carries the matching CRC is accepted; a frame with
    [len = MAX_PAYLOAD_SIZE] is serialized when the buffer has room for it;
    a buffer that declares [MAX_PAYLOAD_SIZE + 1] payload bytes is rejected
    with ESP_ERR_INVALID_SIZE, the output frame and the count of CRC byte
    updates unchanged: no CRC computation takes place. *)
Theorem max_payload_boundary :
  (forall (data : list Z) (data_len : Z) (out : beam_frame_t) (k : nat),
      byte_at data 2 = MAX_PAYLOAD_SIZE ->
      FRAME_SIZE MAX_PAYLOAD_SIZE <= data_len ->
      data_len <= Z.of_nat (length data) ->
      crc_of (firstn (Z.to_nat (FRAME_HEADER_SIZE + MAX_PAYLOAD_SIZE)) data)
      = read_crc (byte_at data (FRAME_HEADER_SIZE + MAX_PAYLOAD_SIZE))
                 (byte_at data (FRAME_HEADER_SIZE + MAX_PAYLOAD_SIZE + 1)) ->
      fst (beam_parse_into_frame (Some data) data_len (Some out) k)
      = (ESP_OK, Some (parsed_frame data out)))
  /\
  (forall (F : beam_frame_t) (buf : list Z) (size : Z) (osz : option Z) (k : nat),
      frame_wf F ->
      len (header F) = MAX_PAYLOAD_SIZE ->
      FRAME_SIZE MAX_PAYLOAD_SIZE <= size ->
      size <= Z.of_nat (length buf) ->
      fst (beam_serialize_frame (Some F) (Some buf) size osz k)
      = (ESP_OK,
         Some (encode F ++ skipn (Z.to_nat (FRAME_SIZE MAX_PAYLOAD_SIZE)) buf),
         match osz with
         | Some _ => Some (FRAME_SIZE MAX_PAYLOAD_SIZE)
         | None => None
         end))
  /\
  (forall (data : list Z) (data_len : Z) (out : beam_frame_t) (k : nat),
      byte_at data 2 = MAX_PAYLOAD_SIZE + 1 ->
      beam_parse_into_frame (Some data) data_len (Some out) k
      = ((ESP_ERR_INVALID_SIZE, Some out), k)
      /\ crc_updates (beam_parse_into_frame (Some data) data_len (Some out))
         = O).
Proof.
  assert (HM : MAX_PAYLOAD_SIZE = 200) by reflexivity.
  assert (Hfs : FRAME_SIZE MAX_PAYLOAD_SIZE = 205) by reflexivity.
  split; [| split].
  - intros data data_len out k Hb2 Hsize Hlen Hcrc.
    rewrite beam_parse_into_frame_run by (unfold BEAM_FRAME_MIN_SIZE; lia).
    rewrite parse_into_frame_checked by (rewrite ?Hb2; lia).
    rewrite Hb2, Hcrc, Z.eqb_refl. cbn [fst snd].
    reflexivity.
  - intros F buf size osz k Hwf HL Hsize Hbuf.
    destruct Hwf as (_ & _ & _ & Hp & _).
    rewrite beam_serialize_frame_run by lia.
    rewrite HL.
    destruct (Z.leb_spec MAX_PAYLOAD_SIZE MAX_PAYLOAD_SIZE); [| lia].
    destruct (Z.leb_spec (FRAME_SIZE MAX_PAYLOAD_SIZE) size); [| lia].
    reflexivity.
  - intros data data_len out k Hb2. unfold crc_updates.
    destruct (Z_lt_le_dec data_len BEAM_FRAME_MIN_SIZE) as [Hmin|Hmin].
    + rewrite !beam_parse_into_frame_below_min by exact Hmin.
      split; reflexivity.
    + rewrite !beam_parse_into_frame_run by exact Hmin.
      rewrite !parse_into_frame_len_over by lia.
      split; reflexivity.
Qed.

Lemma full_frame_wf : frame_wf full_frame.
Proof.
  unfold frame_wf, uint8, uint16. cbn [full_frame header payload crc
    msg_id seq len]. unfold MAX_PAYLOAD_SIZE.
  repeat split; try lia; try reflexivity.
  apply Forall_is_uint8. vm_compute. reflexivity.
Qed.

Lemma max_payload_boundary_witness :
  fst (beam_parse_into_frame (Some (encode full_frame)) 205 (Some zero_frame) O)
  = (ESP_OK, Some (parsed_frame (encode full_frame) zero_frame))
  /\ fst (beam_serialize_frame (Some full_frame) (Some (repeat 0 205)) 205
            (Some 0) O)
     = (ESP_OK,
        Some (encode full_frame
              ++ skipn (Z.to_nat (FRAME_SIZE MAX_PAYLOAD_SIZE)) (repeat 0 205)),
        Some (FRAME_SIZE MAX_PAYLOAD_SIZE))
  /\ beam_parse_into_frame (Some [9; 1; 201; 0; 0]) 5 (Some zero_frame) O
     = ((ESP_ERR_INVALID_SIZE, Some zero_frame), O)
  /\ crc_updates (beam_parse_into_frame (Some [9; 1; 201; 0; 0]) 5
                    (Some zero_frame))
     = O.
Proof.
  split; [| split].
  - apply (proj1 max_payload_boundary (encode full_frame) 205 zero_frame O).
    + vm_compute. reflexivity.
    + vm_compute. discriminate.
    + vm_compute. discriminate.
    + vm_compute. reflexivity.
  - apply (proj1 (proj2 max_payload_boundary) full_frame (repeat 0 205) 205
             (Some 0) O).
    + exact full_frame_wf.
    + reflexivity.
    + vm_compute. discriminate.
    + vm_compute. discriminate.
  - apply (proj2 (proj2 max_payload_boundary) [9; 1; 201; 0; 0] 5 zero_frame O).
    reflexivity.
Defined.

(** ** No partial mutation *)

Lemma parse_into_frame_atomic (d : list Z) (data_len : Z) (out : beam_frame_t)
    (k : nat) :
  fst (fst (parse_into_frame d data_len out k)) <> ESP_OK ->
  snd (fst (parse_into_frame d data_len out k)) = out.
Proof.
  unfold parse_into_frame.
  destruct (FRAME_HEADER_SIZE <=? data_len); [| reflexivity].
  destruct (byte_at d 2 <=? MAX_PAYLOAD_SIZE); [| reflexivity].
  destruct (FRAME_SIZE (byte_at d 2) <=? data_len); [| reflexivity].
  rewrite bind_run.
  destruct (_ =? _); [| reflexivity].
  intros H. exfalso. apply H. reflexivity.
Qed.

(** C7: whenever [beam_parse_into_frame] returns an error, the output frame
    is what it was before the call.  The errors are: ESP_ERR_INVALID_ARG for
    a NULL argument; ESP_ERR_INVALID_SIZE for a buffer below
    [BEAM_FRAME_MIN_SIZE], for a declared length above [MAX_PAYLOAD_SIZE]
    and for a buffer shorter than header, declared payload and CRC;
    ESP_ERR_INVALID_CRC for a CRC mismatch.  Otherwise it returns ESP_OK and
    writes the three header fields from the bytes 0 to 2, the received CRC,
    and the first [n] payload bytes of the buffer into the payload, where
    [n = stored_size msg_id len] is 12 for Telemetry with [len >= 12], 5
    for Battery with [len >= 5] and [len] otherwise; the payload bytes from
    offset [n] on keep their previous content, and the payload storage
    keeps its size.  All the declared payload bytes are in the output
    whenever [n = len]. *)
Theorem parse_all_or_nothing :
  forall (data : option (list Z)) (data_len : Z)
         (out_frame : option beam_frame_t) (k : nat),
    (fst (fst (beam_parse_into_frame data data_len out_frame k)) <> ESP_OK ->
     snd (fst (beam_parse_into_frame data data_len out_frame k)) = out_frame)
    /\
    (data = None \/ out_frame = None ->
     fst (beam_parse_into_frame data data_len out_frame k)
     = (ESP_ERR_INVALID_ARG, out_frame))
    /\
    (forall (d : list Z) (out : beam_frame_t),
        data = Some d -> out_frame = Some out ->
        0 <= byte_at d 2 ->
        data_len <= Z.of_nat (length d) ->
        (data_len < BEAM_FRAME_MIN_SIZE ->
         fst (beam_parse_into_frame data data_len out_frame k)
         = (ESP_ERR_INVALID_SIZE, out_frame))
        /\
        (MAX_PAYLOAD_SIZE < byte_at d 2 ->
         fst (beam_parse_into_frame data data_len out_frame k)
         = (ESP_ERR_INVALID_SIZE, out_frame))
        /\
        (data_len < FRAME_SIZE (byte_at d 2) ->
         fst (beam_parse_into_frame data data_len out_frame k)
         = (ESP_ERR_INVALID_SIZE, out_frame))
        /\
        (byte_at d 2 <= MAX_PAYLOAD_SIZE ->
         FRAME_SIZE (byte_at d 2) <= data_len ->
         crc_of (firstn (Z.to_nat (FRAME_HEADER_SIZE + byte_at d 2)) d)
         <> read_crc (byte_at d (FRAME_HEADER_SIZE + byte_at d 2))
                     (byte_at d (FRAME_HEADER_SIZE + byte_at d 2 + 1)) ->
         fst (beam_parse_into_frame data data_len out_frame k)
         = (ESP_ERR_INVALID_CRC, out_frame))
        /\
        (byte_at d 2 <= MAX_PAYLOAD_SIZE ->
         FRAME_SIZE (byte_at d 2) <= data_len ->
         crc_of (firstn (Z.to_nat (FRAME_HEADER_SIZE + byte_at d 2)) d)
         = read_crc (byte_at d (FRAME_HEADER_SIZE + byte_at d 2))
                    (byte_at d (FRAME_HEADER_SIZE + byte_at d 2 + 1)) ->
         exists out' : beam_frame_t,
           fst (beam_parse_into_frame data data_len out_frame k)
           = (ESP_OK, Some out')
           /\ header out' = mk_header (byte_at d 0) (byte_at d 1) (byte_at d 2)
           /\ crc out'
              = read_crc (byte_at d (FRAME_HEADER_SIZE + byte_at d 2))
                         (byte_at d (FRAME_HEADER_SIZE + byte_at d 2 + 1))
           /\ payload out'
              = firstn (Z.to_nat (stored_size (byte_at d 0) (byte_at d 2)))
                       (skipn (Z.to_nat FRAME_HEADER_SIZE) d)
                ++ skipn (Z.to_nat (stored_size (byte_at d 0) (byte_at d 2)))
                         (payload out)
           /\ (forall i : Z,
                  0 <= i < stored_size (byte_at d 0) (byte_at d 2) ->
                  byte_at (payload out') i = byte_at d (FRAME_HEADER_SIZE + i))
           /\ (forall i : Z,
                  stored_size (byte_at d 0) (byte_at d 2) <= i ->
                  byte_at (payload out') i = byte_at (payload out) i)
           /\ (Z.of_nat (length (payload out)) = MAX_PAYLOAD_SIZE ->
               Z.of_nat (length (payload out')) = MAX_PAYLOAD_SIZE)
           /\ (stored_size (byte_at d 0) (byte_at d 2) = byte_at d 2 ->
               firstn (Z.to_nat (byte_at d 2)) (payload out')
               = firstn (Z.to_nat (byte_at d 2))
                        (skipn (Z.to_nat FRAME_HEADER_SIZE) d)))).
Proof.
  intros data data_len out_frame k.
  assert (Hfs : forall L, FRAME_SIZE L = L + 5) by
    (intros L; unfold FRAME_SIZE, FRAME_HEADER_SIZE, FRAME_CRC_SIZE; lia).
  assert (Hmin5 : BEAM_FRAME_MIN_SIZE = 5) by reflexivity.
  assert (H3 : FRAME_HEADER_SIZE = 3) by reflexivity.
  split; [| split].
  - destruct data as [d|]; [| intros _; reflexivity].
    destruct out_frame as [out|]; [| intros _; reflexivity].
    destruct (Z_lt_le_dec data_len BEAM_FRAME_MIN_SIZE) as [Hmin|Hmin].
    + rewrite beam_parse_into_frame_below_min by exact Hmin.
      intros _. reflexivity.
    + rewrite beam_parse_into_frame_run by exact Hmin.
      cbn [fst snd]. intros H. f_equal.
      apply parse_into_frame_atomic. exact H.
  - intros [-> | ->]; [reflexivity|].
    destruct data; reflexivity.
  - intros d out -> -> Hb2 Hlen.
    split; [| split; [| split; [| split]]].
    + intros Hmin. rewrite beam_parse_into_frame_below_min by exact Hmin.
      reflexivity.
    + intros Hover.
      destruct (Z_lt_le_dec data_len BEAM_FRAME_MIN_SIZE) as [Hmin|Hmin].
      * rewrite beam_parse_into_frame_below_min by exact Hmin. reflexivity.
      * rewrite beam_parse_into_frame_run by exact Hmin.
        rewrite parse_into_frame_len_over by exact Hover. reflexivity.
    + intros Hshort.
      destruct (Z_lt_le_dec data_len BEAM_FRAME_MIN_SIZE) as [Hmin|Hmin].
      * rewrite beam_parse_into_frame_below_min by exact Hmin. reflexivity.
      * rewrite beam_parse_into_frame_run by exact Hmin.
        rewrite parse_into_frame_truncated by exact Hshort. reflexivity.
    + intros Hmax Hsize Hcrc.
      rewrite beam_parse_into_frame_run by (rewrite Hfs in Hsize; lia).
      rewrite (parse_into_frame_rejects _ _ _ _ (byte_at d 2));
        try assumption; try lia; reflexivity.
    + intros Hmax Hsize Hcrc.
      rewrite beam_parse_into_frame_run by (rewrite Hfs in Hsize; lia).
      rewrite parse_into_frame_checked by (try assumption; lia).
      rewrite Hcrc, Z.eqb_refl. cbn [fst snd].
      exists (parsed_frame d out).
      pose proof (stored_size_bounds (byte_at d 0) (byte_at d 2) Hb2) as Hs.
      set (n := stored_size (byte_at d 0) (byte_at d 2)) in *.
      set (src := skipn (Z.to_nat FRAME_HEADER_SIZE) d).
      assert (Hsrc : Z.of_nat (length src) = Z.of_nat (length d) - 3).
      { subst src. rewrite length_skipn. rewrite Hfs in Hsize. lia. }
      assert (Hpl : payload (parsed_frame d out)
                    = firstn (Z.to_nat n) src ++ skipn (Z.to_nat n) (payload out)).
      { unfold parsed_frame. cbn [payload].
        rewrite fill_payload_stored_size, memcpy_0. reflexivity. }
      assert (Hfl : length (firstn (Z.to_nat n) src) = Z.to_nat n).
      { rewrite length_firstn. rewrite Hfs in Hsize. lia. }
      split; [reflexivity|].
      split; [reflexivity|].
      split; [reflexivity|].
      split; [| split; [| split; [| split]]].
      * exact Hpl.
      * intros i Hi. rewrite Hpl. unfold byte_at.
        rewrite app_nth1 by lia.
        rewrite nth_firstn.
        destruct (Nat.ltb_spec (Z.to_nat i) (Z.to_nat n)); [| lia].
        subst src. rewrite nth_skipn. f_equal. lia.
      * intros i Hi. rewrite Hpl. unfold byte_at.
        rewrite app_nth2 by lia.
        rewrite Hfl, nth_skipn. f_equal. lia.
      * intros Hout. rewrite Hpl, length_app, length_skipn.
        unfold MAX_PAYLOAD_SIZE in *. lia.
      * intros Hall. rewrite Hpl. fold n in Hall. rewrite Hall.
        rewrite firstn_app_le by (rewrite length_firstn; rewrite Hfs in Hsize; lia).
        apply firstn_firstn_le. lia.
Qed.

Lemma parse_all_or_nothing_witness :
  snd (fst (beam_parse_into_frame
              (Some (flip_bit (encode telemetry13_frame) 4 0)) 18
              (Some zero_frame) O))
  = Some zero_frame
  /\ fst (beam_parse_into_frame None 18 (Some zero_frame) O)
     = (ESP_ERR_INVALID_ARG, Some zero_frame)
  /\ fst (beam_parse_into_frame (Some [9; 1; 201; 0; 0]) 5 (Some zero_frame) O)
     = (ESP_ERR_INVALID_SIZE, Some zero_frame)
  /\ exists out' : beam_frame_t,
       fst (beam_parse_into_frame (Some battery6_wire) 11 (Some stale_frame) O)
       = (ESP_OK, Some out')
       /\ header out' = mk_header MSG_ID_BATTERY 3 6
       /\ payload out' = [1; 2; 3; 4; 5] ++ repeat 238 195.
Proof.
  split; [| split; [| split]].
  - apply (proj1 (parse_all_or_nothing
                    (Some (flip_bit (encode telemetry13_frame) 4 0)) 18
                    (Some zero_frame) O)).
    vm_compute. discriminate.
  - apply (proj1 (proj2 (parse_all_or_nothing None 18 (Some zero_frame) O))).
    left. reflexivity.
  - assert (Hb : 0 <= byte_at [9; 1; 201; 0; 0] 2) by (vm_compute; discriminate).
    assert (Hl : 5 <= Z.of_nat (length [9; 1; 201; 0; 0]))
      by (vm_compute; discriminate).
    assert (Ho : MAX_PAYLOAD_SIZE < byte_at [9; 1; 201; 0; 0] 2)
      by (vm_compute; reflexivity).
    exact (proj1 (proj2 (proj2 (proj2 (parse_all_or_nothing
             (Some [9; 1; 201; 0; 0]) 5 (Some zero_frame) O))
             [9; 1; 201; 0; 0] zero_frame eq_refl eq_refl Hb Hl)) Ho).
  - assert (Hb : 0 <= byte_at battery6_wire 2) by (vm_compute; discriminate).
    assert (Hl : 11 <= Z.of_nat (length battery6_wire))
      by (vm_compute; discriminate).
    assert (Hm : byte_at battery6_wire 2 <= MAX_PAYLOAD_SIZE)
      by (vm_compute; discriminate).
    assert (Hs : FRAME_SIZE (byte_at battery6_wire 2) <= 11)
      by (vm_compute; discriminate).
    assert (Hc : crc_of (firstn (Z.to_nat (FRAME_HEADER_SIZE
                                           + byte_at battery6_wire 2))
                           battery6_wire)
                 = read_crc
                     (byte_at battery6_wire
                        (FRAME_HEADER_SIZE + byte_at battery6_wire 2))
                     (byte_at battery6_wire
                        (FRAME_HEADER_SIZE + byte_at battery6_wire 2 + 1)))
      by (vm_compute; reflexivity).
    destruct (proj2 (proj2 (proj2 (proj2 (proj2 (proj2 (parse_all_or_nothing
                (Some battery6_wire) 11 (Some stale_frame) O))
                battery6_wire stale_frame eq_refl eq_refl Hb Hl)))) Hm Hs Hc)
      as (out' & Hok & Hh & _ & Hp & _).
    exists out'.
    split; [exact Hok|].
    split; [exact Hh|].
    rewrite Hp. vm_compute. reflexivity.
Defined.

(** C7 as it is stated fails in its last part: parsing the wire form of the
    Battery frame that declares 6 payload bytes succeeds, yet the payload
    of the output is not fully populated by it: the sixth declared byte is
    not stored, and the output keeps the byte it held before the call. *)
Lemma parse_success_keeps_stale_payload_byte :
  fst (beam_serialize_frame (Some battery6_frame) (Some (repeat 0 11)) 11 None O)
  = (ESP_OK, Some battery6_wire, None)
  /\ fst (beam_parse_into_frame (Some battery6_wire) 11 (Some stale_frame) O)
     = (ESP_OK, Some battery6_parsed)
  /\ len (header battery6_parsed) = 6
  /\ byte_at battery6_wire (FRAME_HEADER_SIZE + 5) = 6
  /\ byte_at (payload stale_frame) 5 = 238
  /\ byte_at (payload battery6_parsed) 5 = 238
  /\ firstn 6 (payload battery6_parsed)
     <> firstn 6 (skipn (Z.to_nat FRAME_HEADER_SIZE) battery6_wire).
Proof.
  split; [vm_compute; reflexivity|].
  split; [vm_compute; reflexivity|].
  split; [reflexivity|].
  split; [vm_compute; reflexivity|].
  split; [vm_compute; reflexivity|].
  split; [vm_compute; reflexivity|].
  vm_compute. discriminate.
Qed.

(** ** The layout written by the serializer *)

Lemma crc_lo_mod (c : Z) : crc_lo c = c mod 256.
Proof.
  unfold crc_lo, to_uint8. change 0xFF with (Z.ones 8).
  rewrite Z.land_ones by lia. change (2 ^ 8) with 256.
  apply Z.mod_mod. lia.
Qed.

Lemma crc_hi_div (c : Z) : uint16 c -> crc_hi c = c / 256.
Proof.
  intros Hc. unfold crc_hi, to_uint8. change 0xFF with (Z.ones 8).
  rewrite Z.land_ones, Z.shiftr_div_pow2 by lia. change (2 ^ 8) with 256.
  rewrite Z.mod_mod by lia. apply Z.mod_small.
  unfold uint16 in Hc. split.
  - apply Z.div_pos; lia.
  - apply Z.div_lt_upper_bound; lia.
Qed.

(** C8: when [beam_serialize_frame] succeeds on a frame with [len = L], the
    buffer holds msg_id, seq and len at the offsets 0, 1 and 2, the first [L]
    payload bytes from offset 3, and the CRC-16/CCITT of these [3 + L] bytes
    at the offsets [3 + L] (low byte) and [4 + L] (high byte); the size
    reported through a non-NULL [out_size] is [FRAME_SIZE L = 3 + L + 2];
    this size is within [buffer_size], the bytes from offset [FRAME_SIZE L]
    on are unchanged and the buffer keeps its length: nothing is written
    outside [out_buffer]. *)
Theorem serialize_frame_layout :
  forall (F : beam_frame_t) (buf : list Z) (size : Z) (osz : option Z) (k : nat)
         (buf' : list Z) (osz' : option Z) (k' : nat),
    frame_wf F ->
    size <= Z.of_nat (length buf) ->
    beam_serialize_frame (Some F) (Some buf) size osz k
    = ((ESP_OK, Some buf', osz'), k') ->
    let L := len (header F) in
    let c := crc16_ccitt (firstn (Z.to_nat (FRAME_HEADER_SIZE + L)) buf') in
    byte_at buf' 0 = msg_id (header F)
    /\ byte_at buf' 1 = seq (header F)
    /\ byte_at buf' 2 = L
    /\ firstn (Z.to_nat L) (skipn (Z.to_nat FRAME_HEADER_SIZE) buf')
       = firstn (Z.to_nat L) (payload F)
    /\ byte_at buf' (FRAME_HEADER_SIZE + L) = c mod 256
    /\ byte_at buf' (FRAME_HEADER_SIZE + L + 1) = c / 256
    /\ osz' = match osz with
              | Some _ => Some (FRAME_SIZE L)
              | None => None
              end
    /\ FRAME_SIZE L <= size
    /\ length buf' = length buf
    /\ skipn (Z.to_nat (FRAME_SIZE L)) buf' = skipn (Z.to_nat (FRAME_SIZE L)) buf.
Proof.
  intros F buf size osz k buf' osz' k' Hwf Hbuf Hser L c.
  assert (Hser' : fst (beam_serialize_frame (Some F) (Some buf) size osz k)
                  = (ESP_OK, Some buf', osz')) by (rewrite Hser; reflexivity).
  destruct (beam_serialize_frame_wf_inv _ _ _ _ _ _ _ Hwf Hbuf Hser')
    as (HL & Hpay & Hsz & Hb).
  assert (HL' : 0 <= len (header F) <= Z.of_nat (length (payload F))) by lia.
  destruct (beam_serialize_frame_ok_inv _ _ _ _ _ _ _ HL' Hbuf Hser')
    as (_ & _ & _ & Ho).
  pose proof (encode_length F HL') as Henc.
  assert (Hfs : FRAME_SIZE (len (header F)) = len (header F) + 5) by
    (unfold FRAME_SIZE, FRAME_HEADER_SIZE, FRAME_CRC_SIZE; lia).
  assert (Hc : c = crc_of (frame_bytes F)).
  { subst c L. rewrite Hb, encode_covered by exact HL'.
    symmetry. apply crc_of_ref, frame_bytes_uint8, Hwf. }
  clearbody c. subst L buf'.
  split; [apply encode_byte_0|].
  split; [apply encode_byte_1|].
  split; [apply encode_byte_2|].
  split; [apply encode_payload_src; [exact HL' | lia]|].
  split; [rewrite encode_crc_lo, Hc by exact HL'; apply crc_lo_mod|].
  split; [rewrite encode_crc_hi, Hc by exact HL';
          apply crc_hi_div, crc_of_range|].
  split; [exact Ho|].
  split; [exact Hsz|].
  split.
  - apply Nat2Z.inj. rewrite length_app, Nat2Z.inj_add, Henc, length_skipn. lia.
  - apply skipn_app_exact. lia.
Qed.

Lemma serialize_frame_layout_witness :
  byte_at telemetry13_buffer 0 = 0
  /\ byte_at telemetry13_buffer 1 = 7
  /\ byte_at telemetry13_buffer 2 = 13
  /\ firstn (Z.to_nat 13) (skipn (Z.to_nat FRAME_HEADER_SIZE) telemetry13_buffer)
     = firstn (Z.to_nat 13) (payload telemetry13_frame)
  /\ byte_at telemetry13_buffer (FRAME_HEADER_SIZE + 13)
     = crc16_ccitt (firstn (Z.to_nat (FRAME_HEADER_SIZE + 13)) telemetry13_buffer)
       mod 256
  /\ byte_at telemetry13_buffer (FRAME_HEADER_SIZE + 13 + 1)
     = crc16_ccitt (firstn (Z.to_nat (FRAME_HEADER_SIZE + 13)) telemetry13_buffer)
       / 256
  /\ Some 18 = Some (FRAME_SIZE 13)
  /\ FRAME_SIZE 13 <= 19
  /\ length telemetry13_buffer = length (repeat 7 20)
  /\ skipn (Z.to_nat (FRAME_SIZE 13)) telemetry13_buffer
     = skipn (Z.to_nat (FRAME_SIZE 13)) (repeat 7 20).
Proof.
  apply (serialize_frame_layout telemetry13_frame (repeat 7 20) 19 (Some 0) O
           telemetry13_buffer (Some 18) 16%nat).
  - exact telemetry13_frame_wf.
  - vm_compute. discriminate.
  - vm_compute. reflexivity.
Defined.

(** ** Trailing bytes *)

Lemma byte_at_uint8 (l : list Z) (i : Z) : Forall uint8 l -> uint8 (byte_at l i).
Proof.
  intros Hl. unfold byte_at.
  destruct (Nat.lt_ge_cases (Z.to_nat i) (length l)) as [Hlt|Hge].
  - apply Forall_uint8_nth; assumption.
  - rewrite nth_overflow by exact Hge. unfold uint8. lia.
Qed.

Lemma fill_payload_prefix (m : Z) (src : list Z) (L : Z) (p : beam_payload_t)
    (n : nat) :
  0 <= L -> (Z.to_nat L <= n)%nat ->
  fill_payload m (firstn n src) L p = fill_payload m src L p.
Proof.
  intros HL Hn.
  pose proof (stored_size_bounds m L HL) as Hs.
  rewrite !fill_payload_stored_size, !memcpy_0.
  rewrite firstn_firstn_le by lia. reflexivity.
Qed.

Lemma parse_into_frame_prefix (data : list Z) (data_len : Z)
    (out : beam_frame_t) (k : nat) :
  0 <= byte_at data 2 ->
  FRAME_SIZE (byte_at data 2) <= data_len ->
  data_len <= Z.of_nat (length data) ->
  parse_into_frame (firstn (Z.to_nat (FRAME_SIZE (byte_at data 2))) data)
    (FRAME_SIZE (byte_at data 2)) out k
  = parse_into_frame data data_len out k.
Proof.
  intros HL Hsize Hlen.
  assert (Hfs : FRAME_SIZE (byte_at data 2) = byte_at data 2 + 5) by
    (unfold FRAME_SIZE, FRAME_HEADER_SIZE, FRAME_CRC_SIZE; lia).
  assert (H3 : FRAME_HEADER_SIZE = 3) by reflexivity.
  set (n := Z.to_nat (FRAME_SIZE (byte_at data 2))).
  assert (Hb : forall i, 0 <= i < FRAME_SIZE (byte_at data 2) ->
                         byte_at (firstn n data) i = byte_at data i)
    by (intros i Hi; apply byte_at_firstn; subst n; lia).
  assert (Hb2 : byte_at (firstn n data) 2 = byte_at data 2) by (apply Hb; lia).
  destruct (Z_le_gt_dec (byte_at data 2) MAX_PAYLOAD_SIZE) as [Hmax|Hover].
  - rewrite !parse_into_frame_checked;
      try (rewrite ?Hb2, ?length_firstn; subst n; lia).
    rewrite Hb2, !Hb by lia.
    rewrite firstn_firstn_le by (subst n; lia).
    unfold parsed_frame. rewrite Hb2, !Hb by lia.
    rewrite skipn_firstn_comm, fill_payload_prefix by (subst n; lia).
    reflexivity.
  - rewrite !parse_into_frame_len_over by (rewrite ?Hb2; lia).
    reflexivity.
Qed.

(** C9: when the first [FRAME_SIZE len] bytes of a buffer form a valid
    frame ([len] being the length that the buffer declares), parsing the
    buffer with any announced size of at least [FRAME_SIZE len] succeeds and
    returns the frame that parsing this prefix alone returns: the bytes
    after the CRC are ignored. *)
Theorem trailing_bytes_ignored :
  forall (data : list Z) (data_len : Z) (out f' : beam_frame_t) (k : nat),
    Forall uint8 data ->
    FRAME_SIZE (byte_at data 2) <= data_len ->
    data_len <= Z.of_nat (length data) ->
    fst (beam_parse_into_frame
           (Some (firstn (Z.to_nat (FRAME_SIZE (byte_at data 2))) data))
           (FRAME_SIZE (byte_at data 2)) (Some out) k)
    = (ESP_OK, Some f') ->
    fst (beam_parse_into_frame (Some data) data_len (Some out) k)
    = (ESP_OK, Some f').
Proof.
  intros data data_len out f' k Hdata Hsize Hlen Hprefix.
  pose proof (byte_at_uint8 data 2 Hdata) as [HL _].
  assert (Hfs : FRAME_SIZE (byte_at data 2) = byte_at data 2 + 5) by
    (unfold FRAME_SIZE, FRAME_HEADER_SIZE, FRAME_CRC_SIZE; lia).
  assert (Hmin5 : BEAM_FRAME_MIN_SIZE = 5) by reflexivity.
  rewrite beam_parse_into_frame_run in Hprefix |- * by lia.
  rewrite (parse_into_frame_prefix data data_len out k) in Hprefix
    by assumption.
  exact Hprefix.
Qed.

Lemma trailing_bytes_ignored_witness :
  fst (beam_parse_into_frame (Some telemetry13_buffer) 20 (Some zero_frame) O)
  = (ESP_OK, Some telemetry13_parsed).
Proof.
  apply (trailing_bytes_ignored telemetry13_buffer 20 zero_frame
           telemetry13_parsed O).
  - apply Forall_is_uint8. vm_compute. reflexivity.
  - vm_compute. discriminate.
  - vm_compute. discriminate.
  - vm_compute. reflexivity.
Defined.

(** ** Typed payloads longer than their structure *)

Lemma beam_parse_into_frame_ok_inv (data : list Z) (data_len : Z)
    (out f' : beam_frame_t) (k : nat) :
  0 <= byte_at data 2 ->
  data_len <= Z.of_nat (length data) ->
  fst (beam_parse_into_frame (Some data) data_len (Some out) k)
  = (ESP_OK, Some f') ->
  byte_at data 2 <= MAX_PAYLOAD_SIZE
  /\ FRAME_SIZE (byte_at data 2) <= data_len
  /\ crc_of (firstn (Z.to_nat (FRAME_HEADER_SIZE + byte_at data 2)) data)
     = read_crc (byte_at data (FRAME_HEADER_SIZE + byte_at data 2))
                (byte_at data (FRAME_HEADER_SIZE + byte_at data 2 + 1))
  /\ f' = parsed_frame data out.
Proof.
  intros HL Hlen Hok.
  destruct (Z_lt_le_dec data_len BEAM_FRAME_MIN_SIZE) as [Hmin|Hmin].
  { rewrite beam_parse_into_frame_below_min in Hok by exact Hmin.
    discriminate Hok. }
  rewrite beam_parse_into_frame_run in Hok by exact Hmin.
  destruct (Z_le_gt_dec (byte_at data 2) MAX_PAYLOAD_SIZE) as [Hmax|Hover].
  2: { rewrite parse_into_frame_len_over in Hok by lia. discriminate Hok. }
  destruct (Z_le_gt_dec (FRAME_SIZE (byte_at data 2)) data_len) as [Hsz|Hshort].
  2: { rewrite parse_into_frame_truncated in Hok by lia. discriminate Hok. }
  rewrite parse_into_frame_checked in Hok by (try assumption; lia).
  cbn [fst snd] in Hok.
  destruct (Z.eqb_spec
              (crc_of (firstn (Z.to_nat (FRAME_HEADER_SIZE + byte_at data 2)) data))
              (read_crc (byte_at data (FRAME_HEADER_SIZE + byte_at data 2))
                        (byte_at data (FRAME_HEADER_SIZE + byte_at data 2 + 1))))
    as [Hcrc|Hcrc]; cbn [fst snd] in Hok; [| discriminate Hok].
  injection Hok as Hf. repeat split; auto.
Qed.

(** C10: after a successful parse the CRC field is the CRC-16/CCITT of the
    header and of all the declared payload bytes, and each of these bytes
    has gone through the CRC engine; but for Telemetry with a declared
    length above 12 only the first 12 payload bytes are copied, and for
    Battery with a declared length above 5 only the first 5: the rest of the
    output payload keeps its previous content, and the header holds the
    three header bytes only, so the declared bytes beyond the fixed size are
    in no field of the output frame. *)
Theorem typed_payload_tail_not_stored :
  forall (data : list Z) (data_len : Z) (out f' : beam_frame_t) (k : nat),
    Forall uint8 data ->
    data_len <= Z.of_nat (length data) ->
    fst (beam_parse_into_frame (Some data) data_len (Some out) k)
    = (ESP_OK, Some f') ->
    header f' = mk_header (byte_at data 0) (byte_at data 1) (byte_at data 2)
    /\ crc f'
       = crc16_ccitt (firstn (Z.to_nat (FRAME_HEADER_SIZE + byte_at data 2)) data)
    /\ snd (beam_parse_into_frame (Some data) data_len (Some out) k)
       = (k + Z.to_nat (FRAME_HEADER_SIZE + byte_at data 2))%nat
    /\ (byte_at data 0 = MSG_ID_TELEMETRY ->
        sizeof_beam_payload_telemetry_t < byte_at data 2 ->
        payload f'
        = firstn 12 (skipn (Z.to_nat FRAME_HEADER_SIZE) data)
          ++ skipn 12 (payload out))
    /\ (byte_at data 0 = MSG_ID_BATTERY ->
        sizeof_beam_payload_battery_t < byte_at data 2 ->
        payload f'
        = firstn 5 (skipn (Z.to_nat FRAME_HEADER_SIZE) data)
          ++ skipn 5 (payload out)).
Proof.
  intros data data_len out f' k Hdata Hlen Hok.
  pose proof (byte_at_uint8 data 2 Hdata) as [HL _].
  destruct (beam_parse_into_frame_ok_inv _ _ _ _ _ HL Hlen Hok)
    as (Hmax & Hsz & Hcrc & ->).
  assert (Hfs : FRAME_SIZE (byte_at data 2) = byte_at data 2 + 5) by
    (unfold FRAME_SIZE, FRAME_HEADER_SIZE, FRAME_CRC_SIZE; lia).
  assert (Hmin5 : BEAM_FRAME_MIN_SIZE = 5) by reflexivity.
  split; [reflexivity|].
  split.
  { cbn [parsed_frame crc]. rewrite <- Hcrc.
    apply crc_of_ref, Forall_uint8_firstn, Hdata. }
  split.
  { rewrite beam_parse_into_frame_run by lia.
    rewrite parse_into_frame_checked by (try assumption; lia).
    reflexivity. }
  unfold sizeof_beam_payload_telemetry_t, sizeof_beam_payload_battery_t.
  cbn [parsed_frame payload].
  split.
  - intros Hm H12. rewrite Hm. unfold fill_payload.
    rewrite Z.eqb_refl. unfold sizeof_beam_payload_telemetry_t.
    destruct (Z.leb_spec 12 (byte_at data 2)); [| lia]. apply memcpy_0.
  - intros Hm H5. rewrite Hm. unfold fill_payload.
    change (MSG_ID_BATTERY =? MSG_ID_TELEMETRY) with false.
    rewrite Z.eqb_refl. unfold sizeof_beam_payload_battery_t.
    destruct (Z.leb_spec 5 (byte_at data 2)); [| lia]. apply memcpy_0.
Qed.

Lemma typed_payload_tail_not_stored_witness :
  header telemetry13_parsed
  = mk_header (byte_at telemetry13_buffer 0) (byte_at telemetry13_buffer 1)
      (byte_at telemetry13_buffer 2)
  /\ payload telemetry13_parsed
     = firstn 12 (skipn (Z.to_nat FRAME_HEADER_SIZE) telemetry13_buffer)
       ++ skipn 12 (payload zero_frame).
Proof.
  assert (Hb : Forall uint8 telemetry13_buffer)
    by (apply Forall_is_uint8; vm_compute; reflexivity).
  assert (Hl : 18 <= Z.of_nat (length telemetry13_buffer))
    by (vm_compute; discriminate).
  assert (Hok : fst (beam_parse_into_frame (Some telemetry13_buffer) 18
                       (Some zero_frame) O)
                = (ESP_OK, Some telemetry13_parsed))
    by (vm_compute; reflexivity).
  assert (Hm : byte_at telemetry13_buffer 0 = MSG_ID_TELEMETRY) by reflexivity.
  assert (H12 : sizeof_beam_payload_telemetry_t < byte_at telemetry13_buffer 2)
    by reflexivity.
  pose proof (typed_payload_tail_not_stored telemetry13_buffer 18 zero_frame
                telemetry13_parsed O Hb Hl Hok) as H.
  split.
  - exact (proj1 H).
  - exact (proj1 (proj2 (proj2 (proj2 H))) Hm H12).
Defined.

(** * Further properties of the 3-byte-header parser *)

(** ** Failures of the serializer *)

Lemma serialize_frame_too_small (F : beam_frame_t) (buf : list Z) (size : Z)
    (osz : option Z) (k : nat) :
  size < FRAME_SIZE (len (header F)) ->
  serialize_frame F buf size osz k = ((ESP_ERR_INVALID_SIZE, buf, osz), k).
Proof.
  intros H. unfold serialize_frame.
  destruct (Z.leb_spec (FRAME_SIZE (len (header F))) size); [lia | reflexivity].
Qed.

Lemma serialize_frame_atomic (F : beam_frame_t) (buf : list Z) (size : Z)
    (osz : option Z) (k : nat) :
  fst (fst (fst (serialize_frame F buf size osz k))) <> ESP_OK ->
  serialize_frame F buf size osz k = ((ESP_ERR_INVALID_SIZE, buf, osz), k).
Proof.
  unfold serialize_frame.
  destruct (FRAME_SIZE (len (header F)) <=? size); [| reflexivity].
  rewrite bind_run. unfold ret. cbn [fst].
  intros H. exfalso. apply H. reflexivity.
Qed.

(** [beam_serialize_frame] returns ESP_ERR_INVALID_ARG for a NULL frame or
    buffer, ESP_ERR_INVALID_STATE for a frame with [len > MAX_PAYLOAD_SIZE]
    (whatever the size of the buffer), ESP_ERR_INVALID_SIZE for a buffer
    smaller than the frame; whenever it does not return ESP_OK, the buffer
    and [*out_size] are what they were and no CRC update was executed. *)
Theorem serialize_failure_untouched :
  forall (frame : option beam_frame_t) (out_buffer : option (list Z))
         (buffer_size : Z) (out_size : option Z) (k : nat),
    (frame = None \/ out_buffer = None ->
     beam_serialize_frame frame out_buffer buffer_size out_size k
     = ((ESP_ERR_INVALID_ARG, out_buffer, out_size), k))
    /\
    (forall (F : beam_frame_t) (buf : list Z),
        frame = Some F -> out_buffer = Some buf ->
        (MAX_PAYLOAD_SIZE < len (header F) ->
         beam_serialize_frame frame out_buffer buffer_size out_size k
         = ((ESP_ERR_INVALID_STATE, out_buffer, out_size), k))
        /\
        (len (header F) <= MAX_PAYLOAD_SIZE ->
         buffer_size < FRAME_SIZE (len (header F)) ->
         beam_serialize_frame frame out_buffer buffer_size out_size k
         = ((ESP_ERR_INVALID_SIZE, out_buffer, out_size), k)))
    /\
    (fst (fst (fst (beam_serialize_frame frame out_buffer buffer_size out_size k)))
     <> ESP_OK ->
     snd (fst (fst (beam_serialize_frame frame out_buffer buffer_size out_size k)))
     = out_buffer
     /\ snd (fst (beam_serialize_frame frame out_buffer buffer_size out_size k))
        = out_size
     /\ snd (beam_serialize_frame frame out_buffer buffer_size out_size k) = k).
Proof.
  intros frame out_buffer buffer_size out_size k.
  split; [| split].
  - intros [-> | ->]; [reflexivity|].
    destruct frame; reflexivity.
  - intros F buf -> ->. split.
    + intros Hover. unfold beam_serialize_frame.
      destruct (Z.leb_spec (len (header F)) MAX_PAYLOAD_SIZE); [lia | reflexivity].
    + intros Hmax Hsmall. unfold beam_serialize_frame.
      destruct (Z.leb_spec (len (header F)) MAX_PAYLOAD_SIZE); [| lia].
      rewrite bind_run, serialize_frame_too_small by exact Hsmall.
      reflexivity.
  - destruct frame as [F|]; [| intros _; repeat split; reflexivity].
    destruct out_buffer as [buf|]; [| intros _; repeat split; reflexivity].
    unfold beam_serialize_frame.
    destruct (len (header F) <=? MAX_PAYLOAD_SIZE);
      [| intros _; repeat split; reflexivity].
    rewrite bind_run. unfold ret. cbn [fst snd].
    intros H. rewrite (serialize_frame_atomic _ _ _ _ _ H).
    repeat split; reflexivity.
Qed.

Lemma serialize_failure_untouched_witness :
  beam_serialize_frame (Some telemetry13_frame) (Some (repeat 7 10)) 10 (Some 4) O
  = ((ESP_ERR_INVALID_SIZE, Some (repeat 7 10), Some 4), O)
  /\ beam_serialize_frame
       (Some (mk_frame (mk_header 9 1 201) sample_payload 0))
       (Some (repeat 7 10)) 10 (Some 4) O
     = ((ESP_ERR_INVALID_STATE, Some (repeat 7 10), Some 4), O).
Proof.
  split.
  - assert (Hmax : len (header telemetry13_frame) <= MAX_PAYLOAD_SIZE)
      by (vm_compute; discriminate).
    assert (Hsmall : 10 < FRAME_SIZE (len (header telemetry13_frame)))
      by reflexivity.
    exact (proj2 (proj1 (proj2 (serialize_failure_untouched
             (Some telemetry13_frame) (Some (repeat 7 10)) 10 (Some 4) O))
             telemetry13_frame (repeat 7 10) eq_refl eq_refl) Hmax Hsmall).
  - assert (Hover : MAX_PAYLOAD_SIZE
                    < len (header (mk_frame (mk_header 9 1 201) sample_payload 0)))
      by reflexivity.
    exact (proj1 (proj1 (proj2 (serialize_failure_untouched
             (Some (mk_frame (mk_header 9 1 201) sample_payload 0))
             (Some (repeat 7 10)) 10 (Some 4) O))
             (mk_frame (mk_header 9 1 201) sample_payload 0) (repeat 7 10)
             eq_refl eq_refl) Hover).
Defined.

(** ** What the serializer reads of a frame *)

(** [beam_serialize_frame] reads the header of the frame and its first [len]
    payload bytes only: two frames that agree on these give the same result,
    whatever their [crc] fields and the rest of their payloads. *)
Theorem serialize_reads_header_and_payload :
  forall (F1 F2 : beam_frame_t) (buf : list Z) (size : Z) (osz : option Z)
         (k : nat),
    header F1 = header F2 ->
    firstn (Z.to_nat (len (header F1))) (payload F1)
    = firstn (Z.to_nat (len (header F1))) (payload F2) ->
    0 <= len (header F1) ->
    len (header F1) <= Z.of_nat (length (payload F1)) ->
    len (header F1) <= Z.of_nat (length (payload F2)) ->
    size <= Z.of_nat (length buf) ->
    beam_serialize_frame (Some F1) (Some buf) size osz k
    = beam_serialize_frame (Some F2) (Some buf) size osz k.
Proof.
  intros F1 F2 buf size osz k Hh Hp HL Hp1 Hp2 Hbuf.
  assert (Hfb : frame_bytes F1 = frame_bytes F2)
    by (unfold frame_bytes; rewrite <- Hh, Hp; reflexivity).
  rewrite !beam_serialize_frame_run by (rewrite <- ?Hh; lia).
  unfold encode. rewrite <- Hh, Hfb. reflexivity.
Qed.

Lemma serialize_reads_header_and_payload_witness :
  beam_serialize_frame (Some telemetry13_frame) (Some (repeat 7 20)) 20 None O
  = beam_serialize_frame
      (Some (mk_frame (mk_header MSG_ID_TELEMETRY 7 13)
               (firstn 13 sample_payload ++ repeat 255 187) 4660))
      (Some (repeat 7 20)) 20 None O.
Proof.
  apply (serialize_reads_header_and_payload telemetry13_frame
           (mk_frame (mk_header MSG_ID_TELEMETRY 7 13)
              (firstn 13 sample_payload ++ repeat 255 187) 4660)
           (repeat 7 20) 20 None O).
  - reflexivity.
  - reflexivity.
  - vm_compute. discriminate.
  - vm_compute. discriminate.
  - vm_compute. discriminate.
  - vm_compute. discriminate.
Defined.

(** ** What the parser reads of a buffer *)

Lemma parse_into_frame_within (d : list Z) (data_len : Z) (out : beam_frame_t)
    (k : nat) :
  Forall uint8 d ->
  FRAME_HEADER_SIZE <= data_len ->
  data_len <= Z.of_nat (length d) ->
  parse_into_frame (firstn (Z.to_nat data_len) d) data_len out k
  = parse_into_frame d data_len out k.
Proof.
  intros Hd Hmin Hlen.
  assert (H3 : FRAME_HEADER_SIZE = 3) by reflexivity.
  assert (Hfs : forall L, FRAME_SIZE L = L + 5) by
    (intros L; unfold FRAME_SIZE, FRAME_HEADER_SIZE, FRAME_CRC_SIZE; lia).
  set (n := Z.to_nat data_len).
  assert (Hb : forall i, 0 <= i < data_len ->
                         byte_at (firstn n d) i = byte_at d i)
    by (intros i Hi; apply byte_at_firstn; subst n; lia).
  assert (Hb2 : byte_at (firstn n d) 2 = byte_at d 2) by (apply Hb; lia).
  pose proof (byte_at_uint8 d 2 Hd) as [HL _].
  destruct (Z_le_gt_dec (byte_at d 2) MAX_PAYLOAD_SIZE) as [Hmax|Hover].
  2: { rewrite !parse_into_frame_len_over by (rewrite ?Hb2; lia). reflexivity. }
  destruct (Z_le_gt_dec (FRAME_SIZE (byte_at d 2)) data_len) as [Hsz|Hshort].
  2: { rewrite !parse_into_frame_truncated by (rewrite ?Hb2; lia). reflexivity. }
  rewrite Hfs in Hsz.
  rewrite !parse_into_frame_checked;
    try (rewrite ?Hb2, ?Hfs, ?length_firstn; subst n; lia).
  rewrite Hb2, !Hb by lia.
  rewrite firstn_firstn_le by (subst n; lia).
  unfold parsed_frame. rewrite Hb2, !Hb by lia.
  rewrite skipn_firstn_comm, fill_payload_prefix by (subst n; lia).
  reflexivity.
Qed.

(** [beam_parse_into_frame] reads the [data_len] first bytes of the buffer
    only: on two buffers that agree on these bytes it returns the same error
    code and the same frame, after the same number of CRC updates. *)
Theorem parse_reads_within_data_len :
  forall (d1 d2 : list Z) (data_len : Z) (out : beam_frame_t) (k : nat),
    Forall uint8 d1 -> Forall uint8 d2 ->
    data_len <= Z.of_nat (length d1) ->
    data_len <= Z.of_nat (length d2) ->
    firstn (Z.to_nat data_len) d1 = firstn (Z.to_nat data_len) d2 ->
    beam_parse_into_frame (Some d1) data_len (Some out) k
    = beam_parse_into_frame (Some d2) data_len (Some out) k.
Proof.
  intros d1 d2 data_len out k H1 H2 Hl1 Hl2 Heq.
  destruct (Z_lt_le_dec data_len BEAM_FRAME_MIN_SIZE) as [Hmin|Hmin].
  - rewrite !beam_parse_into_frame_below_min by exact Hmin. reflexivity.
  - assert (Hmin5 : BEAM_FRAME_MIN_SIZE = 5) by reflexivity.
    assert (H3 : FRAME_HEADER_SIZE = 3) by reflexivity.
    rewrite !beam_parse_into_frame_run by exact Hmin.
    rewrite <- (parse_into_frame_within d1), <- (parse_into_frame_within d2)
      by (try assumption; lia).
    rewrite Heq. reflexivity.
Qed.

Lemma parse_reads_within_data_len_witness :
  beam_parse_into_frame (Some telemetry13_buffer) 18 (Some zero_frame) O
  = beam_parse_into_frame (Some (firstn 18 telemetry13_buffer ++ [200; 100; 50]))
      18 (Some zero_frame) O.
Proof.
  apply (parse_reads_within_data_len telemetry13_buffer
           (firstn 18 telemetry13_buffer ++ [200; 100; 50]) 18 zero_frame O).
  - apply Forall_is_uint8. vm_compute. reflexivity.
  - apply Forall_is_uint8. vm_compute. reflexivity.
  - vm_compute. discriminate.
  - vm_compute. discriminate.
  - vm_compute. reflexivity.
Defined.

(** ** The frame that the parser returns *)

Lemma Forall_uint8_app (a b : list Z) :
  Forall uint8 a -> Forall uint8 b -> Forall uint8 (a ++ b).
Proof. intros Ha Hb. apply Forall_app. split; assumption. Qed.

Lemma read_crc_range (lo hi : Z) : uint16 (read_crc lo hi).
Proof. apply to_uint16_range. Qed.

(** A frame that [beam_parse_into_frame] returns with ESP_OK, from a buffer
    of bytes and into a well-formed output frame, is well-formed: its fields
    are in the range of their types, the payload storage keeps its size,
    and [len <= MAX_PAYLOAD_SIZE], so that [beam_serialize_frame] accepts
    it; the frame that was parsed fits in the announced size. *)
Theorem parsed_frame_well_formed :
  forall (data : list Z) (data_len : Z) (out f' : beam_frame_t) (k : nat),
    Forall uint8 data ->
    data_len <= Z.of_nat (length data) ->
    frame_wf out ->
    fst (beam_parse_into_frame (Some data) data_len (Some out) k)
    = (ESP_OK, Some f') ->
    frame_wf f'
    /\ len (header f') <= MAX_PAYLOAD_SIZE
    /\ FRAME_SIZE (len (header f')) <= data_len.
Proof.
  intros data data_len out f' k Hdata Hlen Hout Hok.
  pose proof (byte_at_uint8 data 2 Hdata) as HL.
  destruct (beam_parse_into_frame_ok_inv _ _ _ _ _ (proj1 HL) Hlen Hok)
    as (Hmax & Hsz & Hcrc & ->).
  destruct Hout as (_ & _ & _ & Hplen & Hpay & _).
  assert (Hfs : FRAME_SIZE (byte_at data 2) = byte_at data 2 + 5) by
    (unfold FRAME_SIZE, FRAME_HEADER_SIZE, FRAME_CRC_SIZE; lia).
  assert (HM : MAX_PAYLOAD_SIZE = 200) by reflexivity.
  pose proof (stored_size_bounds (byte_at data 0) (byte_at data 2) (proj1 HL))
    as Hn.
  cbn [parsed_frame header payload crc len].
  split; [| split; assumption].
  unfold frame_wf. cbn [parsed_frame header payload crc msg_id seq len].
  split; [apply byte_at_uint8, Hdata|].
  split; [apply byte_at_uint8, Hdata|].
  split; [exact HL|].
  rewrite fill_payload_stored_size.
  split.
  { rewrite memcpy_length; [exact Hplen | lia | lia | | lia].
    rewrite length_skipn. change (Z.to_nat FRAME_HEADER_SIZE) with 3%nat. lia. }
  split; [| apply read_crc_range].
  rewrite memcpy_0. apply Forall_uint8_app.
  - apply Forall_uint8_firstn, Forall_uint8_skipn, Hdata.
  - apply Forall_uint8_skipn, Hpay.
Qed.

Lemma zero_frame_wf : frame_wf zero_frame.
Proof.
  unfold frame_wf, uint8, uint16. cbn [zero_frame header payload crc
    msg_id seq len]. unfold MAX_PAYLOAD_SIZE.
  repeat split; try lia; try reflexivity.
  apply Forall_is_uint8. vm_compute. reflexivity.
Qed.

Lemma parsed_frame_well_formed_witness :
  frame_wf telemetry13_parsed
  /\ len (header telemetry13_parsed) <= MAX_PAYLOAD_SIZE
  /\ FRAME_SIZE (len (header telemetry13_parsed)) <= 20.
Proof.
  apply (parsed_frame_well_formed telemetry13_buffer 20 zero_frame
           telemetry13_parsed O).
  - apply Forall_is_uint8. vm_compute. reflexivity.
  - vm_compute. discriminate.
  - exact zero_frame_wf.
  - vm_compute. reflexivity.
Defined.

(** ** Parsing, then serializing *)

Lemma firstn_two_more (l : list Z) (n : nat) :
  (n + 2 <= length l)%nat ->
  firstn (n + 2) l = firstn n l ++ [nth n l 0; nth (S n) l 0].
Proof.
  revert l. induction n as [|n IH]; intros l Hl.
  - destruct l as [|a [|b l]]; cbn [length] in Hl; try lia. reflexivity.
  - destruct l as [|a l]; cbn [length] in Hl; [lia|].
    cbn [Nat.add firstn app nth]. f_equal. apply IH. lia.
Qed.

Lemma parsed_frame_bytes (data : list Z) (out : beam_frame_t) :
  0 <= byte_at data 2 ->
  FRAME_HEADER_SIZE + byte_at data 2 <= Z.of_nat (length data) ->
  stored_size (byte_at data 0) (byte_at data 2) = byte_at data 2 ->
  frame_bytes (parsed_frame data out)
  = firstn (Z.to_nat (FRAME_HEADER_SIZE + byte_at data 2)) data.
Proof.
  intros HL Hlen Hst.
  assert (H3 : FRAME_HEADER_SIZE = 3) by reflexivity.
  unfold frame_bytes. cbn [parsed_frame header payload msg_id seq len].
  rewrite fill_payload_stored_size, memcpy_0, Hst.
  destruct data as [|d0 [|d1 [|d2 rest]]]; try (cbn [length] in Hlen; lia).
  change (byte_at (d0 :: d1 :: d2 :: rest) 0) with d0.
  change (byte_at (d0 :: d1 :: d2 :: rest) 1) with d1.
  change (byte_at (d0 :: d1 :: d2 :: rest) 2) with d2 in *.
  replace (Z.to_nat (FRAME_HEADER_SIZE + d2)) with (S (S (S (Z.to_nat d2))))
    by lia.
  change (Z.to_nat FRAME_HEADER_SIZE) with 3%nat.
  cbn [skipn firstn app].
  rewrite firstn_app_exact; [reflexivity|].
  rewrite length_firstn. cbn [length] in Hlen. lia.
Qed.

(** A frame returned by a successful parse (of a buffer of bytes, into a
    well-formed output frame) is accepted by [beam_serialize_frame] for any
    buffer with room for it; when the dispatcher stored all the declared
    payload bytes ([stored_size] is [len]: unknown category, typed payload
    not longer than its structure), the serializer writes back exactly the
    [FRAME_SIZE len] bytes that were parsed. *)
Theorem parse_serialize_roundtrip :
  forall (data : list Z) (data_len : Z) (out f' : beam_frame_t) (k : nat)
         (buf : list Z) (size : Z) (osz : option Z) (k2 : nat),
    Forall uint8 data ->
    data_len <= Z.of_nat (length data) ->
    frame_wf out ->
    fst (beam_parse_into_frame (Some data) data_len (Some out) k)
    = (ESP_OK, Some f') ->
    FRAME_SIZE (len (header f')) <= size ->
    size <= Z.of_nat (length buf) ->
    exists buf' : list Z,
      fst (beam_serialize_frame (Some f') (Some buf) size osz k2)
      = (ESP_OK, Some buf',
         match osz with
         | Some _ => Some (FRAME_SIZE (len (header f')))
         | None => None
         end)
      /\ (stored_size (msg_id (header f')) (len (header f')) = len (header f') ->
          firstn (Z.to_nat (FRAME_SIZE (len (header f')))) buf'
          = firstn (Z.to_nat (FRAME_SIZE (len (header f')))) data).
Proof.
  intros data data_len out f' k buf size osz k2 Hdata Hlen Hout Hok Hsize Hbuf.
  destruct (parsed_frame_well_formed _ _ _ _ _ Hdata Hlen Hout Hok)
    as (Hwf & Hmax & Hfit).
  pose proof (byte_at_uint8 data 2 Hdata) as HL.
  destruct (beam_parse_into_frame_ok_inv _ _ _ _ _ (proj1 HL) Hlen Hok)
    as (_ & Hsz & Hcrc & Hf).
  assert (HL' : 0 <= len (header f') <= Z.of_nat (length (payload f')))
    by (destruct Hwf as (_ & _ & Hl & Hp & _); unfold uint8 in Hl;
        unfold MAX_PAYLOAD_SIZE in *; lia).
  assert (Hfs : forall L, FRAME_SIZE L = L + 5) by
    (intros L; unfold FRAME_SIZE, FRAME_HEADER_SIZE, FRAME_CRC_SIZE; lia).
  assert (H3 : FRAME_HEADER_SIZE = 3) by reflexivity.
  rewrite beam_serialize_frame_run by assumption.
  destruct (Z.leb_spec (len (header f')) MAX_PAYLOAD_SIZE); [| lia].
  destruct (Z.leb_spec (FRAME_SIZE (len (header f'))) size); [| lia].
  eexists. split; [reflexivity|].
  intros Hst.
  rewrite firstn_app_exact by (pose proof (encode_length f' HL'); lia).
  subst f'. cbn [parsed_frame header len msg_id] in *.
  unfold encode.
  rewrite parsed_frame_bytes by (try assumption; rewrite Hfs in Hsz; lia).
  rewrite Hcrc.
  destruct (split_read_crc
              (byte_at data (FRAME_HEADER_SIZE + byte_at data 2))
              (byte_at data (FRAME_HEADER_SIZE + byte_at data 2 + 1))
              (byte_at_uint8 _ _ Hdata) (byte_at_uint8 _ _ Hdata)) as [-> ->].
  replace (Z.to_nat (FRAME_SIZE (byte_at data 2)))
    with (Z.to_nat (FRAME_HEADER_SIZE + byte_at data 2) + 2)%nat
    by (rewrite Hfs; lia).
  rewrite firstn_two_more by (rewrite Hfs in Hsz; lia).
  f_equal.
  change (byte_at data (FRAME_HEADER_SIZE + byte_at data 2))
    with (nth (Z.to_nat (FRAME_HEADER_SIZE + byte_at data 2)) data 0).
  change (byte_at data (FRAME_HEADER_SIZE + byte_at data 2 + 1))
    with (nth (Z.to_nat (FRAME_HEADER_SIZE + byte_at data 2 + 1)) data 0).
  replace (Z.to_nat (FRAME_HEADER_SIZE + byte_at data 2 + 1))
    with (S (Z.to_nat (FRAME_HEADER_SIZE + byte_at data 2))) by lia.
  reflexivity.
Qed.

Lemma parse_serialize_roundtrip_witness :
  exists buf' : list Z,
    fst (beam_serialize_frame
           (Some (parsed_frame (encode full_frame) zero_frame))
           (Some (repeat 7 210)) 210 (Some 0) O)
    = (ESP_OK, Some buf', Some 205)
    /\ firstn 205 buf' = encode full_frame.
Proof.
  assert (Hb : Forall uint8 (encode full_frame))
    by (apply Forall_is_uint8; vm_compute; reflexivity).
  assert (Hl : 205 <= Z.of_nat (length (encode full_frame)))
    by (vm_compute; discriminate).
  assert (Hok : fst (beam_parse_into_frame (Some (encode full_frame)) 205
                       (Some zero_frame) O)
                = (ESP_OK, Some (parsed_frame (encode full_frame) zero_frame)))
    by (vm_compute; reflexivity).
  assert (Hs : FRAME_SIZE (len (header (parsed_frame (encode full_frame) zero_frame)))
               <= 210) by (vm_compute; discriminate).
  assert (Hbuf : 210 <= Z.of_nat (length (repeat 7 210)))
    by (vm_compute; discriminate).
  destruct (parse_serialize_roundtrip (encode full_frame) 205 zero_frame
              (parsed_frame (encode full_frame) zero_frame) O
              (repeat 7 210) 210 (Some 0) O Hb Hl zero_frame_wf Hok Hs Hbuf)
    as [buf' [Hser Hbytes]].
  exists buf'. split; [exact Hser|].
  transitivity (firstn 205 (encode full_frame)).
  - exact (Hbytes eq_refl).
  - vm_compute. reflexivity.
Defined.

(** ** The work of one call *)

(** The loops of [compute_frame_crc] execute one update for each header
    byte and each payload byte, whatever the bytes are. *)
Section FrameCrcCount.
Variable per_byte : Z -> Z -> Counted Z.
Hypothesis per_byte_count : forall c b k, snd (per_byte c b k) = S k.

Lemma for_loop_count (data : list Z) (n : nat) :
  forall (i c : Z) (k : nat),
    snd (for_loop n i
           (fun i crc => per_byte crc (byte_at data (FRAME_HEADER_SIZE + i))) c k)
    = (k + n)%nat.
Proof.
  induction n as [|n IH]; intros i c k.
  - cbn [for_loop]. unfold ret. cbn [snd]. lia.
  - cbn [for_loop]. rewrite bind_run, IH, per_byte_count. lia.
Qed.

Lemma frame_crc_count (data : list Z) (payload_len : Z) (k : nat) :
  snd ((crc <- per_byte CRC_INIT (byte_at data 0) ;;
        crc <- per_byte crc (byte_at data 1) ;;
        crc <- per_byte crc (byte_at data 2) ;;
        for_loop (Z.to_nat payload_len) 0
          (fun i crc => per_byte crc (byte_at data (FRAME_HEADER_SIZE + i))) crc) k)
  = (k + Z.to_nat FRAME_HEADER_SIZE + Z.to_nat payload_len)%nat.
Proof.
  rewrite !bind_run, for_loop_count, !per_byte_count.
  change (Z.to_nat FRAME_HEADER_SIZE) with 3%nat. lia.
Qed.
End FrameCrcCount.

Lemma compute_frame_crc_count (data : list Z) (payload_len : Z) (k : nat) :
  snd (compute_frame_crc data payload_len k)
  = (k + Z.to_nat FRAME_HEADER_SIZE + Z.to_nat payload_len)%nat.
Proof.
  apply (frame_crc_count compute_crc16_per_byte).
  intros c b k'. rewrite compute_crc16_per_byte_run. reflexivity.
Qed.

Lemma parse_into_frame_count (d : list Z) (data_len : Z) (out : beam_frame_t)
    (k : nat) :
  (snd (parse_into_frame d data_len out k)
   <= k + Z.to_nat (FRAME_HEADER_SIZE + MAX_PAYLOAD_SIZE))%nat
  /\ (fst (fst (parse_into_frame d data_len out k)) = ESP_ERR_INVALID_SIZE ->
      snd (parse_into_frame d data_len out k) = k)
  /\ (fst (fst (parse_into_frame d data_len out k)) <> ESP_ERR_INVALID_SIZE ->
      snd (parse_into_frame d data_len out k)
      = (k + Z.to_nat FRAME_HEADER_SIZE + Z.to_nat (byte_at d 2))%nat).
Proof.
  assert (H3 : FRAME_HEADER_SIZE = 3) by reflexivity.
  assert (HM : MAX_PAYLOAD_SIZE = 200) by reflexivity.
  unfold parse_into_frame.
  destruct (FRAME_HEADER_SIZE <=? data_len).
  2: { unfold ret. cbn [fst snd]. repeat split; try lia.
       intros H. exfalso. apply H. reflexivity. }
  destruct (Z.leb_spec (byte_at d 2) MAX_PAYLOAD_SIZE) as [Hmax|Hover].
  2: { unfold ret. cbn [fst snd]. repeat split; try lia.
       intros H. exfalso. apply H. reflexivity. }
  destruct (FRAME_SIZE (byte_at d 2) <=? data_len).
  2: { unfold ret. cbn [fst snd]. repeat split; try lia.
       intros H. exfalso. apply H. reflexivity. }
  rewrite bind_run.
  destruct (_ =? _); unfold ret; cbn [fst snd];
    rewrite compute_frame_crc_count;
    (split; [lia|]); (split; [discriminate | intros _; reflexivity]).
Qed.

Lemma serialize_frame_count (F : beam_frame_t) (buf : list Z) (size : Z)
    (osz : option Z) (k : nat) :
  fst (fst (fst (serialize_frame F buf size osz k))) = ESP_OK ->
  snd (serialize_frame F buf size osz k)
  = (k + Z.to_nat FRAME_HEADER_SIZE + Z.to_nat (len (header F)))%nat.
Proof.
  unfold serialize_frame.
  destruct (FRAME_SIZE (len (header F)) <=? size).
  - intros _. rewrite bind_run. unfold ret. cbn [snd].
    apply compute_frame_crc_count.
  - unfold ret. cbn [fst]. discriminate.
Qed.

(** One call of [beam_parse_into_frame] or [beam_serialize_frame], whatever
    its arguments (NULL pointers, any frame, any buffer and any size),
    executes at most [FRAME_HEADER_SIZE + MAX_PAYLOAD_SIZE = 203] CRC byte
    updates.  The parser executes none when it returns ESP_ERR_INVALID_ARG
    or ESP_ERR_INVALID_SIZE and exactly [3 + len] otherwise (ESP_OK or
    ESP_ERR_INVALID_CRC), [len] being the length byte of the buffer; the
    serializer executes none when it fails (ESP_ERR_INVALID_ARG,
    ESP_ERR_INVALID_STATE for [len > MAX_PAYLOAD_SIZE], ESP_ERR_INVALID_SIZE)
    and exactly [3 + len] when it succeeds. *)
Theorem crc_updates_bounded :
  (forall (data : option (list Z)) (data_len : Z)
          (out_frame : option beam_frame_t) (k : nat),
      (snd (beam_parse_into_frame data data_len out_frame k)
       <= k + Z.to_nat (FRAME_HEADER_SIZE + MAX_PAYLOAD_SIZE))%nat
      /\ (fst (fst (beam_parse_into_frame data data_len out_frame k))
          = ESP_ERR_INVALID_ARG
          \/ fst (fst (beam_parse_into_frame data data_len out_frame k))
             = ESP_ERR_INVALID_SIZE ->
          snd (beam_parse_into_frame data data_len out_frame k) = k)
      /\ (forall d : list Z,
             data = Some d ->
             fst (fst (beam_parse_into_frame data data_len out_frame k))
             <> ESP_ERR_INVALID_ARG ->
             fst (fst (beam_parse_into_frame data data_len out_frame k))
             <> ESP_ERR_INVALID_SIZE ->
             snd (beam_parse_into_frame data data_len out_frame k)
             = (k + Z.to_nat FRAME_HEADER_SIZE + Z.to_nat (byte_at d 2))%nat))
  /\
  (forall (frame : option beam_frame_t) (out_buffer : option (list Z))
          (size : Z) (osz : option Z) (k : nat),
      (snd (beam_serialize_frame frame out_buffer size osz k)
       <= k + Z.to_nat (FRAME_HEADER_SIZE + MAX_PAYLOAD_SIZE))%nat
      /\ (fst (fst (fst (beam_serialize_frame frame out_buffer size osz k)))
          <> ESP_OK ->
          snd (beam_serialize_frame frame out_buffer size osz k) = k)
      /\ (forall F : beam_frame_t,
             frame = Some F ->
             fst (fst (fst (beam_serialize_frame frame out_buffer size osz k)))
             = ESP_OK ->
             snd (beam_serialize_frame frame out_buffer size osz k)
             = (k + Z.to_nat FRAME_HEADER_SIZE
                + Z.to_nat (len (header F)))%nat)).
Proof.
  assert (H3 : FRAME_HEADER_SIZE = 3) by reflexivity.
  assert (HM : MAX_PAYLOAD_SIZE = 200) by reflexivity.
  split.
  - intros data data_len out_frame k.
    destruct data as [d|].
    2: { cbn [beam_parse_into_frame]. unfold ret. cbn [fst snd].
         repeat split; try lia. intros d Hd. discriminate Hd. }
    destruct out_frame as [out|].
    2: { cbn [beam_parse_into_frame]. unfold ret. cbn [fst snd].
         repeat split; try lia.
         intros d' _ H. exfalso. apply H. reflexivity. }
    destruct (Z_lt_le_dec data_len BEAM_FRAME_MIN_SIZE) as [Hmin|Hmin].
    { rewrite beam_parse_into_frame_below_min by exact Hmin. cbn [fst snd].
      repeat split; try lia.
      intros d' _ _ H. exfalso. apply H. reflexivity. }
    rewrite beam_parse_into_frame_run by exact Hmin. cbn [fst snd].
    destruct (parse_into_frame_count d data_len out k) as (Hle & Hsz & Hrun).
    split; [exact Hle|].
    split.
    + intros [Harg | Hsize]; [| exact (Hsz Hsize)].
      destruct (Z.leb_spec (byte_at d 2) MAX_PAYLOAD_SIZE) as [Hmax|Hover].
      * destruct (Z_le_gt_dec (FRAME_SIZE (byte_at d 2)) data_len) as [Hs|Hs].
        -- exfalso. revert Harg. unfold parse_into_frame.
           destruct (FRAME_HEADER_SIZE <=? data_len);
             [| unfold ret; cbn [fst]; discriminate].
           destruct (byte_at d 2 <=? MAX_PAYLOAD_SIZE);
             [| unfold ret; cbn [fst]; discriminate].
           destruct (FRAME_SIZE (byte_at d 2) <=? data_len);
             [| unfold ret; cbn [fst]; discriminate].
           rewrite bind_run.
           destruct (_ =? _); unfold ret; cbn [fst]; discriminate.
        -- rewrite parse_into_frame_truncated by lia. reflexivity.
      * rewrite parse_into_frame_len_over by lia. reflexivity.
    + intros d' Hd _ Hsize. injection Hd as <-. exact (Hrun Hsize).
  - intros frame out_buffer size osz k.
    destruct frame as [F|].
    2: { cbn [beam_serialize_frame]. unfold ret. cbn [fst snd].
         repeat split; try lia. intros F HF. discriminate HF. }
    destruct out_buffer as [buf|].
    2: { cbn [beam_serialize_frame]. unfold ret. cbn [fst snd].
         repeat split; try lia.
         intros F' _ H. discriminate H. }
    cbn [beam_serialize_frame].
    destruct (Z.leb_spec (len (header F)) MAX_PAYLOAD_SIZE) as [Hmax|Hover].
    2: { unfold ret. cbn [fst snd]. repeat split; try lia.
         intros F' _ H. discriminate H. }
    rewrite bind_run. unfold ret. cbn [fst snd].
    assert (Hfail : fst (fst (fst (serialize_frame F buf size osz k))) <> ESP_OK ->
                    snd (serialize_frame F buf size osz k) = k).
    { intros H. rewrite serialize_frame_atomic by exact H. reflexivity. }
    pose proof (serialize_frame_count F buf size osz k) as Hok.
    split; [| split].
    + destruct (fst (fst (fst (serialize_frame F buf size osz k)))) eqn:E.
      * rewrite Hok by reflexivity. lia.
      * rewrite Hfail by discriminate. lia.
      * rewrite Hfail by discriminate. lia.
      * rewrite Hfail by discriminate. lia.
      * rewrite Hfail by discriminate. lia.
    + exact Hfail.
    + intros F' HF H. injection HF as <-. exact (Hok H).
Qed.

Lemma crc_updates_bounded_witness :
  snd (beam_serialize_frame (Some oversize_frame) (Some (repeat 0%Z 210)) 210%Z
         None O) = O
  /\ snd (beam_serialize_frame None (Some (repeat 0%Z 210)) 210%Z None O) = O
  /\ snd (beam_serialize_frame (Some full_frame) (Some (repeat 0%Z 205)) 205%Z
            None O) = 203%nat
  /\ snd (beam_parse_into_frame (Some telemetry13_buffer) 20%Z (Some zero_frame) O)
     = 16%nat
  /\ snd (beam_parse_into_frame (Some telemetry13_buffer) 17%Z (Some zero_frame) O)
     = O.
Proof.
  split; [| split; [| split; [| split]]].
  - apply (proj1 (proj2 (proj2 crc_updates_bounded (Some oversize_frame)
                           (Some (repeat 0 210)) 210 None O))).
    vm_compute. discriminate.
  - apply (proj1 (proj2 (proj2 crc_updates_bounded None
                           (Some (repeat 0 210)) 210 None O))).
    vm_compute. discriminate.
  - apply (proj2 (proj2 (proj2 crc_updates_bounded (Some full_frame)
                           (Some (repeat 0 205)) 205 None O)) full_frame eq_refl).
    vm_compute. reflexivity.
  - apply (proj2 (proj2 (proj1 crc_updates_bounded (Some telemetry13_buffer) 20
                           (Some zero_frame) O)) telemetry13_buffer eq_refl).
    + vm_compute. discriminate.
    + vm_compute. discriminate.
  - apply (proj1 (proj2 (proj1 crc_updates_bounded (Some telemetry13_buffer) 17
                           (Some zero_frame) O))).
    right. vm_compute. reflexivity.
Defined.

(** ** Corruption of one byte *)

Lemma crc_of_store_differs (l : list Z) (i : nat) (v : Z) :
  Forall uint8 l -> (i < length l)%nat -> uint8 v -> v <> nth i l 0 ->
  crc_of (store_nat l i v) <> crc_of l.
Proof.
  intros Hl Hi Hv Hne.
  rewrite store_nat_split by exact Hi.
  rewrite (list_split_nth l i Hi) at 3.
  apply crc_of_one_byte; try assumption.
  - apply Forall_uint8_nth; assumption.
  - apply Forall_uint8_skipn, Hl.
Qed.

(** In a buffer that holds a valid serialized frame, replacing one byte of
    the frame other than the length byte by any different byte value (any
    error confined to one byte, not only a single flipped bit) makes
    [beam_parse_into_frame] return ESP_ERR_INVALID_CRC and leave the output
    frame unchanged. *)
Theorem single_byte_corruption_invalid_crc :
  forall (F : beam_frame_t) (buf : list Z) (size : Z) (osz : option Z) (k : nat)
         (buf' : list Z) (osz' : option Z) (data_len i v : Z)
         (out : beam_frame_t) (k' : nat),
    frame_wf F ->
    size <= Z.of_nat (length buf) ->
    fst (beam_serialize_frame (Some F) (Some buf) size osz k)
    = (ESP_OK, Some buf', osz') ->
    FRAME_SIZE (len (header F)) <= data_len <= size ->
    0 <= i < FRAME_SIZE (len (header F)) ->
    i <> 2 ->
    uint8 v ->
    v <> byte_at buf' i ->
    fst (beam_parse_into_frame (Some (store buf' i v)) data_len (Some out) k')
    = (ESP_ERR_INVALID_CRC, Some out).
Proof.
  intros F buf size osz k buf' osz' data_len i v out k'
         Hwf Hbuf Hser Hdata Hi Hi2 Hv Hne.
  destruct (beam_serialize_frame_wf_inv _ _ _ _ _ _ _ Hwf Hbuf Hser)
    as (HL & Hpay & Hsz & ->).
  assert (HL' : 0 <= len (header F) <= Z.of_nat (length (payload F))) by lia.
  pose proof (frame_bytes_length F HL') as Hfb.
  pose proof (frame_bytes_uint8 F Hwf) as Hbytes.
  assert (H3 : FRAME_HEADER_SIZE = 3) by reflexivity.
  assert (Hfs : FRAME_SIZE (len (header F)) = len (header F) + 5) by
    (unfold FRAME_SIZE, FRAME_HEADER_SIZE, FRAME_CRC_SIZE; lia).
  set (tail := skipn (Z.to_nat (FRAME_SIZE (len (header F)))) buf) in *.
  assert (Htail : Z.of_nat (length tail)
                  = Z.of_nat (length buf) - FRAME_SIZE (len (header F)))
    by (subst tail; rewrite length_skipn; lia).
  rewrite beam_parse_into_frame_run by (unfold BEAM_FRAME_MIN_SIZE; lia).
  rewrite encode_app_split in Hne |- *.
  set (c := crc_of (frame_bytes F)) in *.
  pose proof (read_crc_split c (crc_of_range _)) as Hc.
  unfold store. unfold byte_at in Hne.
  destruct (Z_lt_le_dec i (FRAME_HEADER_SIZE + len (header F))) as [Hin|Hout].
  - rewrite app_nth1 in Hne by lia.
    rewrite store_nat_app_l by lia.
    rewrite (parse_into_frame_wire_mismatch _ _ _ _ _ _ _ (len (header F)));
      try assumption; try lia.
    + reflexivity.
    + rewrite store_nat_length. exact Hfb.
    + unfold byte_at. change (Z.to_nat 2) with 2%nat.
      rewrite nth_store_nat_neq by lia. apply frame_bytes_byte_2.
    + rewrite length_app, store_nat_length. cbn [length]. lia.
    + rewrite Hc. apply crc_of_store_differs; [exact Hbytes | lia | exact Hv | exact Hne].
  - replace (Z.to_nat i)
      with (length (frame_bytes F) + Z.to_nat (i - Z.of_nat (length (frame_bytes F))))%nat
      in Hne |- * by lia.
    rewrite app_nth2_plus in Hne. rewrite store_nat_app.
    assert (Hcases : Z.to_nat (i - Z.of_nat (length (frame_bytes F))) = 0%nat
                     \/ Z.to_nat (i - Z.of_nat (length (frame_bytes F))) = 1%nat)
      by lia.
    destruct Hcases as [Hz | Hz]; rewrite Hz in Hne |- *;
      cbn [nth store_nat] in Hne |- *.
    + rewrite (parse_into_frame_wire_mismatch _ _ _ _ _ _ _ (len (header F)));
        try assumption; try lia.
      * reflexivity.
      * apply frame_bytes_byte_2.
      * rewrite length_app. cbn [length]. lia.
      * fold c. intros Heq0. pose proof (eq_trans Hc Heq0) as Heq.
        apply read_crc_inj in Heq;
          [| apply crc_lo_range | apply crc_hi_range | exact Hv
           | apply crc_hi_range].
        destruct Heq as [Heq _]. symmetry in Heq. exact (Hne Heq).
    + rewrite (parse_into_frame_wire_mismatch _ _ _ _ _ _ _ (len (header F)));
        try assumption; try lia.
      * reflexivity.
      * apply frame_bytes_byte_2.
      * rewrite length_app. cbn [length]. lia.
      * fold c. intros Heq0. pose proof (eq_trans Hc Heq0) as Heq.
        apply read_crc_inj in Heq;
          [| apply crc_lo_range | apply crc_hi_range
           | apply crc_lo_range | exact Hv].
        destruct Heq as [_ Heq]. symmetry in Heq. exact (Hne Heq).
Qed.

Lemma single_byte_corruption_invalid_crc_witness :
  fst (beam_parse_into_frame (Some (store telemetry13_buffer 9 255)) 20
         (Some zero_frame) O)
  = (ESP_ERR_INVALID_CRC, Some zero_frame).
Proof.
  apply (single_byte_corruption_invalid_crc telemetry13_frame (repeat 7 20) 20
           None O telemetry13_buffer None 20 9 255 zero_frame O).
  - exact telemetry13_frame_wf.
  - vm_compute. discriminate.
  - vm_compute. reflexivity.
  - split; vm_compute; discriminate.
  - split; vm_compute; [discriminate | reflexivity].
  - discriminate.
  - split; vm_compute; [discriminate | reflexivity].
  - vm_compute. discriminate.
Defined.

(** ** Corruption of two adjacent bytes *)

Lemma crc_bit_step_form (c : Z) :
  crc_bit_step c
  = Z.lxor (Z.land (Z.shiftl c 1) 0xFFFF)
           (if Z.testbit c 15 then CRC_POLYNOM else 0).
Proof.
  rewrite crc_bit_step_ref. unfold crc16_ccitt_shift.
  replace (Z.testbit (Z.shiftl c 1) 16) with (Z.testbit c 15)
    by (rewrite Z.shiftl_spec by lia; reflexivity).
  destruct (Z.testbit c 15); [reflexivity|].
  rewrite Z.lxor_0_r. reflexivity.
Qed.

Lemma lxor_swap (a b c d : Z) :
  Z.lxor a b = Z.lxor c d -> Z.lxor a c = Z.lxor b d.
Proof.
  intros H. apply Z.bits_inj'. intros n _.
  apply (f_equal (fun z => Z.testbit z n)) in H.
  rewrite !Z.lxor_spec in *.
  destruct (Z.testbit a n), (Z.testbit b n), (Z.testbit c n), (Z.testbit d n);
    cbn in *; congruence.
Qed.

Lemma lxor_cond (p : Z) (u v : bool) :
  (if xorb u v then p else 0)
  = Z.lxor (if u then p else 0) (if v then p else 0).
Proof.
  destruct u, v; cbn [xorb];
    rewrite ?Z.lxor_nilpotent, ?Z.lxor_0_r, ?Z.lxor_0_l; reflexivity.
Qed.

Lemma lxor_interchange (a b c d : Z) :
  Z.lxor (Z.lxor a b) (Z.lxor c d) = Z.lxor (Z.lxor a c) (Z.lxor b d).
Proof.
  apply Z.bits_inj'. intros n _. rewrite !Z.lxor_spec.
  destruct (Z.testbit a n), (Z.testbit b n), (Z.testbit c n), (Z.testbit d n);
    reflexivity.
Qed.

(** The bit loop of the CRC is linear for XOR. *)
Lemma crc_bit_step_lxor (x y : Z) :
  crc_bit_step (Z.lxor x y) = Z.lxor (crc_bit_step x) (crc_bit_step y).
Proof.
  rewrite !crc_bit_step_form.
  rewrite Z.shiftl_lxor, land_lxor_distr_l, Z.lxor_spec, lxor_cond.
  apply lxor_interchange.
Qed.

Lemma iter_crc_bit_step_lxor (n : nat) (x y : Z) :
  Nat.iter n crc_bit_step (Z.lxor x y)
  = Z.lxor (Nat.iter n crc_bit_step x) (Nat.iter n crc_bit_step y).
Proof.
  induction n as [|n IH]; [reflexivity|].
  cbn [Nat.iter nat_rect]. fold (Nat.iter n crc_bit_step (Z.lxor x y)).
  fold (Nat.iter n crc_bit_step x). fold (Nat.iter n crc_bit_step y).
  rewrite IH. apply crc_bit_step_lxor.
Qed.

Lemma iter_crc_bit_step_0 (n : nat) : Nat.iter n crc_bit_step 0 = 0.
Proof.
  induction n as [|n IH]; [reflexivity|].
  cbn [Nat.iter nat_rect]. fold (Nat.iter n crc_bit_step 0).
  rewrite IH. reflexivity.
Qed.

Lemma crc_update_split (c b : Z) :
  uint16 c -> uint8 b ->
  crc_update c b
  = Z.lxor (Nat.iter 8 crc_bit_step c) (Nat.iter 8 crc_bit_step (Z.shiftl b 8)).
Proof.
  intros Hc Hb. unfold crc_update.
  rewrite to_uint16_id by (apply crc_update_arg_range; assumption).
  apply iter_crc_bit_step_lxor.
Qed.

(** The register after one non-zero byte from the zero register has a
    non-zero low byte: it is not a byte shifted into the high half. *)
Lemma crc_table_low_byte (e e2 : Z) :
  uint8 e -> uint8 e2 ->
  Nat.iter 8 crc_bit_step (Z.shiftl e 8) = Z.shiftl e2 8 -> e = 0.
Proof.
  intros He He2 H.
  assert (Hall : forall_bits 8 0
            (fun e => (e =? 0)
                      || negb (Z.land (Nat.iter 8 crc_bit_step (Z.shiftl e 8)) 255
                               =? 0)) = true)
    by (vm_compute; reflexivity).
  assert (Hlow : forall_bits 8 0 (fun e2 => Z.land (Z.shiftl e2 8) 255 =? 0) = true)
    by (vm_compute; reflexivity).
  pose proof (forall_uint8 _ Hall e He) as H1. cbv beta in H1.
  pose proof (forall_uint8 _ Hlow e2 He2) as H2. cbv beta in H2.
  rewrite H, H2 in H1. cbn [negb] in H1. rewrite orb_false_r in H1.
  apply Z.eqb_eq. exact H1.
Qed.

Lemma crc_update_two_bytes (c b1 b2 b1' b2' : Z) :
  uint16 c -> uint8 b1 -> uint8 b2 -> uint8 b1' -> uint8 b2' ->
  crc_update (crc_update c b1) b2 = crc_update (crc_update c b1') b2' ->
  b1 = b1' /\ b2 = b2'.
Proof.
  intros Hc H1 H2 H1' H2' H.
  apply crc_update_inj in H; try assumption; try apply crc_update_range.
  rewrite !crc_update_split, !Z.lxor_assoc in H by assumption.
  apply lxor_cancel_l, lxor_swap in H.
  rewrite <- iter_crc_bit_step_lxor, <- !Z.shiftl_lxor in H.
  pose proof (crc_table_low_byte _ _ (uint8_lxor _ _ H1 H1')
                (uint8_lxor _ _ H2 H2') H) as He.
  apply Z.lxor_eq in He. subst b1'.
  split; [reflexivity|].
  rewrite Z.lxor_nilpotent in H. change (Z.shiftl 0 8) with 0 in H.
  rewrite iter_crc_bit_step_0 in H.
  symmetry in H. rewrite Z.shiftl_mul_pow2 in H by lia.
  assert (He2 : Z.lxor b2 b2' = 0) by lia.
  apply Z.lxor_eq in He2. exact He2.
Qed.

Lemma fold_left_two {A B : Type} (f : A -> B -> A) (a : A) (b1 b2 : B)
    (l : list B) :
  fold_left f (b1 :: b2 :: l) a = fold_left f l (f (f a b1) b2).
Proof. reflexivity. Qed.

(** Two buffers that differ in two adjacent bytes have different CRCs. *)
Lemma crc_of_two_bytes (p s : list Z) (b1 b2 b1' b2' : Z) :
  uint8 b1 -> uint8 b2 -> uint8 b1' -> uint8 b2' -> Forall uint8 s ->
  b1 <> b1' \/ b2 <> b2' ->
  crc_of (p ++ b1 :: b2 :: s) <> crc_of (p ++ b1' :: b2' :: s).
Proof.
  intros H1 H2 H1' H2' Hs Hne H.
  unfold crc_of in H. rewrite !fold_left_app, !fold_left_two in H.
  pose proof (fold_crc_update_range p CRC_INIT crc_init_range) as Hc.
  apply (fold_crc_update_inj s Hs) in H;
    [| apply crc_update_range | apply crc_update_range].
  destruct (crc_update_two_bytes _ b1 b2 b1' b2' Hc H1 H2 H1' H2' H) as [E1 E2].
  destruct Hne as [Hne | Hne]; [exact (Hne E1) | exact (Hne E2)].
Qed.

Lemma store_nat_twice_split (l : list Z) (j : nat) (v1 v2 : Z) :
  (S j < length l)%nat ->
  store_nat (store_nat l j v1) (S j) v2
  = firstn j l ++ v1 :: v2 :: skipn (S (S j)) l.
Proof.
  revert j. induction l as [|h t IH]; intros j Hj; cbn [length] in Hj; [lia|].
  destruct j as [|j].
  - destruct t as [|h' t]; cbn [length] in Hj; [lia | reflexivity].
  - cbn [store_nat firstn skipn app]. f_equal. apply IH. lia.
Qed.

Lemma list_split_two (l : list Z) (j : nat) :
  (S j < length l)%nat ->
  l = firstn j l ++ nth j l 0 :: nth (S j) l 0 :: skipn (S (S j)) l.
Proof.
  intros Hj.
  rewrite <- (skipn_cons_nth l (S j)) by exact Hj.
  apply list_split_nth. lia.
Qed.

Lemma crc_of_two_stores_differs (l : list Z) (j : nat) (v1 v2 : Z) :
  Forall uint8 l -> (S j < length l)%nat -> uint8 v1 -> uint8 v2 ->
  v1 <> nth j l 0 \/ v2 <> nth (S j) l 0 ->
  crc_of (store_nat (store_nat l j v1) (S j) v2) <> crc_of l.
Proof.
  intros Hl Hj Hv1 Hv2 Hne.
  rewrite store_nat_twice_split by exact Hj.
  rewrite (list_split_two l j Hj) at 3.
  apply crc_of_two_bytes; try assumption.
  - apply Forall_uint8_nth; [exact Hl | lia].
  - apply Forall_uint8_nth; assumption.
  - apply Forall_uint8_skipn, Hl.
Qed.

(** In a buffer that holds a valid serialized frame, any change confined to
    two adjacent bytes among msg_id and seq, or among the payload bytes
    (an error burst of up to 16 bits on a byte boundary, clear of the length
    byte and of the CRC bytes), makes [beam_parse_into_frame] return
    ESP_ERR_INVALID_CRC and leave the output frame unchanged. *)
Theorem adjacent_bytes_corruption_invalid_crc :
  forall (F : beam_frame_t) (buf : list Z) (size : Z) (osz : option Z) (k : nat)
         (buf' : list Z) (osz' : option Z) (data_len i v1 v2 : Z)
         (out : beam_frame_t) (k' : nat),
    frame_wf F ->
    size <= Z.of_nat (length buf) ->
    fst (beam_serialize_frame (Some F) (Some buf) size osz k)
    = (ESP_OK, Some buf', osz') ->
    FRAME_SIZE (len (header F)) <= data_len <= size ->
    i = 0 \/ FRAME_HEADER_SIZE <= i ->
    i + 1 < FRAME_HEADER_SIZE + len (header F) ->
    uint8 v1 -> uint8 v2 ->
    v1 <> byte_at buf' i \/ v2 <> byte_at buf' (i + 1) ->
    fst (beam_parse_into_frame (Some (store (store buf' i v1) (i + 1) v2))
           data_len (Some out) k')
    = (ESP_ERR_INVALID_CRC, Some out).
Proof.
  intros F buf size osz k buf' osz' data_len i v1 v2 out k'
         Hwf Hbuf Hser Hdata Hi Hi1 Hv1 Hv2 Hne.
  destruct (beam_serialize_frame_wf_inv _ _ _ _ _ _ _ Hwf Hbuf Hser)
    as (HL & Hpay & Hsz & ->).
  assert (HL' : 0 <= len (header F) <= Z.of_nat (length (payload F))) by lia.
  pose proof (frame_bytes_length F HL') as Hfb.
  pose proof (frame_bytes_uint8 F Hwf) as Hbytes.
  assert (H3 : FRAME_HEADER_SIZE = 3) by reflexivity.
  assert (Hfs : FRAME_SIZE (len (header F)) = len (header F) + 5) by
    (unfold FRAME_SIZE, FRAME_HEADER_SIZE, FRAME_CRC_SIZE; lia).
  set (tail := skipn (Z.to_nat (FRAME_SIZE (len (header F)))) buf) in *.
  assert (Htail : Z.of_nat (length tail)
                  = Z.of_nat (length buf) - FRAME_SIZE (len (header F)))
    by (subst tail; rewrite length_skipn; lia).
  assert (Hi0 : 0 <= i) by lia.
  rewrite beam_parse_into_frame_run by (unfold BEAM_FRAME_MIN_SIZE; lia).
  rewrite encode_app_split in Hne |- *.
  set (c := crc_of (frame_bytes F)) in *.
  pose proof (read_crc_split c (crc_of_range _)) as Hc.
  unfold store. unfold byte_at in Hne.
  replace (Z.to_nat (i + 1)) with (S (Z.to_nat i)) in Hne |- * by lia.
  rewrite !app_nth1 in Hne by lia.
  rewrite store_nat_app_l by lia.
  rewrite store_nat_app_l by (rewrite store_nat_length; lia).
  rewrite (parse_into_frame_wire_mismatch _ _ _ _ _ _ _ (len (header F)));
    try assumption; try lia.
  - reflexivity.
  - rewrite !store_nat_length. exact Hfb.
  - unfold byte_at. change (Z.to_nat 2) with 2%nat.
    rewrite !nth_store_nat_neq by lia. apply frame_bytes_byte_2.
  - rewrite length_app, !store_nat_length. cbn [length]. lia.
  - rewrite Hc. apply crc_of_two_stores_differs; try assumption. lia.
Qed.

Lemma adjacent_bytes_corruption_invalid_crc_witness :
  fst (beam_parse_into_frame
         (Some (store (store telemetry13_buffer 9 255) (9 + 1) 0)) 20
         (Some zero_frame) O)
  = (ESP_ERR_INVALID_CRC, Some zero_frame).
Proof.
  apply (adjacent_bytes_corruption_invalid_crc telemetry13_frame (repeat 7 20)
           20 None O telemetry13_buffer None 20 9 255 0 zero_frame O).
  - exact telemetry13_frame_wf.
  - vm_compute. discriminate.
  - vm_compute. reflexivity.
  - split; vm_compute; discriminate.
  - right. vm_compute. discriminate.
  - vm_compute. reflexivity.
  - split; vm_compute; [discriminate | reflexivity].
  - split; vm_compute; [discriminate | reflexivity].
  - left. vm_compute. discriminate.
Defined.

(** * The extended profile (4-byte header) *)

Lemma extended_fill_payload_eq (m : Z) (src : list Z) (L : Z) (p : beam_payload_t) :
  Extended.fill_payload m src L p = fill_payload m src L p.
Proof. reflexivity. Qed.

Lemma extended_header_eta (h : Extended.beam_frame_header_t) :
  Extended.mk_header (Extended.msg_category h) (Extended.flags h)
    (Extended.seq h) (Extended.len h) = h.
Proof. destruct h. reflexivity. Qed.

Lemma extended_frame_size (L : Z) : Extended.FRAME_SIZE L = L + 6.
Proof.
  unfold Extended.FRAME_SIZE, Extended.FRAME_HEADER_SIZE, Extended.FRAME_CRC_SIZE.
  lia.
Qed.

Section ExtendedProfile.
Variable esp_crc16_be : Z -> list Z -> Z -> Z.

(** ** The paths of the parser *)

Lemma extended_parse_len_over (data : list Z) (data_len : Z)
    (out : Extended.beam_frame_t) :
  MAX_PAYLOAD_SIZE < byte_at data 3 ->
  Extended.parse_into_frame esp_crc16_be data data_len out
  = (ESP_ERR_INVALID_SIZE, out).
Proof.
  intros H. unfold Extended.parse_into_frame.
  destruct (Extended.FRAME_HEADER_SIZE <=? data_len); [| reflexivity].
  destruct (Z.leb_spec (byte_at data 3) MAX_PAYLOAD_SIZE); [lia | reflexivity].
Qed.

Lemma extended_parse_truncated (data : list Z) (data_len : Z)
    (out : Extended.beam_frame_t) :
  data_len < Extended.FRAME_SIZE (byte_at data 3) ->
  Extended.parse_into_frame esp_crc16_be data data_len out
  = (ESP_ERR_INVALID_SIZE, out).
Proof.
  intros H. unfold Extended.parse_into_frame.
  destruct (Extended.FRAME_HEADER_SIZE <=? data_len); [| reflexivity].
  destruct (byte_at data 3 <=? MAX_PAYLOAD_SIZE); [| reflexivity].
  destruct (Z.leb_spec (Extended.FRAME_SIZE (byte_at data 3)) data_len);
    [lia | reflexivity].
Qed.

Lemma extended_parse_checked (data : list Z) (data_len : Z)
    (out : Extended.beam_frame_t) :
  0 <= byte_at data 3 <= MAX_PAYLOAD_SIZE ->
  Extended.FRAME_SIZE (byte_at data 3) <= data_len ->
  Extended.parse_into_frame esp_crc16_be data data_len out
  = if esp_crc16_be Extended.CRC_INIT data
         (Extended.FRAME_HEADER_SIZE + byte_at data 3)
       =? read_crc (byte_at data (Extended.FRAME_HEADER_SIZE + byte_at data 3))
                   (byte_at data (Extended.FRAME_HEADER_SIZE + byte_at data 3 + 1))
    then (ESP_OK,
          Extended.mk_frame
            (Extended.mk_header (byte_at data 0) (byte_at data 1)
               (byte_at data 2) (byte_at data 3))
            (fill_payload (byte_at data 0)
               (skipn (Z.to_nat Extended.FRAME_HEADER_SIZE) data)
               (byte_at data 3) (Extended.payload out))
            (read_crc (byte_at data (Extended.FRAME_HEADER_SIZE + byte_at data 3))
               (byte_at data (Extended.FRAME_HEADER_SIZE + byte_at data 3 + 1))))
    else (ESP_ERR_INVALID_CRC, out).
Proof.
  intros HL Hsize.
  pose proof (extended_frame_size (byte_at data 3)) as Hfs.
  assert (H4 : Extended.FRAME_HEADER_SIZE = 4) by reflexivity.
  unfold Extended.parse_into_frame.
  destruct (Z.leb_spec Extended.FRAME_HEADER_SIZE data_len); [| lia].
  destruct (Z.leb_spec (byte_at data 3) MAX_PAYLOAD_SIZE); [| lia].
  destruct (Z.leb_spec (Extended.FRAME_SIZE (byte_at data 3)) data_len); [| lia].
  cbn [negb].
  fold (read_crc (byte_at data (Extended.FRAME_HEADER_SIZE + byte_at data 3))
                 (byte_at data (Extended.FRAME_HEADER_SIZE + byte_at data 3 + 1))).
  destruct (_ =? _); reflexivity.
Qed.

Lemma extended_beam_parse_run (data : list Z) (data_len : Z)
    (out : Extended.beam_frame_t) :
  Extended.FRAME_MIN_SIZE <= data_len ->
  Extended.beam_parse_into_frame esp_crc16_be (Some data) data_len (Some out)
  = (fst (Extended.parse_into_frame esp_crc16_be data data_len out),
     Some (snd (Extended.parse_into_frame esp_crc16_be data data_len out))).
Proof.
  intros H. unfold Extended.beam_parse_into_frame.
  destruct (Z.leb_spec Extended.FRAME_MIN_SIZE data_len); [| lia].
  reflexivity.
Qed.

Lemma extended_beam_parse_below_min (data : list Z) (data_len : Z)
    (out : Extended.beam_frame_t) :
  data_len < Extended.FRAME_MIN_SIZE ->
  Extended.beam_parse_into_frame esp_crc16_be (Some data) data_len (Some out)
  = (ESP_ERR_INVALID_SIZE, Some out).
Proof.
  intros H. unfold Extended.beam_parse_into_frame.
  destruct (Z.leb_spec Extended.FRAME_MIN_SIZE data_len); [lia | reflexivity].
Qed.

Lemma extended_parse_atomic (d : list Z) (data_len : Z)
    (out : Extended.beam_frame_t) :
  fst (Extended.parse_into_frame esp_crc16_be d data_len out) <> ESP_OK ->
  snd (Extended.parse_into_frame esp_crc16_be d data_len out) = out.
Proof.
  unfold Extended.parse_into_frame.
  destruct (Extended.FRAME_HEADER_SIZE <=? data_len); [| reflexivity].
  destruct (byte_at d 3 <=? MAX_PAYLOAD_SIZE); [| reflexivity].
  destruct (Extended.FRAME_SIZE (byte_at d 3) <=? data_len); [| reflexivity].
  cbn [negb]. destruct (_ =? _); [| reflexivity].
  cbn [negb fst]. intros H. exfalso. apply H. reflexivity.
Qed.

(** Extended profile: whenever [beam_parse_into_frame] returns an error, the
    output frame is what it was.  It returns ESP_ERR_INVALID_ARG for a NULL
    argument, ESP_ERR_INVALID_SIZE for a buffer below [FRAME_MIN_SIZE = 6],
    for a declared length (byte 3) above [MAX_PAYLOAD_SIZE] and for a buffer
    shorter than [FRAME_SIZE len], ESP_ERR_INVALID_CRC when the two bytes
    after the payload are not the value of [esp_crc16_be] over header and
    payload, and otherwise ESP_OK with msg_category, flags, seq and len read
    from the bytes 0 to 3, the payload filled by [fill_payload] and the
    received CRC. *)
Theorem extended_parse_all_or_nothing :
  forall (data : option (list Z)) (data_len : Z)
         (out_frame : option Extended.beam_frame_t),
    (fst (Extended.beam_parse_into_frame esp_crc16_be data data_len out_frame)
     <> ESP_OK ->
     snd (Extended.beam_parse_into_frame esp_crc16_be data data_len out_frame)
     = out_frame)
    /\
    (data = None \/ out_frame = None ->
     Extended.beam_parse_into_frame esp_crc16_be data data_len out_frame
     = (ESP_ERR_INVALID_ARG, out_frame))
    /\
    (forall (d : list Z) (out : Extended.beam_frame_t),
        data = Some d -> out_frame = Some out ->
        0 <= byte_at d 3 ->
        (data_len < Extended.FRAME_MIN_SIZE ->
         Extended.beam_parse_into_frame esp_crc16_be data data_len out_frame
         = (ESP_ERR_INVALID_SIZE, out_frame))
        /\
        (MAX_PAYLOAD_SIZE < byte_at d 3 ->
         Extended.beam_parse_into_frame esp_crc16_be data data_len out_frame
         = (ESP_ERR_INVALID_SIZE, out_frame))
        /\
        (data_len < Extended.FRAME_SIZE (byte_at d 3) ->
         Extended.beam_parse_into_frame esp_crc16_be data data_len out_frame
         = (ESP_ERR_INVALID_SIZE, out_frame))
        /\
        (byte_at d 3 <= MAX_PAYLOAD_SIZE ->
         Extended.FRAME_SIZE (byte_at d 3) <= data_len ->
         esp_crc16_be Extended.CRC_INIT d
           (Extended.FRAME_HEADER_SIZE + byte_at d 3)
         <> read_crc (byte_at d (Extended.FRAME_HEADER_SIZE + byte_at d 3))
                     (byte_at d (Extended.FRAME_HEADER_SIZE + byte_at d 3 + 1)) ->
         Extended.beam_parse_into_frame esp_crc16_be data data_len out_frame
         = (ESP_ERR_INVALID_CRC, out_frame))
        /\
        (byte_at d 3 <= MAX_PAYLOAD_SIZE ->
         Extended.FRAME_SIZE (byte_at d 3) <= data_len ->
         esp_crc16_be Extended.CRC_INIT d
           (Extended.FRAME_HEADER_SIZE + byte_at d 3)
         = read_crc (byte_at d (Extended.FRAME_HEADER_SIZE + byte_at d 3))
                    (byte_at d (Extended.FRAME_HEADER_SIZE + byte_at d 3 + 1)) ->
         Extended.beam_parse_into_frame esp_crc16_be data data_len out_frame
         = (ESP_OK,
            Some (Extended.mk_frame
                    (Extended.mk_header (byte_at d 0) (byte_at d 1)
                       (byte_at d 2) (byte_at d 3))
                    (fill_payload (byte_at d 0)
                       (skipn (Z.to_nat Extended.FRAME_HEADER_SIZE) d)
                       (byte_at d 3) (Extended.payload out))
                    (read_crc
                       (byte_at d (Extended.FRAME_HEADER_SIZE + byte_at d 3))
                       (byte_at d (Extended.FRAME_HEADER_SIZE + byte_at d 3 + 1))))))).
Proof.
  intros data data_len out_frame.
  assert (Hmin6 : Extended.FRAME_MIN_SIZE = 6) by reflexivity.
  split; [| split].
  - destruct data as [d|]; [| intros _; reflexivity].
    destruct out_frame as [out|]; [| intros _; reflexivity].
    destruct (Z_lt_le_dec data_len Extended.FRAME_MIN_SIZE) as [Hmin|Hmin].
    + rewrite extended_beam_parse_below_min by exact Hmin.
      intros _. reflexivity.
    + rewrite extended_beam_parse_run by exact Hmin.
      cbn [fst snd]. intros H. f_equal.
      apply extended_parse_atomic. exact H.
  - intros [-> | ->]; [reflexivity|].
    destruct data; reflexivity.
  - intros d out -> -> Hb3.
    pose proof (extended_frame_size (byte_at d 3)) as Hfs.
    split; [| split; [| split; [| split]]].
    + intros Hmin. apply extended_beam_parse_below_min. exact Hmin.
    + intros Hover.
      destruct (Z_lt_le_dec data_len Extended.FRAME_MIN_SIZE) as [Hmin|Hmin].
      * apply extended_beam_parse_below_min. exact Hmin.
      * rewrite extended_beam_parse_run by exact Hmin.
        rewrite extended_parse_len_over by exact Hover. reflexivity.
    + intros Hshort.
      destruct (Z_lt_le_dec data_len Extended.FRAME_MIN_SIZE) as [Hmin|Hmin].
      * apply extended_beam_parse_below_min. exact Hmin.
      * rewrite extended_beam_parse_run by exact Hmin.
        rewrite extended_parse_truncated by exact Hshort. reflexivity.
    + intros Hmax Hsize Hcrc.
      rewrite extended_beam_parse_run by lia.
      rewrite extended_parse_checked by (try assumption; lia).
      apply Z.eqb_neq in Hcrc. rewrite Hcrc. reflexivity.
    + intros Hmax Hsize Hcrc.
      rewrite extended_beam_parse_run by lia.
      rewrite extended_parse_checked by (try assumption; lia).
      rewrite Hcrc, Z.eqb_refl. reflexivity.
Qed.

End ExtendedProfile.

Lemma extended_parse_all_or_nothing_witness :
  Extended.beam_parse_into_frame sample_crc16 (Some [1; 3; 9; 201; 0; 0; 0]) 7
    (Some extended_zero_frame)
  = (ESP_ERR_INVALID_SIZE, Some extended_zero_frame)
  /\ Extended.beam_parse_into_frame sample_crc16 (Some [1; 3; 9; 0; 0]) 5
       (Some extended_zero_frame)
     = (ESP_ERR_INVALID_SIZE, Some extended_zero_frame).
Proof.
  assert (Hb : 0 <= byte_at [1; 3; 9; 201; 0; 0; 0] 3) by (vm_compute; discriminate).
  assert (Ho : MAX_PAYLOAD_SIZE < byte_at [1; 3; 9; 201; 0; 0; 0] 3)
    by reflexivity.
  assert (Hb' : 0 <= byte_at [1; 3; 9; 0; 0] 3) by (vm_compute; discriminate).
  assert (Hm : 5 < Extended.FRAME_MIN_SIZE) by reflexivity.
  split.
  - exact (proj1 (proj2 (proj2 (proj2 (extended_parse_all_or_nothing sample_crc16
             (Some [1; 3; 9; 201; 0; 0; 0]) 7 (Some extended_zero_frame)))
             [1; 3; 9; 201; 0; 0; 0] extended_zero_frame eq_refl eq_refl Hb)) Ho).
  - exact (proj1 (proj2 (proj2 (extended_parse_all_or_nothing sample_crc16
             (Some [1; 3; 9; 0; 0]) 5 (Some extended_zero_frame)))
             [1; 3; 9; 0; 0] extended_zero_frame eq_refl eq_refl Hb') Hm).
Defined.

Lemma sample_crc16_crc_function : Extended.crc_function sample_crc16.
Proof.
  split.
  - intros c buf n. apply to_uint16_range.
  - intros c buf buf' n H. unfold sample_crc16. rewrite H. reflexivity.
Qed.

Section ExtendedCodec.
Variable esp_crc16_be : Z -> list Z -> Z -> Z.
Hypothesis Hcrc : Extended.crc_function esp_crc16_be.

(** ** The serializer writes the wire format *)

Lemma extended_frame_bytes_length (F : Extended.beam_frame_t) :
  0 <= Extended.len (Extended.header F)
    <= Z.of_nat (length (Extended.payload F)) ->
  Z.of_nat (length (Extended.frame_bytes F))
  = Extended.FRAME_HEADER_SIZE + Extended.len (Extended.header F).
Proof.
  intros H. unfold Extended.frame_bytes, Extended.FRAME_HEADER_SIZE.
  rewrite length_app, length_firstn. cbn [length]. lia.
Qed.

Lemma extended_encode_length (F : Extended.beam_frame_t) :
  0 <= Extended.len (Extended.header F)
    <= Z.of_nat (length (Extended.payload F)) ->
  Z.of_nat (length (Extended.encode esp_crc16_be F))
  = Extended.FRAME_SIZE (Extended.len (Extended.header F)).
Proof.
  intros H. unfold Extended.encode.
  rewrite length_app, Nat2Z.inj_add, extended_frame_bytes_length by exact H.
  rewrite extended_frame_size. cbn [length].
  unfold Extended.FRAME_HEADER_SIZE. lia.
Qed.

Lemma extended_crc_covered (F : Extended.beam_frame_t) (rest : list Z) :
  0 <= Extended.len (Extended.header F)
    <= Z.of_nat (length (Extended.payload F)) ->
  esp_crc16_be Extended.CRC_INIT (Extended.frame_bytes F ++ rest)
    (Extended.FRAME_HEADER_SIZE + Extended.len (Extended.header F))
  = Extended.frame_crc esp_crc16_be F.
Proof.
  intros HL. unfold Extended.frame_crc.
  apply (proj2 Hcrc).
  pose proof (extended_frame_bytes_length F HL) as Hfb.
  rewrite firstn_app_exact by lia.
  symmetry. rewrite <- (app_nil_r (Extended.frame_bytes F)) at 1.
  apply firstn_app_exact. lia.
Qed.

Lemma extended_serialize_frame_run (F : Extended.beam_frame_t) (buf : list Z)
    (size : Z) (osz : option Z) :
  0 <= Extended.len (Extended.header F)
    <= Z.of_nat (length (Extended.payload F)) ->
  Extended.FRAME_SIZE (Extended.len (Extended.header F)) <= size ->
  size <= Z.of_nat (length buf) ->
  Extended.serialize_frame esp_crc16_be F buf size osz
  = (ESP_OK,
     Extended.encode esp_crc16_be F
       ++ skipn (Z.to_nat (Extended.FRAME_SIZE (Extended.len (Extended.header F))))
            buf,
     match osz with
     | Some _ => Some (Extended.FRAME_SIZE (Extended.len (Extended.header F)))
     | None => None
     end).
Proof.
  intros HL Hsize Hbuf.
  pose proof (extended_frame_bytes_length F HL) as Hfb.
  pose proof (extended_frame_size (Extended.len (Extended.header F))) as Hfs.
  assert (H4 : Extended.FRAME_HEADER_SIZE = 4) by reflexivity.
  destruct buf as [|b0 [|b1 [|b2 [|b3 rest]]]];
    try (cbn [length] in Hbuf; lia).
  assert (Hrest : Extended.len (Extended.header F) + 2 <= Z.of_nat (length rest))
    by (cbn [length] in Hbuf; lia).
  unfold Extended.serialize_frame.
  destruct (Z.leb_spec (Extended.FRAME_SIZE (Extended.len (Extended.header F))) size);
    [| lia].
  cbn [negb].
  rewrite store_head, (store_cons _ _ 1), store_head by lia.
  rewrite (store_cons _ _ 2), (store_cons _ _ (2 - 1)), store_head by lia.
  rewrite (store_cons _ _ 3), (store_cons _ _ (3 - 1)),
    (store_cons _ _ (3 - 1 - 1)), store_head by lia.
  assert (Hcpy :
    memcpy (Extended.msg_category (Extended.header F)
            :: Extended.flags (Extended.header F)
            :: Extended.seq (Extended.header F)
            :: Extended.len (Extended.header F) :: rest)
      Extended.FRAME_HEADER_SIZE (Extended.payload F)
      (Extended.len (Extended.header F))
    = Extended.frame_bytes F
      ++ skipn (Z.to_nat (Extended.len (Extended.header F))) rest).
  { unfold memcpy, Extended.frame_bytes. rewrite H4.
    replace (Z.to_nat (4 + Extended.len (Extended.header F)))
      with (S (S (S (S (Z.to_nat (Extended.len (Extended.header F)))))))
      by lia.
    replace (Z.to_nat 4) with 4%nat by reflexivity.
    cbn [firstn skipn app].
    reflexivity. }
  rewrite Hcpy. clear Hcpy.
  rewrite extended_crc_covered by exact HL.
  rewrite (skipn_cons_nth rest (Z.to_nat (Extended.len (Extended.header F))))
    by lia.
  rewrite (skipn_cons_nth rest (S (Z.to_nat (Extended.len (Extended.header F)))))
    by lia.
  rewrite (store_app (Extended.frame_bytes F)) by lia.
  replace (Extended.FRAME_HEADER_SIZE + Extended.len (Extended.header F)
           - Z.of_nat (length (Extended.frame_bytes F))) with 0 by lia.
  rewrite store_head.
  rewrite (store_app (Extended.frame_bytes F)) by lia.
  replace (Extended.FRAME_HEADER_SIZE + Extended.len (Extended.header F) + 1
           - Z.of_nat (length (Extended.frame_bytes F))) with 1 by lia.
  rewrite (store_cons _ _ 1), store_head by lia.
  unfold Extended.encode. rewrite <- app_assoc.
  replace (Z.to_nat (Extended.FRAME_SIZE (Extended.len (Extended.header F))))
    with (S (S (S (S (S (S (Z.to_nat (Extended.len (Extended.header F)))))))))
    by lia.
  cbn [skipn app].
  reflexivity.
Qed.

End ExtendedCodec.

Section ExtendedTheorems.
Variable esp_crc16_be : Z -> list Z -> Z -> Z.
Hypothesis Hcrc : Extended.crc_function esp_crc16_be.

Lemma extended_beam_serialize_run (F : Extended.beam_frame_t) (buf : list Z)
    (size : Z) (osz : option Z) :
  0 <= Extended.len (Extended.header F)
    <= Z.of_nat (length (Extended.payload F)) ->
  size <= Z.of_nat (length buf) ->
  Extended.beam_serialize_frame esp_crc16_be (Some F) (Some buf) size osz
  = if Extended.len (Extended.header F) <=? MAX_PAYLOAD_SIZE then
      if Extended.FRAME_SIZE (Extended.len (Extended.header F)) <=? size then
        (ESP_OK,
         Some (Extended.encode esp_crc16_be F
               ++ skipn (Z.to_nat (Extended.FRAME_SIZE
                                     (Extended.len (Extended.header F)))) buf),
         match osz with
         | Some _ => Some (Extended.FRAME_SIZE (Extended.len (Extended.header F)))
         | None => None
         end)
      else (ESP_ERR_INVALID_SIZE, Some buf, osz)
    else (ESP_ERR_INVALID_STATE, Some buf, osz).
Proof.
  intros HL Hbuf. unfold Extended.beam_serialize_frame.
  destruct (Extended.len (Extended.header F) <=? MAX_PAYLOAD_SIZE);
    [| reflexivity].
  cbn [negb].
  destruct (Z.leb_spec (Extended.FRAME_SIZE (Extended.len (Extended.header F)))
              size) as [Hs|Hs].
  - rewrite (extended_serialize_frame_run esp_crc16_be Hcrc) by assumption.
    reflexivity.
  - unfold Extended.serialize_frame.
    destruct (Z.leb_spec (Extended.FRAME_SIZE (Extended.len (Extended.header F)))
                size); [lia|].
    reflexivity.
Qed.

Lemma extended_encode_app_cons (F : Extended.beam_frame_t) (tail : list Z) :
  Extended.encode esp_crc16_be F ++ tail
  = Extended.msg_category (Extended.header F)
      :: Extended.flags (Extended.header F)
      :: Extended.seq (Extended.header F)
      :: Extended.len (Extended.header F)
      :: (firstn (Z.to_nat (Extended.len (Extended.header F))) (Extended.payload F)
          ++ [crc_lo (Extended.frame_crc esp_crc16_be F);
              crc_hi (Extended.frame_crc esp_crc16_be F)]
          ++ tail).
Proof.
  unfold Extended.encode, Extended.frame_bytes. rewrite <- !app_assoc.
  reflexivity.
Qed.

Lemma extended_encode_app_split (F : Extended.beam_frame_t) (tail : list Z) :
  Extended.encode esp_crc16_be F ++ tail
  = Extended.frame_bytes F
    ++ crc_lo (Extended.frame_crc esp_crc16_be F)
       :: crc_hi (Extended.frame_crc esp_crc16_be F) :: tail.
Proof. unfold Extended.encode. rewrite <- app_assoc. reflexivity. Qed.

Lemma extended_encode_byte_3 (F : Extended.beam_frame_t) (tail : list Z) :
  byte_at (Extended.encode esp_crc16_be F ++ tail) 3
  = Extended.len (Extended.header F).
Proof. rewrite extended_encode_app_cons. reflexivity. Qed.

Lemma extended_parse_encode (F : Extended.beam_frame_t) (tail : list Z)
    (data_len : Z) (out : Extended.beam_frame_t) :
  0 <= Extended.len (Extended.header F) <= MAX_PAYLOAD_SIZE ->
  Extended.len (Extended.header F) <= Z.of_nat (length (Extended.payload F)) ->
  Extended.FRAME_SIZE (Extended.len (Extended.header F)) <= data_len ->
  Extended.parse_into_frame esp_crc16_be
    (Extended.encode esp_crc16_be F ++ tail) data_len out
  = (ESP_OK,
     Extended.mk_frame (Extended.header F)
       (firstn (Z.to_nat (stored_size (Extended.msg_category (Extended.header F))
                            (Extended.len (Extended.header F))))
               (Extended.payload F)
        ++ skipn (Z.to_nat (stored_size (Extended.msg_category (Extended.header F))
                              (Extended.len (Extended.header F))))
                 (Extended.payload out))
       (Extended.frame_crc esp_crc16_be F)).
Proof.
  intros HL Hpay Hsize.
  assert (HL' : 0 <= Extended.len (Extended.header F)
                <= Z.of_nat (length (Extended.payload F))) by lia.
  pose proof (extended_frame_bytes_length F HL') as Hfb.
  assert (H4 : Extended.FRAME_HEADER_SIZE = 4) by reflexivity.
  pose proof (stored_size_bounds (Extended.msg_category (Extended.header F))
                (Extended.len (Extended.header F)) (proj1 HL)) as Hn.
  rewrite extended_parse_checked
    by (rewrite extended_encode_byte_3; assumption).
  rewrite extended_encode_byte_3.
  assert (Hexp : esp_crc16_be Extended.CRC_INIT
                   (Extended.encode esp_crc16_be F ++ tail)
                   (Extended.FRAME_HEADER_SIZE + Extended.len (Extended.header F))
                 = Extended.frame_crc esp_crc16_be F).
  { rewrite extended_encode_app_split.
    apply (extended_crc_covered esp_crc16_be Hcrc). exact HL'. }
  assert (Hrec : read_crc
                   (byte_at (Extended.encode esp_crc16_be F ++ tail)
                      (Extended.FRAME_HEADER_SIZE + Extended.len (Extended.header F)))
                   (byte_at (Extended.encode esp_crc16_be F ++ tail)
                      (Extended.FRAME_HEADER_SIZE
                       + Extended.len (Extended.header F) + 1))
                 = Extended.frame_crc esp_crc16_be F).
  { rewrite extended_encode_app_split, !byte_at_app_r by lia.
    replace (Extended.FRAME_HEADER_SIZE + Extended.len (Extended.header F)
             - Z.of_nat (length (Extended.frame_bytes F))) with 0 by lia.
    replace (Extended.FRAME_HEADER_SIZE + Extended.len (Extended.header F) + 1
             - Z.of_nat (length (Extended.frame_bytes F))) with 1 by lia.
    change (byte_at (?a :: _) 0) with a.
    change (byte_at (_ :: ?b :: _) 1) with b.
    apply read_crc_split. apply (proj1 Hcrc). }
  rewrite Hexp, Hrec, Z.eqb_refl.
  rewrite fill_payload_stored_size, memcpy_0.
  rewrite extended_encode_app_cons.
  change (Z.to_nat Extended.FRAME_HEADER_SIZE) with 4%nat.
  cbn [skipn].
  change (byte_at (?a :: _) 0) with a.
  change (byte_at (_ :: ?b :: _) 1) with b.
  change (byte_at (_ :: _ :: ?c :: _) 2) with c.
  rewrite firstn_app_le by (rewrite length_firstn; lia).
  rewrite firstn_firstn_le by lia.
  rewrite extended_header_eta. reflexivity.
Qed.

(** Extended profile, round trip: a frame with [0 <= len <= MAX_PAYLOAD_SIZE]
    serializes into any buffer with room for it, and parsing the buffer
    succeeds with the same header (msg_category, flags, seq, len), the CRC
    that was serialized, and the first [stored_size] payload bytes of the
    frame (all [len] bytes when [stored_size] is [len]); the rest of the
    output payload keeps its previous content.  This holds for any CRC
    function that returns a 16-bit value and reads the announced bytes
    only. *)
Theorem extended_serialize_parse_roundtrip :
  forall (F : Extended.beam_frame_t) (buf : list Z) (size : Z) (osz : option Z)
         (out : Extended.beam_frame_t) (data_len : Z),
    0 <= Extended.len (Extended.header F) <= MAX_PAYLOAD_SIZE ->
    Extended.len (Extended.header F) <= Z.of_nat (length (Extended.payload F)) ->
    Extended.FRAME_SIZE (Extended.len (Extended.header F)) <= size ->
    size <= Z.of_nat (length buf) ->
    Extended.FRAME_SIZE (Extended.len (Extended.header F)) <= data_len <= size ->
    exists (buf' : list Z) (out' : Extended.beam_frame_t),
      Extended.beam_serialize_frame esp_crc16_be (Some F) (Some buf) size osz
      = (ESP_OK, Some buf',
         match osz with
         | Some _ => Some (Extended.FRAME_SIZE (Extended.len (Extended.header F)))
         | None => None
         end)
      /\ Extended.beam_parse_into_frame esp_crc16_be (Some buf') data_len (Some out)
         = (ESP_OK, Some out')
      /\ Extended.header out' = Extended.header F
      /\ Extended.crc out'
         = read_crc
             (byte_at buf' (Extended.FRAME_HEADER_SIZE
                            + Extended.len (Extended.header F)))
             (byte_at buf' (Extended.FRAME_HEADER_SIZE
                            + Extended.len (Extended.header F) + 1))
      /\ Extended.payload out'
         = firstn (Z.to_nat (stored_size (Extended.msg_category (Extended.header F))
                               (Extended.len (Extended.header F))))
                  (Extended.payload F)
           ++ skipn (Z.to_nat (stored_size (Extended.msg_category (Extended.header F))
                                 (Extended.len (Extended.header F))))
                    (Extended.payload out)
      /\ (stored_size (Extended.msg_category (Extended.header F))
            (Extended.len (Extended.header F))
          = Extended.len (Extended.header F) ->
          firstn (Z.to_nat (Extended.len (Extended.header F))) (Extended.payload out')
          = firstn (Z.to_nat (Extended.len (Extended.header F)))
                   (Extended.payload F)).
Proof.
  intros F buf size osz out data_len HL Hpay Hsize Hbuf Hdata.
  assert (HL' : 0 <= Extended.len (Extended.header F)
                <= Z.of_nat (length (Extended.payload F))) by lia.
  pose proof (extended_frame_size (Extended.len (Extended.header F))) as Hfs.
  pose proof (extended_frame_bytes_length F HL') as Hfb.
  assert (Hmin6 : Extended.FRAME_MIN_SIZE = 6) by reflexivity.
  rewrite extended_beam_serialize_run by assumption.
  destruct (Z.leb_spec (Extended.len (Extended.header F)) MAX_PAYLOAD_SIZE);
    [| lia].
  destruct (Z.leb_spec (Extended.FRAME_SIZE (Extended.len (Extended.header F)))
              size); [| lia].
  eexists. eexists.
  split; [reflexivity|].
  rewrite extended_beam_parse_run by lia.
  rewrite extended_parse_encode by (try assumption; lia).
  cbn [fst snd].
  split; [reflexivity|].
  cbn [Extended.header Extended.payload Extended.crc].
  split; [reflexivity|].
  split.
  { rewrite extended_encode_app_split, !byte_at_app_r by lia.
    replace (Extended.FRAME_HEADER_SIZE + Extended.len (Extended.header F)
             - Z.of_nat (length (Extended.frame_bytes F))) with 0 by lia.
    replace (Extended.FRAME_HEADER_SIZE + Extended.len (Extended.header F) + 1
             - Z.of_nat (length (Extended.frame_bytes F))) with 1 by lia.
    change (byte_at (?a :: _) 0) with a.
    change (byte_at (_ :: ?b :: _) 1) with b.
    symmetry. apply read_crc_split. apply (proj1 Hcrc). }
  split; [reflexivity|].
  intros Hst. rewrite Hst.
  apply firstn_app_exact. rewrite length_firstn. lia.
Qed.

End ExtendedTheorems.

Lemma extended_serialize_parse_roundtrip_witness :
  exists (buf' : list Z) (out' : Extended.beam_frame_t),
    Extended.beam_serialize_frame sample_crc16 (Some battery7_frame)
      (Some (repeat 7 16)) 15 (Some 0)
    = (ESP_OK, Some buf', Some 13)
    /\ Extended.beam_parse_into_frame sample_crc16 (Some buf') 14
         (Some extended_zero_frame)
       = (ESP_OK, Some out')
    /\ Extended.header out' = Extended.header battery7_frame
    /\ Extended.payload out' = [1; 2; 3; 4; 5] ++ repeat 0 195.
Proof.
  assert (HL : 0 <= Extended.len (Extended.header battery7_frame)
               <= MAX_PAYLOAD_SIZE) by (split; vm_compute; discriminate).
  assert (Hp : Extended.len (Extended.header battery7_frame)
               <= Z.of_nat (length (Extended.payload battery7_frame)))
    by (vm_compute; discriminate).
  assert (Hs : Extended.FRAME_SIZE (Extended.len (Extended.header battery7_frame))
               <= 15) by (vm_compute; discriminate).
  assert (Hb : 15 <= Z.of_nat (length (repeat 7 16)))
    by (vm_compute; discriminate).
  assert (Hd : Extended.FRAME_SIZE (Extended.len (Extended.header battery7_frame))
               <= 14 <= 15) by (split; vm_compute; discriminate).
  destruct (extended_serialize_parse_roundtrip sample_crc16
              sample_crc16_crc_function battery7_frame (repeat 7 16) 15 (Some 0)
              extended_zero_frame 14 HL Hp Hs Hb Hd)
    as (buf' & out' & Hser & Hpar & Hh & _ & Hpl & _).
  exists buf', out'.
  split; [exact Hser|].
  split; [exact Hpar|].
  split; [exact Hh|].
  exact Hpl.
Defined.

Section ExtendedSerializer.
Variable esp_crc16_be : Z -> list Z -> Z -> Z.
Hypothesis Hcrc : Extended.crc_function esp_crc16_be.

(** Extended profile, truncation: a buffer obtained by cutting a serialized
    frame to fewer than [FRAME_SIZE len] bytes is rejected with
    ESP_ERR_INVALID_SIZE, the output frame unchanged. *)
Theorem extended_truncated_frame_invalid_size :
  forall (F : Extended.beam_frame_t) (buf : list Z) (size : Z) (osz : option Z)
         (buf' : list Z) (osz' : option Z) (n : Z) (out : Extended.beam_frame_t),
    0 <= Extended.len (Extended.header F)
      <= Z.of_nat (length (Extended.payload F)) ->
    size <= Z.of_nat (length buf) ->
    Extended.beam_serialize_frame esp_crc16_be (Some F) (Some buf) size osz
    = (ESP_OK, Some buf', osz') ->
    0 <= n < Extended.FRAME_SIZE (Extended.len (Extended.header F)) ->
    Extended.beam_parse_into_frame esp_crc16_be
      (Some (firstn (Z.to_nat n) buf')) n (Some out)
    = (ESP_ERR_INVALID_SIZE, Some out).
Proof.
  intros F buf size osz buf' osz' n out HL Hbuf Hser Hn.
  rewrite (extended_beam_serialize_run esp_crc16_be Hcrc) in Hser by assumption.
  destruct (Z.leb_spec (Extended.len (Extended.header F)) MAX_PAYLOAD_SIZE);
    [| discriminate Hser].
  destruct (Z.leb_spec (Extended.FRAME_SIZE (Extended.len (Extended.header F)))
              size); [| discriminate Hser].
  assert (Hb : buf' = Extended.encode esp_crc16_be F
                      ++ skipn (Z.to_nat (Extended.FRAME_SIZE
                                            (Extended.len (Extended.header F))))
                           buf) by congruence.
  subst buf'. clear Hser.
  assert (Hmin6 : Extended.FRAME_MIN_SIZE = 6) by reflexivity.
  destruct (Z_lt_le_dec n Extended.FRAME_MIN_SIZE) as [Hmin|Hmin].
  - apply extended_beam_parse_below_min. exact Hmin.
  - rewrite extended_beam_parse_run by exact Hmin.
    rewrite extended_parse_truncated; [reflexivity|].
    rewrite byte_at_firstn by lia.
    rewrite extended_encode_byte_3. lia.
Qed.

End ExtendedSerializer.

(** Extended profile, serializer, for every call and every [esp_crc16_be].
    The result is ESP_ERR_INVALID_ARG for a NULL frame or buffer,
    ESP_ERR_INVALID_STATE for a frame with [len > MAX_PAYLOAD_SIZE]
    (whatever the buffer and its size) and ESP_ERR_INVALID_SIZE for
    [buffer_size < FRAME_SIZE len = 4 + len + 2]; in these cases the buffer
    and [*out_size] are unchanged.  Otherwise, for a CRC function that
    returns a 16-bit value and reads the announced bytes only, it is ESP_OK,
    the buffer holds msg_category, flags, seq and len at the offsets 0 to 3,
    the first [len] payload bytes from offset 4, the value of
    [esp_crc16_be] over these [4 + len] bytes at the offsets [4 + len] (low
    byte) and [5 + len] (high byte), a non-NULL [out_size] receives
    [FRAME_SIZE len], and the bytes from offset [FRAME_SIZE len] on are
    unchanged. *)
Theorem extended_serialize_result :
  forall (esp_crc16_be : Z -> list Z -> Z -> Z)
         (frame : option Extended.beam_frame_t) (out_buffer : option (list Z))
         (size : Z) (osz : option Z),
    (frame = None \/ out_buffer = None ->
     Extended.beam_serialize_frame esp_crc16_be frame out_buffer size osz
     = (ESP_ERR_INVALID_ARG, out_buffer, osz))
    /\
    (forall (F : Extended.beam_frame_t) (buf : list Z),
        frame = Some F -> out_buffer = Some buf ->
        (MAX_PAYLOAD_SIZE < Extended.len (Extended.header F) ->
         Extended.beam_serialize_frame esp_crc16_be frame out_buffer size osz
         = (ESP_ERR_INVALID_STATE, Some buf, osz))
        /\
        (Extended.len (Extended.header F) <= MAX_PAYLOAD_SIZE ->
         size < Extended.FRAME_SIZE (Extended.len (Extended.header F)) ->
         Extended.beam_serialize_frame esp_crc16_be frame out_buffer size osz
         = (ESP_ERR_INVALID_SIZE, Some buf, osz))
        /\
        (Extended.crc_function esp_crc16_be ->
         0 <= Extended.len (Extended.header F) <= MAX_PAYLOAD_SIZE ->
         Extended.len (Extended.header F)
         <= Z.of_nat (length (Extended.payload F)) ->
         Extended.FRAME_SIZE (Extended.len (Extended.header F)) <= size ->
         size <= Z.of_nat (length buf) ->
         exists buf' : list Z,
           Extended.beam_serialize_frame esp_crc16_be frame out_buffer size osz
           = (ESP_OK, Some buf',
              match osz with
              | Some _ =>
                Some (Extended.FRAME_SIZE (Extended.len (Extended.header F)))
              | None => None
              end)
           /\ byte_at buf' 0 = Extended.msg_category (Extended.header F)
           /\ byte_at buf' 1 = Extended.flags (Extended.header F)
           /\ byte_at buf' 2 = Extended.seq (Extended.header F)
           /\ byte_at buf' 3 = Extended.len (Extended.header F)
           /\ firstn (Z.to_nat (Extended.len (Extended.header F)))
                     (skipn (Z.to_nat Extended.FRAME_HEADER_SIZE) buf')
              = firstn (Z.to_nat (Extended.len (Extended.header F)))
                       (Extended.payload F)
           /\ byte_at buf' (Extended.FRAME_HEADER_SIZE
                            + Extended.len (Extended.header F))
              = esp_crc16_be Extended.CRC_INIT buf'
                  (Extended.FRAME_HEADER_SIZE + Extended.len (Extended.header F))
                mod 256
           /\ byte_at buf' (Extended.FRAME_HEADER_SIZE
                            + Extended.len (Extended.header F) + 1)
              = esp_crc16_be Extended.CRC_INIT buf'
                  (Extended.FRAME_HEADER_SIZE + Extended.len (Extended.header F))
                / 256
           /\ length buf' = length buf
           /\ skipn (Z.to_nat (Extended.FRAME_SIZE
                                 (Extended.len (Extended.header F)))) buf'
              = skipn (Z.to_nat (Extended.FRAME_SIZE
                                   (Extended.len (Extended.header F)))) buf)).
Proof.
  intros esp_crc16_be frame out_buffer size osz.
  split.
  { intros [-> | ->]; [reflexivity|]. destruct frame; reflexivity. }
  intros F buf -> ->.
  pose proof (extended_frame_size (Extended.len (Extended.header F))) as Hfs.
  assert (H4 : Extended.FRAME_HEADER_SIZE = 4) by reflexivity.
  split; [| split].
  - intros Hover. cbn [Extended.beam_serialize_frame].
    destruct (Z.leb_spec (Extended.len (Extended.header F)) MAX_PAYLOAD_SIZE);
      [lia | reflexivity].
  - intros Hmax Hsmall. cbn [Extended.beam_serialize_frame].
    destruct (Z.leb_spec (Extended.len (Extended.header F)) MAX_PAYLOAD_SIZE);
      [| lia].
    unfold Extended.serialize_frame.
    destruct (Z.leb_spec (Extended.FRAME_SIZE (Extended.len (Extended.header F)))
                size); [lia | reflexivity].
  - intros Hcrc [HL0 Hmax] Hpay Hsz Hbuf.
    assert (HL : 0 <= Extended.len (Extended.header F)
                 <= Z.of_nat (length (Extended.payload F))) by lia.
    pose proof (extended_frame_bytes_length F HL) as Hfb.
    pose proof (extended_encode_length esp_crc16_be F HL) as Henc.
    rewrite (extended_beam_serialize_run esp_crc16_be Hcrc) by assumption.
    destruct (Z.leb_spec (Extended.len (Extended.header F)) MAX_PAYLOAD_SIZE);
      [| lia].
    destruct (Z.leb_spec (Extended.FRAME_SIZE (Extended.len (Extended.header F)))
                size); [| lia].
    eexists. split; [reflexivity|].
    set (tail := skipn (Z.to_nat (Extended.FRAME_SIZE
                                    (Extended.len (Extended.header F)))) buf).
    assert (Hc : esp_crc16_be Extended.CRC_INIT
                   (Extended.encode esp_crc16_be F ++ tail)
                   (Extended.FRAME_HEADER_SIZE + Extended.len (Extended.header F))
                 = Extended.frame_crc esp_crc16_be F).
    { rewrite extended_encode_app_split.
      apply (extended_crc_covered esp_crc16_be Hcrc). exact HL. }
    rewrite Hc.
    split; [rewrite extended_encode_app_cons; reflexivity|].
    split; [rewrite extended_encode_app_cons; reflexivity|].
    split; [rewrite extended_encode_app_cons; reflexivity|].
    split; [rewrite extended_encode_app_cons; reflexivity|].
    split.
    { rewrite extended_encode_app_cons.
      change (Z.to_nat Extended.FRAME_HEADER_SIZE) with 4%nat. cbn [skipn].
      rewrite firstn_app_le by (rewrite length_firstn; lia).
      apply firstn_firstn_le. lia. }
    split.
    { rewrite extended_encode_app_split, byte_at_app_r by lia.
      replace (Extended.FRAME_HEADER_SIZE + Extended.len (Extended.header F)
               - Z.of_nat (length (Extended.frame_bytes F))) with 0 by lia.
      change (byte_at (?a :: _) 0) with a. apply crc_lo_mod. }
    split.
    { rewrite extended_encode_app_split, byte_at_app_r by lia.
      replace (Extended.FRAME_HEADER_SIZE + Extended.len (Extended.header F) + 1
               - Z.of_nat (length (Extended.frame_bytes F))) with 1 by lia.
      change (byte_at (_ :: ?b :: _) 1) with b.
      apply crc_hi_div. apply (proj1 Hcrc). }
    split.
    { apply Nat2Z.inj. subst tail.
      rewrite length_app, Nat2Z.inj_add, Henc, length_skipn. lia. }
    apply skipn_app_exact. lia.
Qed.

Lemma extended_serialize_result_witness :
  Extended.beam_serialize_frame sample_crc16 (Some extended_oversize_frame)
    (Some (repeat 7 300)) 300 (Some 0)
  = (ESP_ERR_INVALID_STATE, Some (repeat 7 300), Some 0)
  /\ Extended.beam_serialize_frame sample_crc16 (Some battery7_frame) None
       15 (Some 0)
     = (ESP_ERR_INVALID_ARG, None, Some 0)
  /\ Extended.beam_serialize_frame sample_crc16 (Some battery7_frame)
       (Some (repeat 7 16)) 12 (Some 0)
     = (ESP_ERR_INVALID_SIZE, Some (repeat 7 16), Some 0)
  /\ exists buf' : list Z,
       Extended.beam_serialize_frame sample_crc16 (Some battery7_frame)
         (Some (repeat 7 16)) 15 (Some 0)
       = (ESP_OK, Some buf', Some 13)
       /\ byte_at buf' 1 = 3
       /\ length buf' = 16%nat
       /\ skipn 13 buf' = [7; 7; 7].
Proof.
  assert (Ho : MAX_PAYLOAD_SIZE
               < Extended.len (Extended.header extended_oversize_frame))
    by reflexivity.
  assert (HL : 0 <= Extended.len (Extended.header battery7_frame)
               <= MAX_PAYLOAD_SIZE) by (split; vm_compute; discriminate).
  assert (Hp : Extended.len (Extended.header battery7_frame)
               <= Z.of_nat (length (Extended.payload battery7_frame)))
    by (vm_compute; discriminate).
  assert (Hb' : 15 <= Z.of_nat (length (repeat 7 16)))
    by (vm_compute; discriminate).
  assert (Hs : 12 < Extended.FRAME_SIZE (Extended.len (Extended.header battery7_frame)))
    by reflexivity.
  assert (Hs' : Extended.FRAME_SIZE (Extended.len (Extended.header battery7_frame))
                <= 15) by (vm_compute; discriminate).
  split; [| split; [| split]].
  - exact (proj1 (proj2 (extended_serialize_result sample_crc16
             (Some extended_oversize_frame) (Some (repeat 7 300)) 300 (Some 0))
             extended_oversize_frame (repeat 7 300) eq_refl eq_refl) Ho).
  - apply (proj1 (extended_serialize_result sample_crc16
             (Some battery7_frame) None 15 (Some 0))).
    right. reflexivity.
  - exact (proj1 (proj2 (proj2 (extended_serialize_result sample_crc16
             (Some battery7_frame) (Some (repeat 7 16)) 12 (Some 0))
             battery7_frame (repeat 7 16) eq_refl eq_refl)) (proj2 HL) Hs).
  - destruct (proj2 (proj2 (proj2 (extended_serialize_result sample_crc16
                (Some battery7_frame) (Some (repeat 7 16)) 15 (Some 0))
                battery7_frame (repeat 7 16) eq_refl eq_refl))
                sample_crc16_crc_function HL Hp Hs' Hb')
      as (buf' & Hser & _ & Hf & _ & _ & _ & _ & _ & Hlen & Htail).
    exists buf'.
    split; [exact Hser|].
    split; [exact Hf|].
    split; [exact Hlen|].
    exact Htail.
Defined.

Lemma extended_truncated_frame_invalid_size_witness :
  Extended.beam_parse_into_frame sample_crc16
    (Some (firstn (Z.to_nat 9)
             (Extended.encode sample_crc16 battery7_frame
              ++ skipn 13 (repeat 7 16))))
    9 (Some extended_zero_frame)
  = (ESP_ERR_INVALID_SIZE, Some extended_zero_frame).
Proof.
  apply (extended_truncated_frame_invalid_size sample_crc16
           sample_crc16_crc_function battery7_frame (repeat 7 16) 15 None
           (Extended.encode sample_crc16 battery7_frame ++ skipn 13 (repeat 7 16))
           None 9 extended_zero_frame).
  - split; vm_compute; discriminate.
  - vm_compute. discriminate.
  - vm_compute. reflexivity.
  - split; vm_compute; [discriminate | reflexivity].
Defined.

(** * The first parser: beam_validate_frame *)

(** The older and the newer parser, side by side: the same checks in the
    same order; on success the older one copies all the declared bytes. *)
Lemma legacy_parse_cases (d : list Z) (data_len : Z) (out : beam_frame_t)
    (k : nat) :
  (fst (fst (parse_into_frame d data_len out k)) <> ESP_OK
   /\ Legacy.beam_parse_frame_into MAX_PAYLOAD_SIZE d data_len out k
      = parse_into_frame d data_len out k)
  \/
  (parse_into_frame d data_len out k
   = ((ESP_OK, parsed_frame d out), snd (parse_into_frame d data_len out k))
   /\ Legacy.beam_parse_frame_into MAX_PAYLOAD_SIZE d data_len out k
      = ((ESP_OK,
          set_payload (parsed_frame d out)
            (memcpy (payload out) 0 (skipn (Z.to_nat FRAME_HEADER_SIZE) d)
               (byte_at d 2))),
         snd (parse_into_frame d data_len out k))).
Proof.
  unfold Legacy.beam_parse_frame_into, parse_into_frame.
  destruct (FRAME_HEADER_SIZE <=? data_len);
    [| left; split; [discriminate | reflexivity]].
  destruct (byte_at d 2 <=? MAX_PAYLOAD_SIZE);
    [| left; split; [discriminate | reflexivity]].
  change (FRAME_HEADER_SIZE + byte_at d 2 + FRAME_CRC_SIZE)
    with (FRAME_SIZE (byte_at d 2)).
  destruct (FRAME_SIZE (byte_at d 2) <=? data_len);
    [| left; split; [discriminate | reflexivity]].
  change (Legacy.beam_compute_frame_crc d (byte_at d 2))
    with (compute_frame_crc d (byte_at d 2)).
  rewrite !bind_run.
  destruct (_ =? _).
  - right. split; reflexivity.
  - left. split; [discriminate | reflexivity].
Qed.

(** With the same [MAX_PAYLOAD_SIZE], [beam_validate_frame] and
    [beam_parse_into_frame] return the same error code after the same number
    of CRC updates on every input; when they fail, they leave the same
    output frame; when they succeed, their frames have the same header and
    CRC, the older parser holding all the declared payload bytes; the two
    frames are equal when the dispatcher stores all the declared bytes. *)
Theorem validate_agrees_with_parse :
  forall (data : option (list Z)) (data_len : Z)
         (out_frame : option beam_frame_t) (k : nat),
    fst (fst (Legacy.beam_validate_frame MAX_PAYLOAD_SIZE data data_len out_frame k))
    = fst (fst (beam_parse_into_frame data data_len out_frame k))
    /\ snd (Legacy.beam_validate_frame MAX_PAYLOAD_SIZE data data_len out_frame k)
       = snd (beam_parse_into_frame data data_len out_frame k)
    /\ (fst (fst (beam_parse_into_frame data data_len out_frame k)) <> ESP_OK ->
        Legacy.beam_validate_frame MAX_PAYLOAD_SIZE data data_len out_frame k
        = beam_parse_into_frame data data_len out_frame k)
    /\ (forall (d : list Z) (out f' : beam_frame_t),
           data = Some d -> out_frame = Some out ->
           fst (beam_parse_into_frame data data_len out_frame k)
           = (ESP_OK, Some f') ->
           fst (Legacy.beam_validate_frame MAX_PAYLOAD_SIZE data data_len
                  out_frame k)
           = (ESP_OK,
              Some (set_payload f'
                      (memcpy (payload out) 0
                         (skipn (Z.to_nat FRAME_HEADER_SIZE) d) (byte_at d 2))))
           /\ (stored_size (byte_at d 0) (byte_at d 2) = byte_at d 2 ->
               Legacy.beam_validate_frame MAX_PAYLOAD_SIZE data data_len
                 out_frame k
               = beam_parse_into_frame data data_len out_frame k)).
Proof.
  intros data data_len out_frame k.
  destruct data as [d|];
    [| repeat split; try reflexivity; intros; discriminate].
  destruct out_frame as [out|];
    [| repeat split; try reflexivity; intros; discriminate].
  unfold Legacy.beam_validate_frame, beam_parse_into_frame.
  destruct (BEAM_FRAME_MIN_SIZE <=? data_len);
    [| repeat split; try reflexivity; intros; discriminate].
  rewrite !bind_run. unfold ret. cbn [fst snd].
  destruct (legacy_parse_cases d data_len out k) as [[Hne Heq] | [Hp Hl]].
  - rewrite Heq.
    split; [reflexivity|]. split; [reflexivity|]. split; [reflexivity|].
    intros d' out' f' Hd Ho Hok. exfalso. apply Hne.
    injection Hok as He _. exact He.
  - rewrite Hl. cbn [fst snd].
    split; [rewrite Hp; reflexivity|]. split; [reflexivity|].
    split; [intros H; exfalso; apply H; rewrite Hp; reflexivity|].
    intros d' out' f' Hd Ho Hok.
    injection Hd as <-. injection Ho as <-.
    rewrite Hp in Hok |- *. cbn [fst snd] in Hok |- *.
    injection Hok as <-.
    split; [reflexivity|].
    intros Hst. do 3 f_equal.
    unfold set_payload, parsed_frame. cbn [header payload crc].
    rewrite fill_payload_stored_size, Hst. reflexivity.
Qed.

Lemma validate_agrees_with_parse_witness :
  fst (Legacy.beam_validate_frame MAX_PAYLOAD_SIZE (Some telemetry13_buffer) 20
         (Some zero_frame) O)
  = (ESP_OK,
     Some (set_payload telemetry13_parsed
             (memcpy (payload zero_frame) 0
                (skipn (Z.to_nat FRAME_HEADER_SIZE) telemetry13_buffer)
                (byte_at telemetry13_buffer 2))))
  /\ Legacy.beam_validate_frame MAX_PAYLOAD_SIZE
       (Some (store telemetry13_buffer 9 255)) 20 (Some zero_frame) O
     = beam_parse_into_frame (Some (store telemetry13_buffer 9 255)) 20
         (Some zero_frame) O.
Proof.
  split.
  - assert (Hok : fst (beam_parse_into_frame (Some telemetry13_buffer) 20
                         (Some zero_frame) O)
                  = (ESP_OK, Some telemetry13_parsed))
      by (vm_compute; reflexivity).
    exact (proj1 (proj2 (proj2 (proj2 (validate_agrees_with_parse
             (Some telemetry13_buffer) 20 (Some zero_frame) O)))
             telemetry13_buffer zero_frame telemetry13_parsed
             eq_refl eq_refl Hok)).
  - apply (proj1 (proj2 (proj2 (validate_agrees_with_parse
             (Some (store telemetry13_buffer 9 255)) 20 (Some zero_frame) O)))).
    vm_compute. discriminate.
Defined.

Lemma legacy_parse_encode (M : Z) (F : beam_frame_t) (tail : list Z)
    (data_len : Z) (out : beam_frame_t) (k : nat) :
  0 <= len (header F) <= M ->
  len (header F) <= Z.of_nat (length (payload F)) ->
  FRAME_SIZE (len (header F)) <= data_len ->
  data_len <= Z.of_nat (length (encode F ++ tail)) ->
  Legacy.beam_parse_frame_into M (encode F ++ tail) data_len out k
  = ((ESP_OK,
      mk_frame (header F)
        (firstn (Z.to_nat (len (header F))) (payload F)
         ++ skipn (Z.to_nat (len (header F))) (payload out))
        (crc_of (frame_bytes F))),
     (k + Z.to_nat (FRAME_HEADER_SIZE + len (header F)))%nat).
Proof.
  intros HL Hpay Hsize Hlen.
  assert (HL' : 0 <= len (header F) <= Z.of_nat (length (payload F))) by lia.
  assert (H3 : FRAME_HEADER_SIZE = 3) by reflexivity.
  assert (Hfs : FRAME_SIZE (len (header F)) = len (header F) + 5) by
    (unfold FRAME_SIZE, FRAME_HEADER_SIZE, FRAME_CRC_SIZE; lia).
  unfold Legacy.beam_parse_frame_into.
  rewrite encode_byte_0, encode_byte_1, !encode_byte_2.
  change (FRAME_HEADER_SIZE + len (header F) + FRAME_CRC_SIZE)
    with (FRAME_SIZE (len (header F))).
  destruct (Z.leb_spec FRAME_HEADER_SIZE data_len); [| lia].
  destruct (Z.leb_spec (len (header F)) M); [| lia].
  destruct (Z.leb_spec (FRAME_SIZE (len (header F))) data_len); [| lia].
  change (Legacy.beam_compute_frame_crc (encode F ++ tail) (len (header F)))
    with (compute_frame_crc (encode F ++ tail) (len (header F))).
  rewrite bind_run, compute_frame_crc_run by lia.
  cbn [fst snd].
  rewrite encode_covered, encode_crc_lo, encode_crc_hi by exact HL'.
  fold (read_crc (crc_lo (crc_of (frame_bytes F))) (crc_hi (crc_of (frame_bytes F)))).
  rewrite read_crc_split by apply crc_of_range.
  rewrite Z.eqb_refl.
  unfold ret, set_crc, set_payload, set_len, set_seq, set_msg_id.
  cbn [header payload crc msg_id seq len].
  rewrite memcpy_0, encode_payload_src by (try exact HL'; lia).
  rewrite header_eta. reflexivity.
Qed.

(** Interoperation of the two parsers' wire format: what
    [beam_serialize_frame] writes for a well-formed frame is accepted by
    [beam_validate_frame], whatever its [MAX_PAYLOAD_SIZE] as long as the
    frame's [len] is within it, and the frame it returns has the header of
    the serialized frame, its CRC and all [len] payload bytes, for every
    message identifier. *)
Theorem validate_accepts_serialized_frame :
  forall (M : Z) (F : beam_frame_t) (buf : list Z) (size : Z) (osz : option Z)
         (k : nat) (buf' : list Z) (osz' : option Z) (data_len : Z)
         (out : beam_frame_t) (k' : nat),
    frame_wf F ->
    size <= Z.of_nat (length buf) ->
    fst (beam_serialize_frame (Some F) (Some buf) size osz k)
    = (ESP_OK, Some buf', osz') ->
    len (header F) <= M ->
    FRAME_SIZE (len (header F)) <= data_len <= size ->
    fst (Legacy.beam_validate_frame M (Some buf') data_len (Some out) k')
    = (ESP_OK,
       Some (mk_frame (header F)
               (firstn (Z.to_nat (len (header F))) (payload F)
                ++ skipn (Z.to_nat (len (header F))) (payload out))
               (crc_of (frame_bytes F)))).
Proof.
  intros M F buf size osz k buf' osz' data_len out k' Hwf Hbuf Hser HM Hdata.
  destruct (beam_serialize_frame_wf_inv _ _ _ _ _ _ _ Hwf Hbuf Hser)
    as (HL & Hpay & Hsz & ->).
  assert (HL' : 0 <= len (header F) <= Z.of_nat (length (payload F))) by lia.
  assert (Hfs : FRAME_SIZE (len (header F)) = len (header F) + 5) by
    (unfold FRAME_SIZE, FRAME_HEADER_SIZE, FRAME_CRC_SIZE; lia).
  pose proof (encode_length F HL') as Henc.
  unfold Legacy.beam_validate_frame.
  destruct (Z.leb_spec BEAM_FRAME_MIN_SIZE data_len);
    [| unfold BEAM_FRAME_MIN_SIZE in *; lia].
  rewrite bind_run.
  rewrite legacy_parse_encode;
    [| lia | lia | lia | rewrite length_app, length_skipn; lia].
  reflexivity.
Qed.

Lemma validate_accepts_serialized_frame_witness :
  fst (Legacy.beam_validate_frame 250 (Some telemetry13_buffer) 20
         (Some zero_frame) O)
  = (ESP_OK,
     Some (mk_frame (header telemetry13_frame)
             (firstn (Z.to_nat 13) (payload telemetry13_frame)
              ++ skipn (Z.to_nat 13) (payload zero_frame))
             (crc_of (frame_bytes telemetry13_frame)))).
Proof.
  apply (validate_accepts_serialized_frame 250 telemetry13_frame (repeat 7 20)
           20 None O telemetry13_buffer None 20 zero_frame O).
  - exact telemetry13_frame_wf.
  - vm_compute. discriminate.
  - vm_compute. reflexivity.
  - vm_compute. discriminate.
  - split; vm_compute; discriminate.
Defined.
